(** * Four-tier adaptive memory: a shallow embedding and its properties

    The development follows [src/memory_systems]: the short-term store
    ([short_term_memory.py]), the long-term store ([long_term_memory.py]),
    the episodic store ([episodic_memory.py]), the semantic store
    ([semantic_memory.py]) and their coordinator ([memory_manager.py]).

    Every tier is modelled on its in-process backend, the one whose behaviour
    the Python source fixes completely: [redis_client], [connection_pool],
    [collection] and [driver] are [None].

    Conventions.
    - An instant ([datetime], or the ISO-8601 text [isoformat()] gives of
      it) is an integer number of microseconds, counted from
      [datetime.min]; texts of that form compare as the instants do.  Each
      operation receives the reading [now] of [datetime.now()] as an
      argument.  [timedelta(seconds=t)] is [t * 1000000].
      One coordinator call reads the clock once.
    - A dictionary a caller hands over and the store keeps is the same
      object; where a property depends on it, the dictionaries are kept
      by address beside the stores ([MemoryManager.world]).
    - A Python [float] is a rational number ([Q]).
    - A dictionary whose iteration order is observable is an association
      list in insertion order; a dictionary used as a keyed store is a
      [gmap]; a dictionary with a fixed set of keys is a record, an
      optional key an [option] field.
    - What the Python runtime supplies ([json], [str()], [hashlib.md5],
      [** 0.5]) is a section variable.

    Part I gives the definitions, Part II the properties. *)

From Stdlib Require Import ZArith QArith Qround Qminmax Bool Lia Lqa.
From Stdlib Require Import Sorted Permutation.
From Stdlib Require OrderedTypeEx.
From stdpp Require Import gmap strings list fin_maps.

Local Open Scope Z_scope.

(** * Part I: the embedding *)

(** ** Python values and built-ins *)

(** The values a context or preference map can hold. *)
#[warnings="-register-all"]
Inductive Value : Type :=
| VNone
| VBool (b : bool)
| VInt (n : Z)
| VFloat (x : Q)
| VStr (s : string)
| VList (l : list Value)
| VDict (d : list (string * Value)).

(** Insertion-ordered dictionaries with text keys. *)
Module PyDict.

Definition t (V : Type) : Type := list (string * V).

(** [d.get(k)] *)
Fixpoint get {V} (d : t V) (k : string) : option V :=
  match d with
  | [] => None
  | (k', v) :: d' => if String.eqb k' k then Some v else get d' k
  end.

(** [k in d] *)
Definition contains {V} (d : t V) (k : string) : bool :=
  match get d k with Some _ => true | None => false end.

(** [d[k] = v]: an existing key keeps its position. *)
Fixpoint set {V} (d : t V) (k : string) (v : V) : t V :=
  match d with
  | [] => [(k, v)]
  | (k', v') :: d' =>
      if String.eqb k' k then (k', v) :: d' else (k', v') :: set d' k v
  end.

(** [d.update(other)] *)
Definition update {V} (d other : t V) : t V :=
  fold_left (fun acc kv => set acc (fst kv) (snd kv)) other d.

(** [list(d)]: the keys, in insertion order. *)
Definition keys {V} (d : t V) : list string := map fst d.

End PyDict.

Definition seconds (t : Z) : Z := t * 1000000.

Definition microseconds_per_day : Z := 86400 * 1000000.

(** [datetime.max]: the last microsecond of the year 9999, the day of
    ordinal 3652059. *)
Definition datetime_max : Z := 3652059 * microseconds_per_day - 1.

(** [datetime.now() + timedelta(seconds=t)] is a [datetime]: the sum
    raises [OverflowError] when it leaves the years 1 to 9999. *)
Definition expiry_exists (now t : Z) : Prop :=
  0 <= now <= datetime_max /\ 0 <= now + seconds t <= datetime_max.

(** [sep.join(parts)] *)
Fixpoint join (sep : string) (parts : list string) : string :=
  match parts with
  | [] => ""
  | [p] => p
  | p :: ps => p +:+ sep +:+ join sep ps
  end.

(** [l[:limit]]: a negative bound counts from the end. *)
Definition slice_to {A} (l : list A) (limit : Z) : list A :=
  if 0 <=? limit then firstn (Z.to_nat limit) l
  else firstn (Z.to_nat (Z.of_nat (length l) + limit)) l.

(** [l.sort(key=..., reverse=True)]: descending and stable, elements with
    equal keys keep their order.  [leb] is [<=] on keys. *)
Section Sort.
Context {A K : Type}.
Variable leb : K -> K -> bool.
Variable key : A -> K.

Fixpoint insert_desc (x : A) (l : list A) : list A :=
  match l with
  | [] => [x]
  | y :: l' => if leb (key y) (key x) then x :: l else y :: insert_desc x l'
  end.

Definition sort_desc (l : list A) : list A := foldr insert_desc [] l.

(** The order of two neighbours in a descending list. *)
Definition descending (x y : A) : Prop := leb (key y) (key x) = true.

(** [max(x :: l, key=...)]: the first of the maximal elements. *)
Fixpoint max_by (ltb : K -> K -> bool) (x : A) (l : list A) : A :=
  match l with
  | [] => x
  | y :: l' => max_by ltb (if ltb (key x) (key y) then y else x) l'
  end.

End Sort.

(** [round(x, 3)]: to the nearest thousandth, a tie to the even one. *)
Definition round_half_even (x : Q) : Z :=
  let f := Qfloor x in
  match (x - inject_Z f ?= 1 # 2)%Q with
  | Lt => f
  | Gt => f + 1
  | Eq => if Z.even f then f else f + 1
  end.

Definition round3 (x : Q) : Q := (round_half_even (x * 1000) # 1000)%Q.

(** [max(0, x)] and [min(1.0, x)] *)
Definition max0 (x : Q) : Q := if Qle_bool x 0 then 0%Q else x.
Definition min1 (x : Q) : Q := if Qle_bool 1 x then 1%Q else x.

(** ** Short-term store ([short_term_memory.py]) *)

Module ShortTermMemory.

(** One slot of [memory_store]: the serialised payload and its expiry. *)
Record entry (S : Type) : Type := Entry {
  data : S;
  expires_at : option Z
}.
Arguments Entry {S} _ _.
Arguments data {S} _.
Arguments expires_at {S} _.

Section Store.
(** [D] is the type of payloads ([Dict[str, Any]]), [S] the type of their
    serialised form; [json_dumps] and [json_loads] are the two directions
    of the [json] codec. *)
Context {D S : Type}.
Variable json_dumps : D -> S.
Variable json_loads : S -> D.

(** [if ttl] on an [Optional[int]]: [None] and [0] are falsy. *)
Definition ttl_set (ttl : option Z) : option Z :=
  match ttl with
  | Some t => if t =? 0 then None else Some t
  | None => None
  end.

(** [store(key, data, ttl)], where the expiry is a date ([expiry_exists],
    always so without [ttl]): it overwrites the slot.  Where the sum
    overflows, the call raises inside its [try], stores nothing and
    returns [False]; the properties of a [store] with a [ttl] are stated
    for expiries that exist. *)
Definition store (self : gmap string (entry S)) (key : string) (d : D)
    (ttl : option Z) (now : Z) : bool * gmap string (entry S) :=
  let serialized_data := json_dumps d in
  let expiry :=
    match ttl_set ttl with
    | Some t => Some (now + seconds t)
    | None => None
    end in
  (true, <[key := Entry serialized_data expiry]> self).

(** [entry["expires_at"] and datetime.now() > entry["expires_at"]] *)
Definition expired (now : Z) (e : entry S) : bool :=
  match expires_at e with
  | Some x => x <? now
  | None => false
  end.

(** [get(key)]: an expired slot is removed on the way. *)
Definition get (self : gmap string (entry S)) (key : string) (now : Z)
    : option D * gmap string (entry S) :=
  match self !! key with
  | Some e =>
      if expired now e then (None, delete key self)
      else (Some (json_loads (data e)), self)
  | None => (None, self)
  end.

(** [delete(key)] *)
Definition delete_key (self : gmap string (entry S)) (key : string)
    : bool * gmap string (entry S) :=
  match self !! key with
  | Some _ => (true, delete key self)
  | None => (false, self)
  end.

(** [cleanup_expired()] *)
Definition cleanup_expired (self : gmap string (entry S)) (now : Z)
    : gmap string (entry S) :=
  filter (fun kv => expired now (snd kv) = false) self.

(** [get_all_active()] *)
Definition get_all_active (self : gmap string (entry S)) (now : Z)
    : gmap string D :=
  (fun e => json_loads (data e))
    <$> filter (fun kv => expired now (snd kv) = false) self.

(** Successive reads of one key, at the instants of [ts]. *)
Fixpoint gets (self : gmap string (entry S)) (key : string) (ts : list Z)
    : list (option D) :=
  match ts with
  | [] => []
  | t :: ts' => fst (get self key t) :: gets (snd (get self key t)) key ts'
  end.

(** The specification's reading of the expiry rule: the payload is
    readable strictly before [ttl] seconds have elapsed and absent from the
    instant [ttl] seconds have elapsed. *)
Definition expiry_at_ttl_exclusive : Prop :=
  forall (self : gmap string (entry S)) key (d : D) ttl t0 t,
    0 < ttl -> t0 <= t ->
    let s1 := snd (store self key d (Some ttl) t0) in
    (t - t0 < seconds ttl -> fst (get s1 key t) = Some d) /\
    (seconds ttl <= t - t0 -> fst (get s1 key t) = None).

(** The specification's reading of the default: a [store] without [ttl]
    expires like one with [ttl = 3600]. *)
Definition store_default_ttl_3600 : Prop :=
  forall (self : gmap string (entry S)) key (d : D) t0 t,
    let s1 := snd (store self key d None t0) in
    (t0 <= t <= t0 + seconds 3600 -> fst (get s1 key t) = Some d) /\
    (t0 + seconds 3600 < t -> fst (get s1 key t) = None).

End Store.

End ShortTermMemory.

(** ** Long-term store ([long_term_memory.py]) *)

Module LongTermMemory.

(** [memory_store] maps a lead to its profile.  [store_log] is not in the
    source: it lists the calls of [store] in order, so that writes can be
    counted. *)
Record t (P : Type) : Type := Make {
  memory_store : gmap string P;
  store_log : list (string * P)
}.
Arguments Make {P} _ _.
Arguments memory_store {P} _.
Arguments store_log {P} _.

Section Store.
Context {P : Type}.

(** The state [initialize()] leaves. *)
Definition initial : t P := Make ∅ [].

(** [store(lead_id, data)] *)
Definition store (self : t P) (lead_id : string) (d : P) : bool * t P :=
  (true, Make (<[lead_id := d]> (memory_store self))
              (store_log self ++ [(lead_id, d)])).

(** [get(lead_id)] *)
Definition get (self : t P) (lead_id : string) : option P :=
  memory_store self !! lead_id.

End Store.

End LongTermMemory.

(** ** Episodic store ([episodic_memory.py]) *)

Module EpisodicMemory.

(** An episode, as callers hand it over: every key is optional. *)
Record Episode : Type := MkEpisode {
  scenario : option string;
  agent_type : option string;
  action_sequence : option (list Value);
  outcome_score : option Q;
  context : option (PyDict.t Value);
  timestamp : option string;
  episode_id : option string;
  stored_at : option Z
}.

(** One element of [memory_store]. *)
Record stored : Type := Stored {
  id : string;
  embedding : list Q;
  text : string;
  metadata : Episode
}.

(** [embedding_model] is the [encode] method of the loaded model, if any. *)
Record t : Type := Make {
  embedding_model : option (string -> list Q);
  memory_store : list stored
}.

(** The exact-match filters of [search_similar]: the two keys the store
    honours on either backend. *)
Record filters : Type := Filters {
  f_scenario : option string;
  f_agent_type : option string
}.

(** [{**stored["metadata"], "similarity_score": similarity}] *)
Record result : Type := Result {
  episode : Episode;
  similarity_score : Q
}.

(** [episode.get("outcome_score", 0)] *)
Definition score (e : Episode) : Q := default 0%Q (outcome_score e).

(** [x.get("timestamp", "")] *)
Definition timestamp_key (e : Episode) : string := default "" (timestamp e).

Section Store.
(** [md5 text] is [int(hashlib.md5(text.encode()).hexdigest(), 16)];
    [py_str] is [str()]; [sqrt x] is [x ** 0.5]. *)
Variable md5 : string -> Z.
Variable py_str : Value -> string.
Variable sqrt : Q -> Q.

(** The state [initialize()] leaves. *)
Definition initial (model : option (string -> list Q)) : t := Make model [].

(** The fallback branch of [_create_embedding]. *)
Definition mock_embedding (text : string) : list Q :=
  let hash_int := md5 text in
  map (fun i : nat =>
         (inject_Z (Z.shiftr hash_int (Z.of_nat i) mod 256) / 255 - (1 # 2))%Q)
      (seq 0 384).

Definition _create_embedding (self : t) (text : string) : list Q :=
  match embedding_model self with
  | Some encode => encode text
  | None => mock_embedding text
  end.

Definition _episode_to_text (episode : Episode) : string :=
  let text_parts :=
    match scenario episode with
    | Some s => ["scenario: " +:+ s]
    | None => []
    end in
  let context := default [] (context episode) in
  let text_parts :=
    text_parts ++ map (fun kv => fst kv +:+ ": " +:+ py_str (snd kv)) context in
  let actions := default [] (action_sequence episode) in
  let text_parts :=
    match actions with
    | [] => text_parts
    | _ => text_parts ++ ["actions: " +:+ join " " (map py_str actions)]
    end in
  join " | " text_parts.

(** [store(episode_id, episode)].  The entry holds the dictionary it is
    given; [metadata] is the content of that dictionary, and what its
    owner does to it later is [MemoryManager.write]. *)
Definition store (self : t) (episode_id : string) (episode : Episode)
    : bool * t :=
  let episode_text := _episode_to_text episode in
  let embedding := _create_embedding self episode_text in
  (true, Make (embedding_model self)
              (memory_store self
                 ++ [Stored episode_id embedding episode_text episode])).

(** [sum(x * y for x, y in zip(a, b))] *)
Definition dot_product (a b : list Q) : Q :=
  fold_left Qplus (zip_with Qmult a b) 0%Q.

Definition cosine_similarity (a b : list Q) : Q :=
  let magnitude_a := sqrt (dot_product a a) in
  let magnitude_b := sqrt (dot_product b b) in
  if Qeq_bool magnitude_a 0 || Qeq_bool magnitude_b 0 then 0%Q
  else (dot_product a b / (magnitude_a * magnitude_b))%Q.

(** [if filters]: some key is set. *)
Definition filters_given (f : filters) : bool :=
  match f_scenario f, f_agent_type f with
  | None, None => false
  | _, _ => true
  end.

(** [metadata.get(k) == v], for a key [k] the episode has. *)
Definition field_matches (wanted found : option string) : bool :=
  match wanted, found with
  | Some v, Some x => String.eqb x v
  | _, _ => true
  end.

(** [all(metadata.get(k) == v for k, v in filters.items() if k in metadata)] *)
Definition matches (f : filters) (m : Episode) : bool :=
  field_matches (f_scenario f) (scenario m)
  && field_matches (f_agent_type f) (agent_type m).

(** [search_similar(query_text, filters, limit)] *)
Definition search_similar (self : t) (query_text : string) (f : filters)
    (limit : Z) : list result :=
  let query_embedding := _create_embedding self query_text in
  let similarities :=
    omap (fun s : stored =>
            let similarity := cosine_similarity query_embedding (embedding s) in
            if filters_given f && negb (matches f (metadata s)) then None
            else Some (Result (metadata s) similarity))
         (memory_store self) in
  slice_to (sort_desc Qle_bool similarity_score similarities) limit.

(** [get_recent_successes(limit)] *)
Definition get_recent_successes (self : t) (limit : Z) : list Episode :=
  let successful :=
    List.filter (fun m => Qle_bool (7 # 10) (score m))
                (map metadata (memory_store self)) in
  slice_to (sort_desc String.leb timestamp_key successful) limit.

(** The specification's reading of [get_recent_successes]: nothing below
    the coordinator's success threshold [0.8] is returned. *)
Definition recent_successes_reach_threshold : Prop :=
  forall (self : t) (limit : Z) (e : Episode),
    In e (get_recent_successes self limit) -> (8 # 10 <= score e)%Q.

End Store.

End EpisodicMemory.

(** ** The graph library under the semantic store ([networkx.DiGraph]) *)

Module DiGraph.

(** The attributes of an edge. *)
Record edge_data : Type := EdgeData {
  type : option string;
  weight : option Q;
  source : option string;
  created_at : option Z;
  strength : option Q
}.

Definition no_data : edge_data := EdgeData None None None None None.

(** [datadict.update(attr)] *)
Definition update_edge_data (old new : edge_data) : edge_data :=
  let pick {A} (n o : option A) := match n with Some _ => n | None => o end in
  EdgeData (pick (type new) (type old)) (pick (weight new) (weight old))
           (pick (source new) (source old))
           (pick (created_at new) (created_at old))
           (pick (strength new) (strength old)).

(** [_node] holds the attributes of each node, [_succ] the outgoing edges
    of each node; both keep insertion order. *)
Record t : Type := Graph {
  _node : PyDict.t (PyDict.t string);
  _succ : PyDict.t (PyDict.t edge_data)
}.

Definition empty : t := Graph [] [].

(** [n in G] *)
Definition has_node (g : t) (n : string) : bool := PyDict.contains (_node g) n.

(** [G.add_node(n, **attrs)] *)
Definition add_node (g : t) (n : string) (attrs : PyDict.t string) : t :=
  match PyDict.get (_node g) n with
  | None => Graph (PyDict.set (_node g) n attrs) (PyDict.set (_succ g) n [])
  | Some old => Graph (PyDict.set (_node g) n (PyDict.update old attrs)) (_succ g)
  end.

(** [G.add_edge(u, v, **attrs)] *)
Definition add_edge (g : t) (u v : string) (attrs : edge_data) : t :=
  let g := if has_node g u then g else add_node g u [] in
  let g := if has_node g v then g else add_node g v [] in
  let nbrs := default [] (PyDict.get (_succ g) u) in
  let datadict := update_edge_data (default no_data (PyDict.get nbrs v)) attrs in
  Graph (_node g) (PyDict.set (_succ g) u (PyDict.set nbrs v datadict)).

(** [G.neighbors(n)] *)
Definition neighbors (g : t) (n : string) : list string :=
  PyDict.keys (default [] (PyDict.get (_succ g) n)).

(** [G.get_edge_data(u, v)] *)
Definition get_edge_data (g : t) (u v : string) : option edge_data :=
  PyDict.get (default [] (PyDict.get (_succ g) u)) v.

(** [G.edges(data=True)] *)
Definition edges (g : t) : list (string * string * edge_data) :=
  flat_map (fun un => map (fun vd => (fst un, fst vd, snd vd)) (snd un))
           (_succ g).

Definition number_of_nodes (g : t) : nat := length (_node g).
Definition number_of_edges (g : t) : nat := length (edges g).

(** [bool(G)]: the class defines [__len__] as the number of nodes and no
    [__bool__], so a graph without nodes is falsy. *)
Definition truthy (g : t) : bool := negb (Nat.eqb (number_of_nodes g) 0).

(** What [add_node] and [add_edge] maintain: no node and no neighbour is
    listed twice, and the adjacency has an entry for exactly the nodes. *)
Definition well_formed (g : t) : Prop :=
  NoDup (PyDict.keys (_succ g)) /\
  (forall n, PyDict.contains (_succ g) n = PyDict.contains (_node g) n) /\
  (forall u nbrs, PyDict.get (_succ g) u = Some nbrs -> NoDup (PyDict.keys nbrs)).

End DiGraph.

(** ** Semantic store ([semantic_memory.py]) *)

Module SemanticMemory.

(** [graph] is [None] until [initialize()] falls back to the in-process
    graph. *)
Record t : Type := Make {
  graph : option DiGraph.t
}.

(** A knowledge triple, as [store_triple] receives it. *)
Record triple : Type := Triple {
  subject : string;
  predicate : string;
  object : string;
  weight : option Q;
  source : option string
}.

(** A row of [query_triples]. *)
Record row : Type := Row {
  row_subject : string;
  row_predicate : string;
  row_object : string;
  row_weight : Q;
  row_source : string
}.

(** An element of the result of [get_related_concepts]. *)
Record related_concept : Type := Related {
  concept : string;
  path_types : list string;
  distance : Z;
  relationship : string
}.

(** [if self.graph] *)
Definition graph_in_use (self : t) : option DiGraph.t :=
  match graph self with
  | Some g => if DiGraph.truthy g then Some g else None
  | None => None
  end.

Definition concepts : list (string * PyDict.t string) :=
  [ ("email_marketing", [("type", "channel"); ("category", "digital")]);
    ("social_media", [("type", "channel"); ("category", "digital")]);
    ("content_marketing", [("type", "channel"); ("category", "digital")]);
    ("paid_search", [("type", "channel"); ("category", "paid")]);
    ("organic_search", [("type", "channel"); ("category", "organic")]);
    ("lead_nurturing", [("type", "strategy"); ("category", "engagement")]);
    ("retargeting", [("type", "strategy"); ("category", "optimization")]);
    ("personalization", [("type", "strategy"); ("category", "engagement")]);
    ("segmentation", [("type", "strategy"); ("category", "targeting")]);
    ("conversion", [("type", "outcome"); ("value", "high")]);
    ("engagement", [("type", "outcome"); ("value", "medium")]);
    ("awareness", [("type", "outcome"); ("value", "low")]);
    ("technology", [("type", "industry"); ("fit", "high")]);
    ("financial_services", [("type", "industry"); ("fit", "high")]);
    ("healthcare", [("type", "industry"); ("fit", "medium")]);
    ("retail", [("type", "industry"); ("fit", "medium")]) ]%string.

Definition relationships : list (string * string * (string * Q)) :=
  [ ("email_marketing", "lead_nurturing", ("enables", 9 # 10));
    ("social_media", "engagement", ("drives", 8 # 10));
    ("content_marketing", "lead_nurturing", ("supports", 8 # 10));
    ("paid_search", "retargeting", ("enables", 7 # 10));
    ("lead_nurturing", "conversion", ("leads_to", 8 # 10));
    ("personalization", "engagement", ("improves", 9 # 10));
    ("segmentation", "conversion", ("optimizes", 7 # 10));
    ("retargeting", "conversion", ("increases", 6 # 10));
    ("technology", "personalization", ("prefers", 8 # 10));
    ("financial_services", "content_marketing", ("responds_to", 7 # 10));
    ("healthcare", "email_marketing", ("suitable_for", 6 # 10)) ]%string%Q.

Definition _initialize_default_knowledge (self : t) : t :=
  match graph_in_use self with
  | None => self
  | Some g =>
      let g :=
        fold_left (fun g ca => DiGraph.add_node g (fst ca) (snd ca)) concepts g in
      let g :=
        fold_left
          (fun g r =>
             match r with
             | (source, target, (ty, st)) =>
                 DiGraph.add_edge g source target
                   (DiGraph.EdgeData (Some ty) None None None (Some st))
             end)
          relationships g in
      Make (Some g)
  end.

(** [initialize()], when no graph database answers and [networkx] is
    installed. *)
Definition initialize : t :=
  _initialize_default_knowledge (Make (Some DiGraph.empty)).

(** [store_triple(triple)] *)
Definition store_triple (self : t) (tr : triple) (now : Z) : bool * t :=
  let subject := subject tr in
  let predicate := predicate tr in
  let obj := object tr in
  let weight := default 1%Q (weight tr) in
  let source := default "system"%string (source tr) in
  match graph_in_use self with
  | Some g =>
      let g :=
        if DiGraph.has_node g subject then g
        else DiGraph.add_node g subject [("type", "concept")]%string in
      let g :=
        if DiGraph.has_node g obj then g
        else DiGraph.add_node g obj [("type", "concept")]%string in
      let g :=
        DiGraph.add_edge g subject obj
          (DiGraph.EdgeData (Some predicate) (Some weight) (Some source)
             (Some now) None) in
      (true, Make (Some g))
  | None => (true, self)
  end.

(** [if subject and source_node != subject]: [None] and the empty text
    filter nothing. *)
Definition rejects (wanted : option string) (found : option string) : bool :=
  match wanted with
  | Some w => if String.eqb w "" then false
              else match found with
                   | Some x => negb (String.eqb x w)
                   | None => true
                   end
  | None => false
  end.

(** [query_triples(subject, predicate, object)] *)
Definition query_triples (self : t) (subject predicate object : option string)
    : list row :=
  match graph_in_use self with
  | Some g =>
      omap (fun e =>
              match e with
              | (source_node, target_node, edge_data) =>
                  if rejects subject (Some source_node) then None
                  else if rejects object (Some target_node) then None
                  else if rejects predicate (DiGraph.type edge_data) then None
                  else Some (Row source_node
                               (default "related_to"%string (DiGraph.type edge_data))
                               target_node
                               (default 1%Q (DiGraph.weight edge_data))
                               (default "system"%string (DiGraph.source edge_data)))
              end)
           (DiGraph.edges g)
  | None => []
  end.

(** [if relationship_types and edge_type not in relationship_types] *)
Definition filtered_out (relationship_types : option (list string))
    (edge_type : string) : bool :=
  match relationship_types with
  | Some (ty :: tys) => negb (existsb (String.eqb edge_type) (ty :: tys))
  | _ => false
  end.

(** One round of the [for neighbor in self.graph.neighbors(current)] loop:
    [acc] is the pair of [queue] and [related]. *)
Definition visit_neighbor (g : DiGraph.t) (concept : string)
    (relationship_types : option (list string)) (depth : Z)
    (visited : gset string) (current : string) (curr_depth : Z)
    (path : list string)
    (acc : list (string * Z * list string) * list related_concept)
    (neighbor : string)
    : list (string * Z * list string) * list related_concept :=
  if bool_decide (neighbor ∈ visited) then acc
  else
    let edge_type :=
      default "related_to"%string
        (DiGraph.get_edge_data g current neighbor ≫= DiGraph.type) in
    if filtered_out relationship_types edge_type then acc
    else
      let new_path := path ++ [edge_type] in
      let queue :=
        if curr_depth + 1 <? depth
        then fst acc ++ [(neighbor, curr_depth + 1, new_path)]
        else fst acc in
      let related :=
        if String.eqb neighbor concept then snd acc
        else snd acc ++ [Related neighbor new_path (curr_depth + 1) edge_type] in
      (queue, related).

Definition visit_neighbors (g : DiGraph.t) (concept : string)
    (relationship_types : option (list string)) (depth : Z)
    (visited : gset string) (current : string) (curr_depth : Z)
    (path : list string)
    (acc : list (string * Z * list string) * list related_concept)
    : list (string * Z * list string) * list related_concept :=
  fold_left
    (visit_neighbor g concept relationship_types depth visited current
       curr_depth path)
    (DiGraph.neighbors g current) acc.

(** The edges that leave nodes not visited yet: what the [while] loop may
    still put on the queue. *)
Definition pending (g : DiGraph.t) (visited : gset string) : nat :=
  sum_list
    (map (fun un => if bool_decide (fst un ∈ visited) then O else length (snd un))
         (DiGraph._succ g)).

(** The [while queue] loop, run for at most [fuel] rounds; [None] when the
    queue is not empty by then. *)
Fixpoint traverse (fuel : nat) (g : DiGraph.t) (concept : string)
    (relationship_types : option (list string)) (depth : Z)
    (visited : gset string) (queue : list (string * Z * list string))
    (related : list related_concept) : option (list related_concept) :=
  match queue with
  | [] => Some related
  | (current, curr_depth, path) :: queue =>
      match fuel with
      | O => None
      | S fuel =>
          if bool_decide (current ∈ visited) || (depth <=? curr_depth) then
            traverse fuel g concept relationship_types depth visited queue related
          else
            let visited := {[current]} ∪ visited in
            let acc :=
              visit_neighbors g concept relationship_types depth visited
                current curr_depth path (queue, related) in
            traverse fuel g concept relationship_types depth visited
              (fst acc) (snd acc)
      end
  end.

(** [get_related_concepts(concept, relationship_types, depth)].  Every
    round takes one element off the queue and only the first visit of a
    node adds its outgoing edges to it, so one round more than the graph
    has edges is enough. *)
Definition get_related_concepts (self : t) (concept : string)
    (relationship_types : option (list string)) (depth : Z)
    : option (list related_concept) :=
  match graph_in_use self with
  | Some g =>
      if negb (DiGraph.has_node g concept) then Some []
      else traverse (S (DiGraph.number_of_edges g)) g concept
             relationship_types depth ∅ [(concept, 0, [])] []
  | None => Some []
  end.

(** The graph with exactly the edges [a -[rel]-> b] and [b -[rel]-> c],
    built the way [store_triple] builds edges. *)
Definition chain (a b c rel : string) : t :=
  let edge := DiGraph.EdgeData (Some rel) None None None None in
  Make (Some (DiGraph.add_edge (DiGraph.add_edge DiGraph.empty a b edge) b c edge)).

(** [x] is among the concepts of a result. *)
Definition returns (r : option (list related_concept)) (x : string) : Prop :=
  exists l, r = Some l /\ In x (map concept l).

End SemanticMemory.

(** ** The coordinator ([memory_manager.py]) *)

(** [memory_data] of [store_short_term]. *)
Module Conversation.
Record t : Type := Make {
  conversation_id : string;
  lead_id : string;
  context : PyDict.t Value;
  last_updated : Z;
  interaction_count : Z
}.
End Conversation.

(** An element of [interaction_history]; [timestamp] may be missing in
    what callers of [store_long_term] pass. *)
Module Interaction.
Record t : Type := Make {
  conversation_id : string;
  interaction_count : Z;
  context_summary : string;
  timestamp : option Z
}.
End Interaction.

(** [memory_data] of [store_long_term]. *)
Module Profile.
Record t : Type := Make {
  lead_id : string;
  preferences : PyDict.t Value;
  interaction_history : list Interaction.t;
  last_updated : Z;
  rfm_score : Q
}.
End Profile.

Module MemoryManager.

(** [consolidation_settings] *)
Definition short_to_long_threshold : Z := 5.
Definition episodic_success_threshold : Q := 8 # 10.
Definition semantic_relationship_threshold : Q := 7 # 10.

(** [key=lambda x: x.get("timestamp", "")]: a missing timestamp sorts
    before every other. *)
Definition timestamp_ltb (a b : option Z) : bool :=
  match a, b with
  | None, Some _ => true
  | Some x, Some y => x <? y
  | _, _ => false
  end.

(** [(datetime.now() - last_timestamp).days] *)
Definition days_between (now last_timestamp : Z) : Z :=
  (now - last_timestamp) / microseconds_per_day.

(** [_calculate_rfm_score(lead_id, interaction_history)] *)
Definition _calculate_rfm_score (lead_id : string)
    (interaction_history : list Interaction.t) (now : Z) : Q :=
  match interaction_history with
  | [] => 0%Q
  | first :: rest =>
      let last_interaction :=
        max_by Interaction.timestamp timestamp_ltb first rest in
      let last_timestamp := default now (Interaction.timestamp last_interaction) in
      let days_since := days_between now last_timestamp in
      let recency_score := max0 (1 - inject_Z days_since / 30)%Q in
      let frequency_score :=
        min1 (inject_Z (Z.of_nat (length interaction_history)) / 10)%Q in
      let monetary_score := (5 # 10)%Q in
      let rfm_score :=
        ((recency_score + frequency_score + monetary_score) / 3)%Q in
      round3 rfm_score
  end.

(** [_extract_preferences(context)] *)
Definition _extract_preferences (context : PyDict.t Value) : PyDict.t Value :=
  let copy (from to : string) (preferences : PyDict.t Value) :=
    match PyDict.get context from with
    | Some v => PyDict.set preferences to v
    | None => preferences
    end in
  let preferences := [] in
  let preferences := copy "preferred_channel" "communication_channel" preferences in
  let preferences := copy "contact_time" "contact_time" preferences in
  let preferences := copy "interests" "interests" preferences in
  let preferences := copy "communication_style" "communication_style" preferences in
  let preferences := copy "product_interests" "product_interests" preferences in
  preferences.

(** The specification's words for the three components of the score. *)
Definition latest_timestamp (interaction_history : list Interaction.t)
    (now : Z) : Z :=
  match omap Interaction.timestamp interaction_history with
  | [] => now
  | t :: ts => fold_left Z.max ts t
  end.

Definition days_since_last_interaction
    (interaction_history : list Interaction.t) (now : Z) : Z :=
  (now - latest_timestamp interaction_history now) / microseconds_per_day.

Definition recency (days_since_last_interaction : Z) : Q :=
  Qmax 0 (1 - inject_Z days_since_last_interaction / 30).

Definition frequency (interaction_count : nat) : Q :=
  Qmin 1 (inject_Z (Z.of_nat interaction_count) / 10).

Definition monetary : Q := 5 # 10.

(** The specification's reading of the score: the formula holds of every
    history, whatever number of days an empty one is given. *)
Definition rfm_formula_every_history : Prop :=
  forall (lead_id : string) (interaction_history : list Interaction.t)
         (now : Z),
  exists days : Z,
    _calculate_rfm_score lead_id interaction_history now =
    round3 ((recency days + frequency (length interaction_history)
             + monetary) / 3)%Q.

Section Coordinator.
(** The [json] codec on conversation records, [json.dumps] on one value,
    and the built-ins of the episodic store. *)
Context {S : Type}.
Variable json_dumps : Conversation.t -> S.
Variable json_loads : S -> Conversation.t.
Variable json_dumps_value : Value -> string.
Variable md5 : string -> Z.
Variable py_str : Value -> string.
Variable sqrt : Q -> Q.

Record t : Type := Make {
  short_term : gmap string (ShortTermMemory.entry S);
  long_term : LongTermMemory.t Profile.t;
  episodic : EpisodicMemory.t;
  semantic : SemanticMemory.t
}.

(** The state [initialize()] leaves; [model] is the embedding model, when
    one could be loaded. *)
Definition initial (model : option (string -> list Q)) : t :=
  Make ∅ LongTermMemory.initial (EpisodicMemory.initial model)
       SemanticMemory.initialize.

(** [_summarize_context(context)] *)
Definition _summarize_context (context : PyDict.t Value) : string :=
  let part (k label : string) : list string :=
    match PyDict.get context k with
    | Some v => [label +:+ py_str v]
    | None => []
    end in
  let summary_parts :=
    part "lead_source" "Source: " ++ part "interaction_type" "Type: "
      ++ part "outcome" "Outcome: " in
  match summary_parts with
  | [] => "General interaction"
  | _ => join " | " summary_parts
  end.

(** [_context_to_search_text(context)] *)
Definition _context_to_search_text (context : PyDict.t Value) : string :=
  join " "
    (map (fun kv =>
            match snd kv with
            | VStr s => fst kv +:+ ": " +:+ s
            | VList _ | VDict _ => fst kv +:+ ": " +:+ json_dumps_value (snd kv)
            | v => fst kv +:+ ": " +:+ py_str v
            end)
         context).

(** [store_long_term(lead_id, preferences, interaction_history)] *)
Definition store_long_term (self : t) (lead_id : string)
    (preferences : PyDict.t Value) (interaction_history : list Interaction.t)
    (now : Z) : bool * t :=
  let memory_data :=
    Profile.Make lead_id preferences interaction_history now
      (_calculate_rfm_score lead_id interaction_history now) in
  let r := LongTermMemory.store (long_term self) lead_id memory_data in
  (fst r, Make (short_term self) (snd r) (episodic self) (semantic self)).

(** [get_long_term(lead_id)] *)
Definition get_long_term (self : t) (lead_id : string) : option Profile.t :=
  LongTermMemory.get (long_term self) lead_id.

(** [_consolidate_to_long_term(conversation_id, short_term_data)].  The
    source updates the preferences and the history of the existing
    profile in place and stores them again: the profile of the lead is
    the one given here; a profile of another lead that was stored with
    the same two objects would change with it, which a map of values
    does not show, and nothing is stated of other leads. *)
Definition _consolidate_to_long_term (self : t) (conversation_id : string)
    (short_term_data : Conversation.t) (now : Z) : bool * t :=
  let lead_id := Conversation.lead_id short_term_data in
  if String.eqb lead_id "" then (false, self)
  else
    let existing_long_term := get_long_term self lead_id in
    let preferences :=
      _extract_preferences (Conversation.context short_term_data) in
    let interaction_record :=
      Interaction.Make conversation_id
        (Conversation.interaction_count short_term_data)
        (_summarize_context (Conversation.context short_term_data))
        (Some (Conversation.last_updated short_term_data)) in
    match existing_long_term with
    | Some existing =>
        (true,
         snd (store_long_term self lead_id
                (PyDict.update (Profile.preferences existing) preferences)
                (Profile.interaction_history existing ++ [interaction_record])
                now))
    | None =>
        (true,
         snd (store_long_term self lead_id preferences [interaction_record] now))
    end.

(** [ttl or 3600] *)
Definition ttl_or_default (ttl : option Z) : Z :=
  match ShortTermMemory.ttl_set ttl with
  | Some t => t
  | None => 3600
  end.

(** [store_short_term(conversation_id, lead_id, context, ttl)] *)
Definition store_short_term (self : t) (conversation_id lead_id : string)
    (context : PyDict.t Value) (ttl : option Z) (now : Z) : bool * t :=
  let existing := ShortTermMemory.get json_loads (short_term self) conversation_id now in
  let interaction_count :=
    match fst existing with
    | Some e => Conversation.interaction_count e + 1
    | None => 1
    end in
  let memory_data :=
    Conversation.Make conversation_id lead_id context now interaction_count in
  let stored :=
    ShortTermMemory.store json_dumps (snd existing) conversation_id memory_data
      (Some (ttl_or_default ttl)) now in
  let self := Make (snd stored) (long_term self) (episodic self) (semantic self) in
  let self :=
    if short_to_long_threshold <=? interaction_count
    then snd (_consolidate_to_long_term self conversation_id memory_data now)
    else self in
  (fst stored, self).

(** [get_short_term(conversation_id)] *)
Definition get_short_term (self : t) (conversation_id : string) (now : Z)
    : option Conversation.t * t :=
  let r := ShortTermMemory.get json_loads (short_term self) conversation_id now in
  (fst r, Make (snd r) (long_term self) (episodic self) (semantic self)).

(** [update_short_term(conversation_id, context_updates)] *)
Definition update_short_term (self : t) (conversation_id : string)
    (context_updates : PyDict.t Value) (now : Z) : bool * t :=
  let r := get_short_term self conversation_id now in
  match fst r with
  | None => (false, snd r)
  | Some existing =>
      let existing :=
        Conversation.Make (Conversation.conversation_id existing)
          (Conversation.lead_id existing)
          (PyDict.update (Conversation.context existing) context_updates)
          now
          (Conversation.interaction_count existing + 1) in
      let stored :=
        ShortTermMemory.store json_dumps (short_term (snd r)) conversation_id
          existing None now in
      (fst stored,
       Make (snd stored) (long_term (snd r)) (episodic (snd r)) (semantic (snd r)))
  end.

(** [episode["episode_id"] = episode_id; episode["stored_at"] = ...] *)
Definition stamp (episode : EpisodicMemory.Episode) (episode_id : string)
    (now : Z) : EpisodicMemory.Episode :=
  EpisodicMemory.MkEpisode
    (EpisodicMemory.scenario episode) (EpisodicMemory.agent_type episode)
    (EpisodicMemory.action_sequence episode)
    (EpisodicMemory.outcome_score episode)
    (EpisodicMemory.context episode) (EpisodicMemory.timestamp episode)
    (Some episode_id) (Some now).

(** [store_episodic_memory(episode)]; [uuid] is the value of
    [str(uuid.uuid4())].  This is the call on the content of a
    dictionary; [store_episodic_memory_at] is the call on a dictionary a
    caller holds, where the stamp shows in every entry that holds it. *)
Definition store_episodic_memory (self : t) (episode : EpisodicMemory.Episode)
    (uuid : string) (now : Z) : bool * t :=
  let outcome_score := default 0%Q (EpisodicMemory.outcome_score episode) in
  if negb (Qle_bool episodic_success_threshold outcome_score) then (false, self)
  else
    let episode_id := uuid in
    let episode := stamp episode episode_id now in
    let r := EpisodicMemory.store md5 py_str (episodic self) episode_id episode in
    (fst r, Make (short_term self) (long_term self) (snd r) (semantic self)).

(** [search_episodic_memory(query_context, agent_type, limit)] *)
Definition search_episodic_memory (self : t) (query_context : PyDict.t Value)
    (agent_type : option string) (limit : Z) : list EpisodicMemory.result :=
  let query_text := _context_to_search_text query_context in
  let filters :=
    match agent_type with
    | Some a => if String.eqb a "" then EpisodicMemory.Filters None None
                else EpisodicMemory.Filters None (Some a)
    | None => EpisodicMemory.Filters None None
    end in
  EpisodicMemory.search_similar md5 sqrt (episodic self) query_text filters limit.

(** [store_knowledge_triple(subject, predicate, obj, weight, source)] *)
Definition store_knowledge_triple (self : t) (subject predicate obj : string)
    (weight : Q) (source : string) (now : Z) : bool * t :=
  let triple :=
    SemanticMemory.Triple subject predicate obj (Some weight) (Some source) in
  let r := SemanticMemory.store_triple (semantic self) triple now in
  (fst r, Make (short_term self) (long_term self) (episodic self) (snd r)).

(** [query_semantic_memory(subject, predicate, obj)] *)
Definition query_semantic_memory (self : t)
    (subject predicate obj : option string) : list SemanticMemory.row :=
  SemanticMemory.query_triples (semantic self) subject predicate obj.

(** [get_related_concepts(concept, relationship_types, depth)] *)
Definition get_related_concepts (self : t) (concept : string)
    (relationship_types : option (list string)) (depth : Z)
    : option (list SemanticMemory.related_concept) :=
  SemanticMemory.get_related_concepts (semantic self) concept
    relationship_types depth.

(** The calls agents make on the coordinator that can change a tier. *)
Inductive request : Type :=
| StoreShortTerm (conversation_id lead_id : string)
    (context : PyDict.t Value) (ttl : option Z)
| GetShortTerm (conversation_id : string)
| UpdateShortTerm (conversation_id : string) (context_updates : PyDict.t Value)
| StoreLongTerm (lead_id : string) (preferences : PyDict.t Value)
    (interaction_history : list Interaction.t)
| StoreEpisodicMemory (episode : EpisodicMemory.Episode) (uuid : string)
| StoreKnowledgeTriple (subject predicate obj : string) (weight : Q)
    (source : string).

Definition handle (self : t) (r : request) (now : Z) : t :=
  match r with
  | StoreShortTerm c l ctx ttl => snd (store_short_term self c l ctx ttl now)
  | GetShortTerm c => snd (get_short_term self c now)
  | UpdateShortTerm c u => snd (update_short_term self c u now)
  | StoreLongTerm l p h => snd (store_long_term self l p h now)
  | StoreEpisodicMemory e u => snd (store_episodic_memory self e u now)
  | StoreKnowledgeTriple s p o w src =>
      snd (store_knowledge_triple self s p o w src now)
  end.

(** A run: each request with the instant it is served at. *)
Definition run (self : t) (rs : list (request * Z)) : t :=
  fold_left (fun s rn => handle s (fst rn) (snd rn)) rs self.

(** Every stored episode reaches the success threshold. *)
Definition all_successful (self : t) : Prop :=
  Forall (fun s => (episodic_success_threshold
                      <= EpisodicMemory.score (EpisodicMemory.metadata s))%Q)
         (EpisodicMemory.memory_store (episodic self)).

(** Successive [store_short_term] calls for one conversation and lead. *)
Definition store_short_term_all (self : t) (conversation_id lead_id : string)
    (calls : list (PyDict.t Value * option Z * Z)) : t :=
  fold_left
    (fun s c =>
       snd (store_short_term s conversation_id lead_id (fst (fst c))
              (snd (fst c)) (snd c)))
    calls self.

(** Each call after the first comes no later than the expiry the call
    before it set. *)
Fixpoint in_time (prev_ttl : option Z) (prev_now : Z)
    (calls : list (PyDict.t Value * option Z * Z)) : Prop :=
  match calls with
  | [] => True
  | (_, ttl, now) :: calls' =>
      now <= prev_now + seconds (ttl_or_default prev_ttl)
      /\ in_time ttl now calls'
  end.

Definition spaced (calls : list (PyDict.t Value * option Z * Z)) : Prop :=
  match calls with
  | [] => True
  | (_, ttl, now) :: calls' => in_time ttl now calls'
  end.

(** The expiry of every call is a date. *)
Definition expiries_exist (calls : list (PyDict.t Value * option Z * Z))
    : Prop :=
  Forall (fun c => expiry_exists (snd c) (ttl_or_default (snd (fst c)))) calls.

(** [_consolidate_frequent_interactions()]; [active_memories] is the list
    [get_all_active()] returns, in the order [items()] gives it. *)
Definition _consolidate_frequent_interactions (self : t)
    (active_memories : list (string * Conversation.t)) (now : Z) : t :=
  fold_left
    (fun self kv =>
       let interaction_count := Conversation.interaction_count (snd kv) in
       if short_to_long_threshold <=? interaction_count
       then snd (_consolidate_to_long_term self (fst kv) (snd kv) now)
       else self)
    active_memories self.

(** The conversations a maintenance pass consolidates. *)
Definition due (kv : string * Conversation.t) : bool :=
  (short_to_long_threshold <=? Conversation.interaction_count (snd kv))
  && negb (String.eqb (Conversation.lead_id (snd kv)) "").

(** The profile a consolidation writes: the recognised preferences of the
    context merged over those of the [existing] profile, and its history
    with one summarised interaction appended. *)
Definition consolidated_profile (existing : option Profile.t)
    (conversation_id : string) (short_term_data : Conversation.t) (now : Z)
    : Profile.t :=
  let lead_id := Conversation.lead_id short_term_data in
  let extracted := _extract_preferences (Conversation.context short_term_data) in
  let summary :=
    Interaction.Make conversation_id
      (Conversation.interaction_count short_term_data)
      (_summarize_context (Conversation.context short_term_data))
      (Some (Conversation.last_updated short_term_data)) in
  let preferences :=
    match existing with
    | Some e => PyDict.update (Profile.preferences e) extracted
    | None => extracted
    end in
  let interaction_history :=
    match existing with
    | Some e => Profile.interaction_history e ++ [summary]
    | None => [summary]
    end in
  Profile.Make lead_id preferences interaction_history now
    (_calculate_rfm_score lead_id interaction_history now).

(** The specification's reading of consolidation: five calls, whatever the
    lead. *)
Definition five_stores_one_write : Prop :=
  forall (self : t) (conversation_id lead_id : string) ctx ttl now calls,
    length calls = 4%nat ->
    fst (get_short_term self conversation_id now) = None ->
    spaced ((ctx, ttl, now) :: calls) ->
    let self' :=
      store_short_term_all self conversation_id lead_id ((ctx, ttl, now) :: calls) in
    exists p,
      LongTermMemory.store_log (long_term self') =
      LongTermMemory.store_log (long_term self) ++ [(lead_id, p)].

(** Episodes as the objects they are.  [store_episodic_memory] writes
    [episode_id] and [stored_at] into the dictionary it is given and the
    episodic store keeps that dictionary, not a copy.  [objects] holds the
    dictionaries callers have created, an address being a position in it;
    [refs] gives, entry by entry of the episodic store, the address of the
    dictionary that entry holds; the [metadata] of an entry is the present
    content of its dictionary. *)
Record world : Type := World {
  manager : t;
  objects : list EpisodicMemory.Episode;
  refs : list nat
}.

(** The dictionary at [a] takes the content [episode]: every entry that
    holds it shows the new content. *)
Definition write (w : world) (a : nat) (episode : EpisodicMemory.Episode)
    : world :=
  let self := manager w in
  let entries :=
    zip_with
      (fun r s =>
         if Nat.eqb r a
         then EpisodicMemory.Stored (EpisodicMemory.id s)
                (EpisodicMemory.embedding s) (EpisodicMemory.text s) episode
         else s)
      (refs w) (EpisodicMemory.memory_store (episodic self)) in
  World
    (Make (short_term self) (long_term self)
       (EpisodicMemory.Make (EpisodicMemory.embedding_model (episodic self))
          entries)
       (semantic self))
    (<[a := episode]> (objects w)) (refs w).

(** [store_episodic_memory(episode)] on the dictionary at [a]: the stamp
    goes into that dictionary, and the new entry holds it. *)
Definition store_episodic_memory_at (w : world) (a : nat) (uuid : string)
    (now : Z) : bool * world :=
  match objects w !! a with
  | Some episode =>
      let r := store_episodic_memory (manager w) episode uuid now in
      if fst r
      then (true,
            write (World (snd r) (objects w) (refs w ++ [a])) a
              (stamp episode uuid now))
      else (false, w)
  | None => (false, w)
  end.

(** What callers do: build a dictionary, change one they hold, hand one
    to [store_episodic_memory], or make another coordinator call; a
    [StoreEpisodicMemory] request hands over a dictionary nobody keeps. *)
Inductive action : Type :=
| Create (episode : EpisodicMemory.Episode)
| Assign (a : nat) (episode : EpisodicMemory.Episode)
| StoreAt (a : nat) (uuid : string)
| Call (r : request).

Definition act (w : world) (x : action) (now : Z) : world :=
  match x with
  | Create episode => World (manager w) (objects w ++ [episode]) (refs w)
  | Assign a episode =>
      match objects w !! a with
      | Some _ => write w a episode
      | None => w
      end
  | StoreAt a uuid => snd (store_episodic_memory_at w a uuid now)
  | Call (StoreEpisodicMemory episode uuid) =>
      snd (store_episodic_memory_at
             (World (manager w) (objects w ++ [episode]) (refs w))
             (length (objects w)) uuid now)
  | Call r => World (handle (manager w) r now) (objects w) (refs w)
  end.

Definition play (w : world) (xs : list (action * Z)) : world :=
  fold_left (fun w xn => act w (fst xn) (snd xn)) xs w.

(** No caller lowers below the success threshold the score of a
    dictionary the episodic store holds. *)
Fixpoint scores_kept (w : world) (xs : list (action * Z)) : Prop :=
  match xs with
  | [] => True
  | (x, now) :: xs' =>
      match x with
      | Assign a episode =>
          In a (refs w) ->
          (episodic_success_threshold <= EpisodicMemory.score episode)%Q
      | _ => True
      end
      /\ scores_kept (act w x now) xs'
  end.

(** The specification's reading of the threshold: an episode that was
    refused is returned by no later search, whatever callers do. *)
Definition refused_episode_never_returned : Prop :=
  forall (w0 : world) (before after : list (action * Z)) (a : nat)
         (e : EpisodicMemory.Episode) (uuid : string) (now : Z)
         (q : PyDict.t Value) (agent : option string) (limit : Z),
    EpisodicMemory.memory_store (episodic (manager w0)) = [] ->
    refs w0 = [] ->
    let w := play w0 before in
    objects w !! a = Some e ->
    (EpisodicMemory.score e < episodic_success_threshold)%Q ->
    fst (store_episodic_memory_at w a uuid now) = false /\
    forall r,
      In r (search_episodic_memory
              (manager (play (snd (store_episodic_memory_at w a uuid now))
                          after))
              q agent limit) ->
      EpisodicMemory.episode r <> e.

(** The specification's reading of a failed update: no tier changes. *)
Definition failed_update_changes_nothing : Prop :=
  forall (self : t) (conversation_id : string) context_updates now,
    fst (get_short_term self conversation_id now) = None ->
    update_short_term self conversation_id context_updates now = (false, self).

End Coordinator.

End MemoryManager.

(** * Part II: properties *)

(** ** Short-term store: read after write and expiry *)

Section ShortTermFacts.
Context {D S : Type}.
Variable json_dumps : D -> S.
Variable json_loads : S -> D.

Local Abbreviation store := (ShortTermMemory.store json_dumps).
Local Abbreviation get := (ShortTermMemory.get json_loads).
Local Abbreviation gets := (ShortTermMemory.gets json_loads).
Local Abbreviation entry := (ShortTermMemory.entry S).

Lemma get_absent (self : gmap string entry) key now :
  self !! key = None -> get self key now = (None, self).
Proof. intros H. unfold ShortTermMemory.get. by rewrite H. Qed.

Lemma gets_absent (self : gmap string entry) key ts :
  self !! key = None -> Forall (fun r => r = None) (gets self key ts).
Proof.
  intros H. induction ts as [|t ts IH]; simpl; [constructor|].
  rewrite (get_absent _ _ _ H). simpl. constructor; [done|exact IH].
Qed.

Lemma store_lookup (self : gmap string entry) key d ttl t0 :
  snd (store self key d ttl t0) !! key =
  Some (ShortTermMemory.Entry (json_dumps d)
          (match ShortTermMemory.ttl_set ttl with
           | Some t => Some (t0 + seconds t)
           | None => None
           end)).
Proof. unfold ShortTermMemory.store. simpl. apply lookup_insert_eq. Qed.

Lemma store_lookup_ne (self : gmap string entry) key key' d ttl t0 :
  key <> key' -> snd (store self key d ttl t0) !! key' = self !! key'.
Proof. intros H. unfold ShortTermMemory.store. simpl. by apply lookup_insert_ne. Qed.

(** A read that returns a payload found a slot that is not expired, and
    leaves the store as it is. *)
Lemma get_Some_live (self : gmap string entry) key now d :
  fst (get self key now) = Some d ->
  exists e, self !! key = Some e /\ ShortTermMemory.expired now e = false /\
            d = json_loads (ShortTermMemory.data e) /\
            snd (get self key now) = self.
Proof.
  unfold ShortTermMemory.get. destruct (self !! key) as [e|] eqn:He; [|discriminate].
  destruct (ShortTermMemory.expired now e) eqn:Hx; simpl; [discriminate|].
  intros [= <-]. exists e. done.
Qed.

(** A read that returns nothing found no slot or an expired one, which it
    removed. *)
Lemma get_None_cases (self : gmap string entry) key now :
  fst (get self key now) = None ->
  (self !! key = None /\ snd (get self key now) = self) \/
  (exists e, self !! key = Some e /\ ShortTermMemory.expired now e = true /\
             snd (get self key now) = delete key self).
Proof.
  unfold ShortTermMemory.get. destruct (self !! key) as [e|] eqn:He; [|by left].
  destruct (ShortTermMemory.expired now e) eqn:Hx; simpl; [|discriminate].
  intros _. right. exists e. done.
Qed.

(** A slot stored without [ttl] is served at every instant. *)
Lemma get_after_store_no_ttl (self : gmap string entry) key d ttl t0 t :
  ShortTermMemory.ttl_set ttl = None ->
  get (snd (store self key d ttl t0)) key t =
  (Some (json_loads (json_dumps d)), snd (store self key d ttl t0)).
Proof.
  intros Httl. unfold ShortTermMemory.get. rewrite store_lookup, Httl. done.
Qed.

Lemma get_after_store_live (self : gmap string entry) key d ttl t0 t :
  ttl <> 0 -> t <= t0 + seconds ttl ->
  get (snd (store self key d (Some ttl) t0)) key t =
  (Some (json_loads (json_dumps d)), snd (store self key d (Some ttl) t0)).
Proof.
  intros Httl Ht. unfold ShortTermMemory.get. rewrite store_lookup.
  unfold ShortTermMemory.ttl_set, ShortTermMemory.expired. simpl.
  destruct (ttl =? 0) eqn:E; [lia|]. simpl.
  destruct (t0 + seconds ttl <? t) eqn:E2; [lia|]. done.
Qed.

Lemma get_after_store_expired (self : gmap string entry) key d ttl t0 t :
  ttl <> 0 -> t0 + seconds ttl < t ->
  get (snd (store self key d (Some ttl) t0)) key t = (None, delete key self).
Proof.
  intros Httl Ht. unfold ShortTermMemory.get. rewrite store_lookup.
  unfold ShortTermMemory.ttl_set, ShortTermMemory.expired. simpl.
  destruct (ttl =? 0) eqn:E; [lia|]. simpl.
  destruct (t0 + seconds ttl <? t) eqn:E2; [|lia].
  unfold ShortTermMemory.store. simpl. by rewrite delete_insert_eq.
Qed.

(** [get_all_active] lists unexpired slots only. *)
Lemma get_all_active_live (self : gmap string entry) now key d :
  ShortTermMemory.get_all_active json_loads self now !! key = Some d ->
  exists e, self !! key = Some e /\ ShortTermMemory.expired now e = false /\
            d = json_loads (ShortTermMemory.data e).
Proof.
  unfold ShortTermMemory.get_all_active. rewrite lookup_fmap.
  destruct (filter _ self !! key) as [e|] eqn:He; [|discriminate].
  apply map_lookup_filter_Some in He as [He Hx]. simpl in Hx.
  intros [= <-]. by exists e.
Qed.

(** [cleanup_expired] removes expired slots and nothing else. *)
Lemma cleanup_expired_lookup (self : gmap string entry) now key :
  ShortTermMemory.cleanup_expired self now !! key =
  match self !! key with
  | Some e => if ShortTermMemory.expired now e then None else Some e
  | None => None
  end.
Proof.
  unfold ShortTermMemory.cleanup_expired.
  destruct (self !! key) as [e|] eqn:He.
  - destruct (ShortTermMemory.expired now e) eqn:Hx.
    + apply map_lookup_filter_None. right. intros e' He' Hx'.
      simpl in Hx'. congruence.
    + apply map_lookup_filter_Some. done.
  - apply map_lookup_filter_None. by left.
Qed.


End ShortTermFacts.



(** ** The coordinator: short-term writes and consolidation *)

Section CoordinatorFacts.
Context {S : Type}.
Variable json_dumps : Conversation.t -> S.
Variable json_loads : S -> Conversation.t.
Variable py_str : Value -> string.

#[local] Arguments MemoryManager.store_short_term : simpl never.
#[local] Arguments MemoryManager.store_short_term_all : simpl never.
#[local] Arguments MemoryManager._consolidate_to_long_term : simpl never.

Local Abbreviation state := (@MemoryManager.t S).
Local Abbreviation store_short_term :=
  (MemoryManager.store_short_term json_dumps json_loads py_str).
Local Abbreviation store_short_term_all :=
  (MemoryManager.store_short_term_all json_dumps json_loads py_str).
Local Abbreviation get_short_term := (MemoryManager.get_short_term json_loads).
Local Abbreviation update_short_term :=
  (MemoryManager.update_short_term json_dumps json_loads).
Local Abbreviation consolidate := (MemoryManager._consolidate_to_long_term py_str).
Local Abbreviation slot c ttl now :=
  (ShortTermMemory.Entry (json_dumps c)
     (Some (now + seconds (MemoryManager.ttl_or_default ttl)))).

Lemma ttl_or_default_set ttl :
  ShortTermMemory.ttl_set (Some (MemoryManager.ttl_or_default ttl)) =
  Some (MemoryManager.ttl_or_default ttl).
Proof.
  unfold MemoryManager.ttl_or_default, ShortTermMemory.ttl_set.
  destruct ttl as [t|]; [|done].
  destruct (t =? 0) eqn:E; [done|]. by rewrite E.
Qed.

Lemma ttl_or_default_3600 ttl :
  ShortTermMemory.ttl_set ttl = None -> MemoryManager.ttl_or_default ttl = 3600.
Proof. unfold MemoryManager.ttl_or_default. by intros ->. Qed.

(** Consolidation touches the long-term tier only. *)
Lemma consolidate_frame (self : state) conv d now :
  MemoryManager.short_term (snd (consolidate self conv d now))
  = MemoryManager.short_term self /\
  MemoryManager.episodic (snd (consolidate self conv d now))
  = MemoryManager.episodic self /\
  MemoryManager.semantic (snd (consolidate self conv d now))
  = MemoryManager.semantic self.
Proof.
  unfold MemoryManager._consolidate_to_long_term.
  destruct (String.eqb _ _); [done|].
  destruct (MemoryManager.get_long_term _ _); done.
Qed.

(** What a consolidation for a lead with a name writes. *)
Lemma consolidate_long (self : state) conv d now :
  Conversation.lead_id d <> "" ->
  MemoryManager.long_term (snd (consolidate self conv d now)) =
  snd (LongTermMemory.store (MemoryManager.long_term self)
         (Conversation.lead_id d)
         (MemoryManager.consolidated_profile py_str
            (MemoryManager.get_long_term self (Conversation.lead_id d))
            conv d now)).
Proof.
  intros Hlead. unfold MemoryManager._consolidate_to_long_term.
  destruct (String.eqb_spec (Conversation.lead_id d) "") as [E|_]; [done|].
  unfold MemoryManager.consolidated_profile.
  destruct (MemoryManager.get_long_term self (Conversation.lead_id d)); done.
Qed.

(** A consolidation for the empty lead writes nothing. *)
Lemma consolidate_no_lead (self : state) conv d now :
  Conversation.lead_id d = "" -> consolidate self conv d now = (false, self).
Proof.
  intros Hlead. unfold MemoryManager._consolidate_to_long_term.
  by rewrite Hlead.
Qed.

(** [store_short_term], tier by tier. *)
Lemma store_short_term_frame (self : state) conv lead ctx ttl now :
  let r := store_short_term self conv lead ctx ttl now in
  let existing :=
    ShortTermMemory.get json_loads (MemoryManager.short_term self) conv now in
  let n := match fst existing with
           | Some e => Conversation.interaction_count e + 1
           | None => 1
           end in
  fst r = true /\
  MemoryManager.short_term (snd r) =
    <[conv := slot (Conversation.Make conv lead ctx now n) ttl now]> (snd existing) /\
  MemoryManager.episodic (snd r) = MemoryManager.episodic self /\
  MemoryManager.semantic (snd r) = MemoryManager.semantic self /\
  MemoryManager.long_term (snd r) =
    (if MemoryManager.short_to_long_threshold <=? n
     then MemoryManager.long_term
            (snd (consolidate self conv (Conversation.Make conv lead ctx now n) now))
     else MemoryManager.long_term self).
Proof.
  unfold MemoryManager.store_short_term. cbv zeta.
  set (existing := ShortTermMemory.get json_loads _ conv now).
  set (n := match fst existing with Some e => _ | None => 1 end).
  unfold ShortTermMemory.store. rewrite ttl_or_default_set. simpl.
  destruct (MemoryManager.short_to_long_threshold <=? n); simpl; [|done].
  pose proof (consolidate_frame
    (MemoryManager.Make
       (<[conv := slot (Conversation.Make conv lead ctx now n) ttl now]> (snd existing))
       (MemoryManager.long_term self) (MemoryManager.episodic self)
       (MemoryManager.semantic self))
    conv (Conversation.Make conv lead ctx now n) now) as (H1 & H2 & H3).
  simpl in *. repeat split; try done.
  unfold MemoryManager._consolidate_to_long_term. simpl.
  destruct (String.eqb lead ""); [done|].
  unfold MemoryManager.get_long_term. simpl.
  destruct (LongTermMemory.get _ _); done.
Qed.

(** [update_short_term] without an active slot: nothing is stored; at most
    the expired slot of the conversation goes. *)
Lemma update_short_term_absent_state (self : state) conv updates now :
  fst (get_short_term self conv now) = None ->
  update_short_term self conv updates now =
  (false,
   MemoryManager.Make
     (snd (ShortTermMemory.get json_loads (MemoryManager.short_term self) conv now))
     (MemoryManager.long_term self) (MemoryManager.episodic self)
     (MemoryManager.semantic self)).
Proof.
  intros H. unfold MemoryManager.update_short_term. rewrite H. done.
Qed.

(** C10 (as amended).  When [conversation_id] has no active short-term
    slot, [update_short_term] returns [False]; the long-term, episodic and
    semantic tiers are unchanged; nothing is written to the short-term
    tier: every slot of the result is a slot of the store before, every
    unexpired slot is kept, the slot of every other conversation is as it
    was, and the state is unchanged altogether when the conversation has
    no slot at all.  (The expired slot of the conversation, if there is
    one, is removed by the read: the conversation has no slot
    afterwards.) *)
Theorem update_short_term_absent (self : state) conv updates now :
  fst (get_short_term self conv now) = None ->
  let r := update_short_term self conv updates now in
  fst r = false /\
  MemoryManager.long_term (snd r) = MemoryManager.long_term self /\
  MemoryManager.episodic (snd r) = MemoryManager.episodic self /\
  MemoryManager.semantic (snd r) = MemoryManager.semantic self /\
  MemoryManager.short_term (snd r) ⊆ MemoryManager.short_term self /\
  (forall k e, MemoryManager.short_term self !! k = Some e ->
               ShortTermMemory.expired now e = false ->
               MemoryManager.short_term (snd r) !! k = Some e) /\
  (MemoryManager.short_term self !! conv = None -> snd r = self) /\
  (forall k, k <> conv ->
             MemoryManager.short_term (snd r) !! k
             = MemoryManager.short_term self !! k) /\
  MemoryManager.short_term (snd r) !! conv = None.
Proof.
  intros H r. subst r. rewrite update_short_term_absent_state by done. simpl.
  repeat split; try done.
  - destruct (get_None_cases json_loads _ _ _ H) as [[_ ->]|(e & _ & _ & ->)];
      [done|apply delete_subseteq].
  - intros k e Hk Hx.
    destruct (get_None_cases json_loads _ _ _ H) as [[_ ->]|(e' & He' & Hx' & ->)];
      [done|].
    rewrite lookup_delete_ne; [done|]. intros <-. congruence.
  - intros Hn. rewrite get_absent by done. simpl. by destruct self.
  - intros k Hk.
    destruct (get_None_cases json_loads _ _ _ H) as [[_ ->]|(e & _ & _ & ->)];
      [done|]. by rewrite lookup_delete_ne.
  - destruct (get_None_cases json_loads _ _ _ H) as [[Hn ->]|(e & _ & _ & ->)];
      [done|]. apply lookup_delete_eq.
Qed.

Hypothesis json_roundtrip : forall d, json_loads (json_dumps d) = d.

(** One call on a slot that is still live: the count goes up by one. *)
Lemma store_short_term_live (self : state) conv lead ctx ttl now c pttl pnow :
  MemoryManager.short_term self !! conv = Some (slot c pttl pnow) ->
  now <= pnow + seconds (MemoryManager.ttl_or_default pttl) ->
  let d := Conversation.Make conv lead ctx now (Conversation.interaction_count c + 1) in
  let r := store_short_term self conv lead ctx ttl now in
  MemoryManager.short_term (snd r) =
    <[conv := slot d ttl now]> (MemoryManager.short_term self) /\
  MemoryManager.long_term (snd r) =
    (if MemoryManager.short_to_long_threshold <=? Conversation.interaction_count d
     then MemoryManager.long_term (snd (consolidate self conv d now))
     else MemoryManager.long_term self).
Proof.
  intros Hs Hnow d r. subst d r.
  destruct (store_short_term_frame self conv lead ctx ttl now)
    as (_ & Hshort & _ & _ & Hlong).
  cbv zeta in Hshort, Hlong.
  assert (Hget : ShortTermMemory.get json_loads (MemoryManager.short_term self) conv now
                 = (Some c, MemoryManager.short_term self)).
  { unfold ShortTermMemory.get. rewrite Hs. unfold ShortTermMemory.expired. simpl.
    destruct (_ <? now) eqn:E; [lia|]. by rewrite json_roundtrip. }
  rewrite Hget in Hshort, Hlong. simpl in *. done.
Qed.

Lemma store_short_term_all_cons (self : state) conv lead ctx ttl now calls :
  store_short_term_all self conv lead ((ctx, ttl, now) :: calls) =
  store_short_term_all (snd (store_short_term self conv lead ctx ttl now))
    conv lead calls.
Proof. reflexivity. Qed.

Lemma store_short_term_all_nil (self : state) conv lead :
  store_short_term_all self conv lead [] = self.
Proof. reflexivity. Qed.

(** Calls that keep the count under the threshold leave the long-term
    tier alone. *)
Lemma store_short_term_all_quiet calls : forall rest (self : state) conv lead c pttl pnow,
  MemoryManager.short_term self !! conv = Some (slot c pttl pnow) ->
  MemoryManager.in_time pttl pnow (calls ++ rest) ->
  Conversation.interaction_count c + Z.of_nat (length calls)
    < MemoryManager.short_to_long_threshold ->
  exists (self' : state) c' pttl' pnow',
    store_short_term_all self conv lead (calls ++ rest)
      = store_short_term_all self' conv lead rest /\
    MemoryManager.long_term self' = MemoryManager.long_term self /\
    MemoryManager.short_term self' !! conv = Some (slot c' pttl' pnow') /\
    Conversation.interaction_count c'
      = Conversation.interaction_count c + Z.of_nat (length calls) /\
    MemoryManager.in_time pttl' pnow' rest.
Proof.
  induction calls as [|[[ctx ttl] now] calls IH];
    intros rest self conv lead c pttl pnow Hs Ht Hn.
  - exists self, c, pttl, pnow. simpl in *. repeat split; try done. lia.
  - simpl in Ht. destruct Ht as [Hnow Ht].
    destruct (store_short_term_live self conv lead ctx ttl now c pttl pnow Hs Hnow)
      as [Hshort Hlong].
    cbv zeta in Hshort, Hlong. cbn [Conversation.interaction_count] in Hlong.
    unfold MemoryManager.short_to_long_threshold in *.
    rewrite length_cons in Hn.
    destruct (5 <=? _) eqn:E in Hlong; [apply Z.leb_le in E; lia|].
    set (self1 := snd (store_short_term self conv lead ctx ttl now)) in *.
    destruct (IH rest self1 conv lead
                (Conversation.Make conv lead ctx now (Conversation.interaction_count c + 1))
                ttl now) as (self' & c' & pttl' & pnow' & H1 & H2 & H3 & H4 & H5).
    + rewrite Hshort. apply lookup_insert_eq.
    + done.
    + simpl. lia.
    + exists self', c', pttl', pnow'. repeat split; try done.
      * rewrite H2. done.
      * rewrite H4. simpl. lia.
Qed.

(** C1 (as amended).  For every [conversation_id] and every lead_id other
    than the empty text: five [store_short_term] calls for the
    conversation, each with an expiry that is a date, the first finding
    no active slot and each later one arriving before the slot of the one
    before has expired, cause exactly one long-term write, for that lead,
    and it is the profile the lead then has: the preferences recognised
    in the context of the fifth call merged over those of the profile the
    lead had (if any), and its history with one summarised interaction
    appended. *)
Theorem five_stores_consolidate_once (self : state) conv lead ctx ttl now calls
    ctx5 ttl5 now5 :
  lead <> "" ->
  length calls = 3%nat ->
  fst (get_short_term self conv now) = None ->
  MemoryManager.spaced ((ctx, ttl, now) :: calls ++ [(ctx5, ttl5, now5)]) ->
  MemoryManager.expiries_exist
    ((ctx, ttl, now) :: calls ++ [(ctx5, ttl5, now5)]) ->
  let self' :=
    store_short_term_all self conv lead
      ((ctx, ttl, now) :: calls ++ [(ctx5, ttl5, now5)]) in
  let p :=
    MemoryManager.consolidated_profile py_str
      (MemoryManager.get_long_term self lead) conv
      (Conversation.Make conv lead ctx5 now5 5) now5 in
  LongTermMemory.store_log (MemoryManager.long_term self') =
    LongTermMemory.store_log (MemoryManager.long_term self) ++ [(lead, p)] /\
  MemoryManager.get_long_term self' lead = Some p.
Proof.
  intros Hlead Hlen Hfresh Hsp _ self' p. subst self' p.
  simpl in Hsp. rewrite store_short_term_all_cons.
  destruct (store_short_term_frame self conv lead ctx ttl now)
    as (_ & Hshort & _ & _ & Hlong).
  cbv zeta in Hshort, Hlong.
  unfold MemoryManager.get_short_term in Hfresh. simpl in Hfresh.
  rewrite Hfresh in Hshort, Hlong. cbv beta iota in Hshort, Hlong.
  change (MemoryManager.short_to_long_threshold <=? 1) with false in Hlong.
  cbv iota in Hlong.
  set (self1 := snd (store_short_term self conv lead ctx ttl now)) in *.
  destruct (store_short_term_all_quiet calls [(ctx5, ttl5, now5)] self1 conv lead
              (Conversation.Make conv lead ctx now 1) ttl now)
    as (self4 & c4 & pttl & pnow & H1 & H2 & H3 & H4 & H5).
  { rewrite Hshort. apply lookup_insert_eq. }
  { done. }
  { simpl. rewrite Hlen. unfold MemoryManager.short_to_long_threshold. lia. }
  rewrite H1, store_short_term_all_cons, store_short_term_all_nil.
  simpl in H5. destruct H5 as [Hnow5 _].
  destruct (store_short_term_live self4 conv lead ctx5 ttl5 now5 c4 pttl pnow H3 Hnow5)
    as [_ Hlong5].
  cbv zeta in Hlong5. cbn [Conversation.interaction_count] in Hlong5, H4.
  rewrite H4, Hlen in Hlong5.
  change (MemoryManager.short_to_long_threshold <=? _) with true in Hlong5.
  cbv iota in Hlong5.
  unfold MemoryManager.get_long_term.
  rewrite !Hlong5, !consolidate_long by done.
  cbn [Conversation.lead_id LongTermMemory.store snd LongTermMemory.store_log
       LongTermMemory.memory_store LongTermMemory.get].
  change (1 + Z.of_nat 3 + 1) with 5.
  unfold MemoryManager.get_long_term. rewrite H2, Hlong.
  split; [done|]. apply lookup_insert_eq.
Qed.

(** C8 (as amended).  [store_short_term] called without [ttl] (omitted,
    [None] or [0]) stores the record with a ttl of 3600 seconds:
    [get_short_term] up to and including 3600 seconds later returns the
    record just stored, and later than that returns absent.  The store's
    own [store(key, data)], without [ttl], sets no expiry at all: the slot
    is served at every later instant. *)
Theorem store_short_term_default_ttl (self : state) conv lead ctx ttl now :
  ShortTermMemory.ttl_set ttl = None ->
  let self1 := snd (store_short_term self conv lead ctx ttl now) in
  (forall t, t <= now + seconds 3600 ->
     exists n, fst (get_short_term self1 conv t)
               = Some (Conversation.Make conv lead ctx now n)) /\
  (forall t, now + seconds 3600 < t -> fst (get_short_term self1 conv t) = None) /\
  (forall (st : gmap string (ShortTermMemory.entry S)) key d t0 t,
     fst (ShortTermMemory.get json_loads
            (snd (ShortTermMemory.store json_dumps st key d None t0)) key t)
     = Some d).
Proof.
  intros Httl self1. subst self1.
  destruct (store_short_term_frame self conv lead ctx ttl now)
    as (_ & Hshort & _).
  cbv zeta in Hshort. rewrite (ttl_or_default_3600 _ Httl) in Hshort.
  set (n := match fst _ with Some e => _ | None => 1 end) in Hshort.
  split; [|split].
  - intros t Ht. exists n. unfold MemoryManager.get_short_term. cbn [fst].
    unfold ShortTermMemory.get. rewrite Hshort, lookup_insert_eq.
    unfold ShortTermMemory.expired. cbn [ShortTermMemory.expires_at].
    destruct (_ <? t) eqn:E; [lia|]. cbn [fst ShortTermMemory.data].
    by rewrite json_roundtrip.
  - intros t Ht. unfold MemoryManager.get_short_term. cbn [fst].
    unfold ShortTermMemory.get. rewrite Hshort, lookup_insert_eq.
    unfold ShortTermMemory.expired. cbn [ShortTermMemory.expires_at].
    destruct (_ <? t) eqn:E; [done|lia].
  - intros st key d t0 t. rewrite get_after_store_no_ttl by done. simpl.
    by rewrite json_roundtrip.
Qed.

End CoordinatorFacts.

(** The coordinator at work on a concrete codec: records are stored as
    they are and every value prints as the empty text. *)

(** C1 (as stated) fails for the empty lead_id: [_consolidate_to_long_term]
    returns before any write, so five calls leave the long-term tier
    without a single write. *)
Lemma five_stores_one_write_fails :
  (let calls := [([], None, 0); ([], None, 1); ([], None, 2); ([], None, 3);
                 ([], None, 4)] in
   let self := MemoryManager.initial None in
   let self' :=
     MemoryManager.store_short_term_all (fun d => d) (fun s => s)
       (fun _ => ""%string) self "c" "" calls in
   fst (MemoryManager.get_short_term (fun s => s) self "c" 0) = None /\
   MemoryManager.spaced calls /\
   LongTermMemory.store_log (MemoryManager.long_term self') = []) /\
  ~ MemoryManager.five_stores_one_write (fun d => d) (fun s => s)
      (fun _ => ""%string).
Proof.
  split.
  - cbv zeta. split; [reflexivity|]. split; [|reflexivity].
    vm_compute. repeat split; discriminate.
  - intros H.
    destruct (H (MemoryManager.initial None) "c"%string ""%string [] None 0
                [([], None, 1); ([], None, 2); ([], None, 3); ([], None, 4)]
                eq_refl eq_refl) as [p Hp].
    + vm_compute. repeat split; discriminate.
    + vm_compute in Hp. discriminate.
Qed.

Lemma five_stores_consolidate_once_witness :
  let ctx := [("preferred_channel"%string, VStr "email")] in
  let self := MemoryManager.initial None in
  let self' :=
    MemoryManager.store_short_term_all (fun d => d) (fun s => s)
      (fun _ => ""%string) self "c" "L"
      [(ctx, None, 0); (ctx, None, 1); (ctx, None, 2); (ctx, None, 3);
       (ctx, None, 4)] in
  LongTermMemory.store_log (MemoryManager.long_term self') =
  [("L"%string,
    MemoryManager.consolidated_profile (fun _ => ""%string) None "c"
      (Conversation.Make "c" "L" ctx 4 5) 4)].
Proof.
  cbv zeta.
  refine (proj1 (five_stores_consolidate_once (fun d => d) (fun s => s)
                   (fun _ => ""%string) (fun d => eq_refl)
                   (MemoryManager.initial None) "c"%string "L"%string
                   [("preferred_channel"%string, VStr "email")] None 0
                   [(_, None, 1); (_, None, 2); (_, None, 3)]
                   [("preferred_channel"%string, VStr "email")] None 4
                   _ eq_refl eq_refl _ _)).
  - discriminate.
  - vm_compute. repeat split; discriminate.
  - repeat constructor; vm_compute; discriminate.
Defined.

(** C10 (as stated) fails when the conversation has a slot that has
    expired: the read inside [update_short_term] removes it, so the
    short-term tier is not what it was. *)
Lemma failed_update_changes_nothing_fails :
  (let self :=
     snd (MemoryManager.store_short_term (fun d => d) (fun s => s)
            (fun _ => ""%string) (MemoryManager.initial None) "c" "L" []
            (Some 1) 0) in
   let r := MemoryManager.update_short_term (fun d => d) (fun s => s)
              self "c" [] 5000000 in
   fst (MemoryManager.get_short_term (fun s => s) self "c" 5000000) = None /\
   fst r = false /\
   is_Some (MemoryManager.short_term self !! "c"%string) /\
   MemoryManager.short_term (snd r) !! "c"%string = None) /\
  ~ MemoryManager.failed_update_changes_nothing (fun d => d) (fun s => s).
Proof.
  split.
  - cbv zeta. repeat split; try reflexivity. vm_compute. eauto.
  - intros H.
    specialize (H (snd (MemoryManager.store_short_term (fun d => d) (fun s => s)
                          (fun _ => ""%string) (MemoryManager.initial None)
                          "c" "L" [] (Some 1) 0))
                  "c"%string [] 5000000 eq_refl).
    apply (f_equal (fun r => MemoryManager.short_term (snd r) !! "c"%string)) in H.
    vm_compute in H. discriminate.
Qed.

Lemma update_short_term_absent_witness :
  fst (MemoryManager.update_short_term (fun d => d) (fun s => s)
         (MemoryManager.initial None) "c" [] 0) = false.
Proof.
  exact (proj1 (update_short_term_absent (fun d => d) (fun s => s)
                  (MemoryManager.initial None) "c"%string [] 0 eq_refl)).
Defined.

(** C8 (as stated) fails on the store itself: [store(key, data)] without
    [ttl] sets no expiry, so the slot is still served 3601 seconds
    later. *)
Lemma store_default_ttl_3600_fails :
  (0 + seconds 3600 < seconds 3601 /\
   fst (ShortTermMemory.get (fun s : string => s)
          (snd (ShortTermMemory.store (fun d : string => d) ∅ "k"
                  "v"%string None 0)) "k" (seconds 3601)) = Some "v"%string) /\
  ~ ShortTermMemory.store_default_ttl_3600
      (fun d : string => d) (fun s : string => s).
Proof.
  split; [split; [unfold seconds; lia | reflexivity]|].
  intros H.
  destruct (H ∅ "k"%string "v"%string 0 (seconds 3601)) as [_ H2].
  specialize (H2 ltac:(unfold seconds; lia)).
  vm_compute in H2. discriminate.
Qed.

Lemma store_short_term_default_ttl_witness :
  fst (MemoryManager.get_short_term (fun s => s)
         (snd (MemoryManager.store_short_term (fun d => d) (fun s => s)
                 (fun _ => ""%string) (MemoryManager.initial None) "c" "L" []
                 None 0))
         "c" (seconds 3601)) = None.
Proof.
  refine (proj1 (proj2 (store_short_term_default_ttl (fun d => d) (fun s => s)
                          (fun _ => ""%string) (fun d => eq_refl)
                          (MemoryManager.initial None) "c"%string "L"%string []
                          None 0 eq_refl)) (seconds 3601) _).
  unfold seconds. lia.
Defined.

(** ** Sorting and slicing *)

Section SortFacts.
Context {A K : Type}.
Variable leb : K -> K -> bool.
Variable key : A -> K.

Local Abbreviation desc := (descending leb key).

Lemma insert_desc_perm x l : Permutation (insert_desc leb key x l) (x :: l).
Proof.
  induction l as [|y l IH]; simpl; [done|].
  destruct (leb (key y) (key x)); [done|].
  rewrite IH. apply perm_swap.
Qed.

Lemma sort_desc_perm l : Permutation (sort_desc leb key l) l.
Proof.
  induction l as [|x l IH]; simpl; [done|].
  rewrite insert_desc_perm. by constructor.
Qed.

Lemma sort_desc_In x l : In x (sort_desc leb key l) <-> In x l.
Proof.
  split; apply Permutation_in; [|symmetry]; apply sort_desc_perm.
Qed.

Lemma slice_to_In (x : A) l limit : In x (slice_to l limit) -> In x l.
Proof.
  assert (Hfirst : forall n, In x (firstn n l) -> In x l).
  { intros n H. rewrite <- (firstn_skipn n l). apply in_or_app. by left. }
  unfold slice_to. destruct (0 <=? limit); apply Hfirst.
Qed.

Lemma slice_to_split (l : list A) limit :
  0 <= limit ->
  slice_to l limit ++ skipn (Z.to_nat limit) l = l /\
  length (slice_to l limit) = Nat.min (Z.to_nat limit) (length l).
Proof.
  intros H. unfold slice_to. destruct (0 <=? limit) eqn:E; [|lia].
  split; [apply firstn_skipn|apply length_firstn].
Qed.

Hypothesis leb_total : forall a b, leb a b = true \/ leb b a = true.

Lemma insert_desc_sorted x l :
  Sorted desc l -> Sorted desc (insert_desc leb key x l).
Proof.
  induction 1 as [|y l Hs IH Hhd]; simpl; [repeat constructor|].
  destruct (leb (key y) (key x)) eqn:E.
  - constructor; [by constructor|]. by constructor.
  - constructor; [exact IH|].
    assert (Hyx : desc y x).
    { unfold descending. destruct (leb_total (key y) (key x)); congruence. }
    destruct Hhd as [|z l Hz]; simpl; [by constructor|].
    destruct (leb (key z) (key x)); by constructor.
Qed.

Lemma sort_desc_sorted l : Sorted desc (sort_desc leb key l).
Proof.
  induction l as [|x l IH]; simpl; [constructor|].
  by apply insert_desc_sorted.
Qed.

Hypothesis leb_trans :
  forall a b c, leb a b = true -> leb b c = true -> leb a c = true.

Lemma sorted_app_order (l1 l2 : list A) :
  Sorted desc (l1 ++ l2) ->
  forall x y, In x l1 -> In y l2 -> desc x y.
Proof.
  intros Hs. apply Sorted_StronglySorted in Hs.
  - induction l1 as [|a l1 IH]; intros x y Hx Hy; [destruct Hx|].
    simpl in Hs. apply StronglySorted_inv in Hs as [Hs Hall].
    destruct Hx as [<-|Hx]; [|by apply IH].
    rewrite List.Forall_forall in Hall. apply Hall, in_or_app. by right.
  - intros a b c Hab Hbc. unfold descending in *. by eapply leb_trans.
Qed.

End SortFacts.

Lemma string_leb_trans a b c :
  String.leb a b = true -> String.leb b c = true -> String.leb a c = true.
Proof.
  assert (Hle : forall x y, String.leb x y = true <->
                            x = y \/ OrderedTypeEx.String_as_OT.lt x y).
  { intros x y. unfold String.leb.
    destruct (String.compare x y) eqn:E.
    - apply OrderedTypeEx.String_as_OT.cmp_eq in E. tauto.
    - apply OrderedTypeEx.String_as_OT.cmp_lt in E. tauto.
    - split; [discriminate|]. intros [->|Hlt].
      + assert (String.compare y y = Eq)
          by (by apply OrderedTypeEx.String_as_OT.cmp_eq).
        congruence.
      + apply OrderedTypeEx.String_as_OT.cmp_lt in Hlt.
        unfold OrderedTypeEx.String_as_OT.cmp in Hlt. congruence. }
  rewrite !Hle. intros [->|H1] [->|H2]; auto.
  right. eapply OrderedTypeEx.String_as_OT.lt_trans; eauto.
Qed.

(** ** Episodic store: embeddings, search and recent successes *)

Section EpisodicFacts.
Variable md5 : string -> Z.
Variable py_str : Value -> string.
Variable sqrt : Q -> Q.

Local Abbreviation _create_embedding := (EpisodicMemory._create_embedding md5).
Local Abbreviation _episode_to_text := (EpisodicMemory._episode_to_text py_str).
Local Abbreviation store := (EpisodicMemory.store md5 py_str).
Local Abbreviation search_similar := (EpisodicMemory.search_similar md5 sqrt).

Lemma mock_embedding_length text :
  length (EpisodicMemory.mock_embedding md5 text) = 384%nat.
Proof. unfold EpisodicMemory.mock_embedding. by rewrite length_map, length_seq. Qed.

Lemma store_memory_store (self : EpisodicMemory.t) episode_id episode :
  EpisodicMemory.memory_store (snd (store self episode_id episode)) =
  EpisodicMemory.memory_store self
    ++ [EpisodicMemory.Stored episode_id
          (_create_embedding self (_episode_to_text episode))
          (_episode_to_text episode) episode].
Proof. reflexivity. Qed.

(** C5.  With no embedding model loaded, the embedding of a text is the
    pseudo-embedding computed from the hash of the text alone: it has 384
    components and is the same in any two states of the store, so two
    calls on one text give one vector; and two episodes with the same text
    are stored with the same embedding, whatever was stored before. *)
Theorem pseudo_embedding_deterministic (self1 self2 : EpisodicMemory.t) text :
  EpisodicMemory.embedding_model self1 = None ->
  EpisodicMemory.embedding_model self2 = None ->
  _create_embedding self1 text = _create_embedding self2 text /\
  _create_embedding self1 text = EpisodicMemory.mock_embedding md5 text /\
  length (_create_embedding self1 text) = 384%nat /\
  (forall id1 id2 e1 e2,
     _episode_to_text e1 = _episode_to_text e2 ->
     EpisodicMemory.embedding
       <$> last (EpisodicMemory.memory_store (snd (store self1 id1 e1)))
     = EpisodicMemory.embedding
       <$> last (EpisodicMemory.memory_store (snd (store self2 id2 e2)))) /\
  (forall id e,
     EpisodicMemory.embedding_model (snd (store self1 id e)) = None).
Proof.
  intros H1 H2. unfold EpisodicMemory._create_embedding. rewrite H1, H2.
  split; [done|]. split; [done|]. split; [apply mock_embedding_length|].
  split; [|done].
  intros id1 id2 e1 e2 Htext. rewrite !store_memory_store, !last_snoc.
  simpl. unfold EpisodicMemory._create_embedding. by rewrite H1, H2, Htext.
Qed.

(** Whatever a search returns is the metadata of a stored episode. *)
Lemma search_similar_stored (self : EpisodicMemory.t) q f limit r :
  In r (search_similar self q f limit) ->
  exists s, In s (EpisodicMemory.memory_store self) /\
            EpisodicMemory.episode r = EpisodicMemory.metadata s.
Proof.
  unfold EpisodicMemory.search_similar. intros H.
  apply slice_to_In in H. apply sort_desc_In in H.
  apply list_elem_of_In in H. apply list_elem_of_omap in H as (s & Hs & Hr).
  exists s. split; [by apply list_elem_of_In|].
  destruct (_ && _); [discriminate|]. by injection Hr as <-.
Qed.

(** C9 (as amended).  For a limit that is not negative,
    [get_recent_successes(limit)] returns stored episodes whose
    [outcome_score] (0 when missing) is at least 0.7, the bound the store
    hard-codes; in descending order of [timestamp] (the empty text when
    missing); as many as [limit] allows, and those are the ones with the
    greatest timestamps: together with the episodes left out they make up
    all stored episodes with a score of at least 0.7, and none left out
    has a greater timestamp than one returned. *)
Theorem recent_successes_spec (self : EpisodicMemory.t) limit :
  0 <= limit ->
  let res := EpisodicMemory.get_recent_successes self limit in
  let qualifying :=
    List.filter (fun m => Qle_bool (7 # 10) (EpisodicMemory.score m))
      (map EpisodicMemory.metadata (EpisodicMemory.memory_store self)) in
  (forall e, In e res ->
     In e (map EpisodicMemory.metadata (EpisodicMemory.memory_store self)) /\
     (7 # 10 <= EpisodicMemory.score e)%Q) /\
  Sorted (descending String.leb EpisodicMemory.timestamp_key) res /\
  length res = Nat.min (Z.to_nat limit) (length qualifying) /\
  exists rest,
    Permutation (res ++ rest) qualifying /\
    forall x y, In x res -> In y rest ->
      String.leb (EpisodicMemory.timestamp_key y)
                 (EpisodicMemory.timestamp_key x) = true.
Proof.
  intros Hlimit res qualifying.
  set (sorted := sort_desc String.leb EpisodicMemory.timestamp_key qualifying).
  assert (Hres : res = slice_to sorted limit) by reflexivity.
  destruct (slice_to_split sorted limit Hlimit) as [Hsplit Hlen].
  assert (Hsorted : Sorted (descending String.leb EpisodicMemory.timestamp_key)
                      (res ++ skipn (Z.to_nat limit) sorted)).
  { rewrite Hres, Hsplit. apply sort_desc_sorted.
    intros a b. apply String.leb_total. }
  repeat split.
  - apply slice_to_In in H. apply sort_desc_In in H.
    apply filter_In in H. tauto.
  - apply slice_to_In in H. apply sort_desc_In in H.
    apply filter_In in H. apply Qle_bool_iff. tauto.
  - clear -Hsorted. induction res as [|x res IH]; [constructor|].
    simpl in Hsorted. apply Sorted_inv in Hsorted as [Hs Hhd].
    constructor; [by apply IH|].
    destruct res; [constructor|]. inversion Hhd. by constructor.
  - rewrite Hres, Hlen. unfold sorted.
    by rewrite (Permutation_length (sort_desc_perm _ _ qualifying)).
  - exists (skipn (Z.to_nat limit) sorted). split.
    + rewrite Hres, Hsplit. apply sort_desc_perm.
    + intros x y Hx Hy.
      apply (sorted_app_order String.leb EpisodicMemory.timestamp_key
               string_leb_trans _ _ Hsorted x y Hx Hy).
Qed.

End EpisodicFacts.

(** C9 (as stated) fails on the bound: the store compares scores with 0.7,
    not with the coordinator's 0.8, so an episode stored with a score of
    0.75 is returned. *)
Lemma recent_successes_reach_threshold_fails :
  (let e := EpisodicMemory.MkEpisode (Some "demo"%string) None None
              (Some (75 # 100)) None (Some "2024-01-01T00:00:00"%string)
              None None in
   let self :=
     snd (EpisodicMemory.store (fun _ => 0) (fun _ => ""%string)
            (EpisodicMemory.initial None) "e1" e) in
   EpisodicMemory.get_recent_successes self 10 = [e] /\
   (EpisodicMemory.score e < 8 # 10)%Q) /\
  ~ EpisodicMemory.recent_successes_reach_threshold.
Proof.
  split; [cbv zeta; split; reflexivity|].
  intros H.
  specialize (H (snd (EpisodicMemory.store (fun _ => 0) (fun _ => ""%string)
                        (EpisodicMemory.initial None) "e1"
                        (EpisodicMemory.MkEpisode (Some "demo"%string) None None
                           (Some (75 # 100)) None
                           (Some "2024-01-01T00:00:00"%string) None None)))
                10 _ (or_introl eq_refl)).
  vm_compute in H. by apply H.
Qed.

Lemma recent_successes_spec_witness :
  let e := EpisodicMemory.MkEpisode (Some "demo"%string) None None
             (Some (9 # 10)) None (Some "2024-01-01T00:00:00"%string)
             None None in
  let self :=
    snd (EpisodicMemory.store (fun _ => 0) (fun _ => ""%string)
           (EpisodicMemory.initial None) "e1" e) in
  length (EpisodicMemory.get_recent_successes self 1) = 1%nat.
Proof.
  cbv zeta.
  exact (proj1 (proj2 (proj2
           (recent_successes_spec
              (snd (EpisodicMemory.store (fun _ => 0) (fun _ => ""%string)
                      (EpisodicMemory.initial None) "e1"
                      (EpisodicMemory.MkEpisode (Some "demo"%string) None None
                         (Some (9 # 10)) None
                         (Some "2024-01-01T00:00:00"%string) None None)))
              1 ltac:(lia))))).
Defined.

Lemma pseudo_embedding_deterministic_witness :
  EpisodicMemory._create_embedding (fun _ => 0)
    (EpisodicMemory.initial None) "text"
  = EpisodicMemory._create_embedding (fun _ => 0)
      (snd (EpisodicMemory.store (fun _ => 0) (fun _ => ""%string)
              (EpisodicMemory.initial None) "e1"
              (EpisodicMemory.MkEpisode None None None None None None None None)))
      "text".
Proof.
  exact (proj1 (pseudo_embedding_deterministic (fun _ => 0) (fun _ => ""%string)
                  (EpisodicMemory.initial None)
                  (snd (EpisodicMemory.store (fun _ => 0) (fun _ => ""%string)
                          (EpisodicMemory.initial None) "e1"
                          (EpisodicMemory.MkEpisode None None None None None
                             None None None)))
                  "text"%string eq_refl eq_refl)).
Defined.

(** ** The coordinator: the success threshold of the episodic tier *)

Section ThresholdFacts.
Context {S : Type}.
Variable json_dumps : Conversation.t -> S.
Variable json_loads : S -> Conversation.t.
Variable json_dumps_value : Value -> string.
Variable md5 : string -> Z.
Variable py_str : Value -> string.
Variable sqrt : Q -> Q.

Local Abbreviation state := (@MemoryManager.t S).
Local Abbreviation store_episodic_memory :=
  (MemoryManager.store_episodic_memory (S:=S) md5 py_str).
Local Abbreviation search_episodic_memory :=
  (MemoryManager.search_episodic_memory (S:=S) json_dumps_value md5 py_str sqrt).
Local Abbreviation handle :=
  (MemoryManager.handle json_dumps json_loads md5 py_str).
Local Abbreviation run := (MemoryManager.run json_dumps json_loads md5 py_str).

Lemma store_episodic_memory_rejects (self : state) e uuid now :
  (EpisodicMemory.score e < MemoryManager.episodic_success_threshold)%Q ->
  store_episodic_memory self e uuid now = (false, self).
Proof.
  intros H. unfold MemoryManager.store_episodic_memory.
  fold (EpisodicMemory.score e).
  destruct (Qle_bool _ _) eqn:E; [|done].
  apply Qle_bool_iff in E. by apply Qlt_not_le in H.
Qed.

Lemma store_episodic_memory_successful (self : state) e uuid now :
  MemoryManager.all_successful self ->
  MemoryManager.all_successful (snd (store_episodic_memory self e uuid now)).
Proof.
  intros H. unfold MemoryManager.store_episodic_memory.
  fold (EpisodicMemory.score e).
  destruct (Qle_bool _ _) eqn:E; [|done].
  unfold MemoryManager.all_successful. simpl.
  apply Forall_app. split; [exact H|].
  constructor; [|constructor]. simpl. by apply Qle_bool_iff.
Qed.

Lemma handle_successful (self : state) r now :
  MemoryManager.all_successful self ->
  MemoryManager.all_successful (handle self r now).
Proof.
  intros H. destruct r as [c l ctx ttl|c|c u|l p h|e u|s p o w src];
    unfold MemoryManager.handle.
  - unfold MemoryManager.all_successful.
    destruct (store_short_term_frame json_dumps json_loads py_str
                self c l ctx ttl now) as (_ & _ & -> & _). exact H.
  - exact H.
  - unfold MemoryManager.update_short_term.
    destruct (fst _); exact H.
  - exact H.
  - by apply store_episodic_memory_successful.
  - exact H.
Qed.

Lemma run_successful rs : forall self : state,
  MemoryManager.all_successful self ->
  MemoryManager.all_successful (run self rs).
Proof.
  induction rs as [|[r now] rs IH]; intros self H; [exact H|].
  apply IH. by apply handle_successful.
Qed.

End ThresholdFacts.

(** ** The RFM score *)

Ltac q_order :=
  unfold Qle_bool, Qcompare in *; cbn [Qnum Qden] in *;
  repeat match goal with
         | H : (_ <=? _) = true |- _ => apply Z.leb_le in H
         | H : (_ <=? _) = false |- _ => apply Z.leb_gt in H
         | H : (?a ?= ?b) = Eq |- _ =>
             assert (a = b) by (by apply Z.compare_eq_iff); clear H
         | H : (?a ?= ?b) = Lt |- _ =>
             assert (a < b) by (by apply Z.compare_lt_iff); clear H
         | H : (?a ?= ?b) = Gt |- _ =>
             assert (b < a) by (by apply Z.compare_gt_iff); clear H
         end;
  lia.

Lemma max0_Qmax x : max0 x = Qmax 0 x.
Proof.
  unfold max0, Qmax, GenericMinMax.gmax.
  destruct (Qle_bool x 0) eqn:E; destruct (0 ?= x)%Q eqn:C;
    try reflexivity; exfalso; q_order.
Qed.

Lemma min1_Qmin x : min1 x = Qmin 1 x.
Proof.
  unfold min1, Qmin, GenericMinMax.gmin.
  destruct (Qle_bool 1 x) eqn:E; destruct (1 ?= x)%Q eqn:C;
    try reflexivity; exfalso; q_order.
Qed.

(** The element [max] picks carries the latest timestamp there is. *)
Lemma max_by_timestamp l : forall x,
  Interaction.timestamp
    (max_by Interaction.timestamp MemoryManager.timestamp_ltb x l) =
  match omap Interaction.timestamp (x :: l) with
  | [] => None
  | t :: ts => Some (fold_left Z.max ts t)
  end.
Proof.
  induction l as [|y l IH]; intros x; simpl.
  - by destruct (Interaction.timestamp x).
  - rewrite IH. simpl. unfold MemoryManager.timestamp_ltb.
    destruct (Interaction.timestamp x) as [a|] eqn:Hx,
             (Interaction.timestamp y) as [b|] eqn:Hy.
    + destruct (a <? b) eqn:E; rewrite ?Hx, ?Hy; simpl;
        do 2 f_equal; lia.
    + by rewrite Hx.
    + by rewrite Hy.
    + by rewrite Hx.
Qed.

Lemma last_timestamp_latest x l now :
  default now
    (Interaction.timestamp
       (max_by Interaction.timestamp MemoryManager.timestamp_ltb x l)) =
  MemoryManager.latest_timestamp (x :: l) now.
Proof.
  rewrite max_by_timestamp. unfold MemoryManager.latest_timestamp.
  by destruct (omap Interaction.timestamp (x :: l)).
Qed.

(** C4 (as amended).  The score of a history that is not empty is
    [round((recency + frequency + monetary) / 3, 3)], with
    [recency = max(0, 1 - days_since_last_interaction / 30)],
    [frequency = min(1, interaction_count / 10)] and [monetary = 0.5];
    the score of the empty history is [0.0]; and a history of one
    interaction dated within the day before [now] has recency 1,
    frequency 0.1, monetary 0.5 and the score 0.533. *)
Theorem rfm_score_formula (lead_id : string)
    (interaction_history : list Interaction.t) (now : Z) :
  (interaction_history <> [] ->
   MemoryManager._calculate_rfm_score lead_id interaction_history now =
   round3
     ((MemoryManager.recency
         (MemoryManager.days_since_last_interaction interaction_history now)
       + MemoryManager.frequency (length interaction_history)
       + MemoryManager.monetary) / 3)%Q) /\
  MemoryManager._calculate_rfm_score lead_id [] now = 0%Q /\
  (forall i,
     interaction_history = [i] ->
     (forall t, Interaction.timestamp i = Some t ->
                0 <= now - t < microseconds_per_day) ->
     (MemoryManager.recency
        (MemoryManager.days_since_last_interaction interaction_history now)
      == 1)%Q /\
     (MemoryManager.frequency (length interaction_history) == 1 # 10)%Q /\
     (MemoryManager.monetary == 5 # 10)%Q /\
     MemoryManager._calculate_rfm_score lead_id interaction_history now
     = (533 # 1000)%Q).
Proof.
  assert (Hformula : forall h, h <> [] ->
    MemoryManager._calculate_rfm_score lead_id h now =
    round3
      ((MemoryManager.recency (MemoryManager.days_since_last_interaction h now)
        + MemoryManager.frequency (length h) + MemoryManager.monetary) / 3)%Q).
  { intros [|x l] Hne; [done|].
    unfold MemoryManager._calculate_rfm_score, MemoryManager.recency,
      MemoryManager.frequency, MemoryManager.monetary,
      MemoryManager.days_since_last_interaction, MemoryManager.days_between.
    cbv zeta. by rewrite last_timestamp_latest, max0_Qmax, min1_Qmin. }
  split; [apply Hformula|]. split; [reflexivity|].
  intros i -> Htoday.
  assert (Hdays : MemoryManager.days_since_last_interaction [i] now = 0).
  { unfold MemoryManager.days_since_last_interaction,
      MemoryManager.latest_timestamp. simpl.
    destruct (Interaction.timestamp i) as [t|] eqn:Ht; simpl.
    - apply Z.div_small. by apply Htoday.
    - rewrite Z.sub_diag. reflexivity. }
  rewrite Hformula by done. rewrite Hdays.
  repeat split; reflexivity.
Qed.

(** The two examples of the specification, on concrete data. *)
Example rfm_score_examples :
  MemoryManager._calculate_rfm_score "L" [] 0 = 0%Q /\
  MemoryManager._calculate_rfm_score "L"
    [Interaction.Make "c" 5 "General interaction" (Some (seconds 100))]
    (seconds 4000) = (533 # 1000)%Q.
Proof. split; reflexivity. Qed.

(** ** Semantic store: triples and traversal *)

(** [initialize()] leaves a graph without nodes: the guard of
    [_initialize_default_knowledge] reads the new, empty graph as false
    and returns before it adds any concept. *)
Lemma initialize_empty :
  SemanticMemory.initialize = SemanticMemory.Make (Some DiGraph.empty) /\
  SemanticMemory.graph_in_use SemanticMemory.initialize = None.
Proof. split; reflexivity. Qed.

(** C6 (the code at the failing input).  On the store [initialize()]
    leaves, [store_triple] reports success and stores nothing: after
    [(A, rel, B, w1)] and then [(A, rel, B, w2)] the store is as it was,
    no query returns a row, and the graph has no edge. *)
Theorem store_triple_after_initialize (a rel b : string) (w1 w2 : Q)
    (now1 now2 : Z) :
  let self := SemanticMemory.initialize in
  let r1 :=
    SemanticMemory.store_triple self
      (SemanticMemory.Triple a rel b (Some w1) None) now1 in
  let r2 :=
    SemanticMemory.store_triple (snd r1)
      (SemanticMemory.Triple a rel b (Some w2) None) now2 in
  fst r1 = true /\ fst r2 = true /\ snd r2 = self /\
  (forall s p o, SemanticMemory.query_triples (snd r2) s p o = []) /\
  SemanticMemory.graph (snd r2) = Some DiGraph.empty /\
  DiGraph.number_of_edges DiGraph.empty = 0%nat.
Proof. repeat split. Qed.

(** Where the graph already has a node, the same two calls do leave one
    edge from [A] to [B], with the weight and source of the second call.
    The key of an edge is the pair of its ends: a second triple with
    another predicate takes the place of the first. *)
Lemma store_triple_upsert_on_seeded_graph (rel1 rel2 src1 src2 : string)
    (w1 w2 : Q) (now1 now2 : Z) :
  let self :=
    SemanticMemory.Make (Some (DiGraph.add_node DiGraph.empty "seed" [])) in
  let r1 :=
    SemanticMemory.store_triple self
      (SemanticMemory.Triple "A" rel1 "B" (Some w1) (Some src1)) now1 in
  let r2 :=
    SemanticMemory.store_triple (snd r1)
      (SemanticMemory.Triple "A" rel2 "B" (Some w2) (Some src2)) now2 in
  SemanticMemory.query_triples (snd r2) None None None =
  [SemanticMemory.Row "A" rel2 "B" w2 src2].
Proof. reflexivity. Qed.

Lemma traverse_cons fuel g concept rt depth visited cur d path q related :
  SemanticMemory.traverse (S fuel) g concept rt depth visited
    ((cur, d, path) :: q) related =
  if bool_decide (cur ∈ visited) || (depth <=? d)
  then SemanticMemory.traverse fuel g concept rt depth visited q related
  else
    let acc :=
      SemanticMemory.visit_neighbors g concept rt depth ({[cur]} ∪ visited)
        cur d path (q, related) in
    SemanticMemory.traverse fuel g concept rt depth ({[cur]} ∪ visited)
      (fst acc) (snd acc).
Proof. reflexivity. Qed.

Lemma traverse_nil fuel g concept rt depth visited related :
  SemanticMemory.traverse fuel g concept rt depth visited [] related
  = Some related.
Proof. by destruct fuel. Qed.

Lemma filtered_out_unmatched rel ty tys :
  ~ In rel (ty :: tys) ->
  SemanticMemory.filtered_out (Some (ty :: tys)) rel = true.
Proof.
  intros Hnot. unfold SemanticMemory.filtered_out.
  destruct (existsb (String.eqb rel) (ty :: tys)) eqn:E; [|done].
  apply existsb_exists in E as (x & Hx & Heq).
  apply String.eqb_eq in Heq. by subst.
Qed.

(** The starting concept is never among the results. *)
Lemma visit_neighbors_not_start g concept rt depth (visited : gset string)
    cur d path nbrs :
  forall acc,
  Forall (fun r => SemanticMemory.concept r <> concept) (snd acc) ->
  Forall (fun r => SemanticMemory.concept r <> concept)
    (snd (fold_left
            (SemanticMemory.visit_neighbor g concept rt depth visited cur d path)
            nbrs acc)).
Proof.
  induction nbrs as [|n nbrs IH]; intros acc H; [exact H|].
  simpl fold_left. apply IH. unfold SemanticMemory.visit_neighbor.
  destruct (bool_decide _); [exact H|].
  destruct (SemanticMemory.filtered_out _ _); [exact H|].
  cbv zeta. cbn [snd].
  destruct (String.eqb_spec n concept) as [|Hne]; [exact H|].
  apply Forall_app. split; [exact H|]. by constructor.
Qed.

Lemma traverse_not_start g concept rt depth fuel :
  forall visited queue related res,
  Forall (fun r => SemanticMemory.concept r <> concept) related ->
  SemanticMemory.traverse fuel g concept rt depth visited queue related
  = Some res ->
  Forall (fun r => SemanticMemory.concept r <> concept) res.
Proof.
  induction fuel as [|fuel IH]; intros visited queue related res H Hres.
  - destruct queue as [|[[cur d] path] q]; simpl in Hres; [|discriminate].
    by injection Hres as <-.
  - destruct queue as [|[[cur d] path] q].
    + rewrite traverse_nil in Hres. by injection Hres as <-.
    + rewrite traverse_cons in Hres.
      destruct (bool_decide _ || _); [by eapply IH|].
      cbv zeta in Hres. eapply IH; [|exact Hres].
      unfold SemanticMemory.visit_neighbors.
      by apply visit_neighbors_not_start.
Qed.

Lemma get_related_concepts_not_start (self : SemanticMemory.t) x rt depth res :
  SemanticMemory.get_related_concepts self x rt depth = Some res ->
  Forall (fun r => SemanticMemory.concept r <> x) res.
Proof.
  unfold SemanticMemory.get_related_concepts.
  destruct (SemanticMemory.graph_in_use self) as [g|];
    [|intros [= <-]; constructor].
  destruct (negb _); [intros [= <-]; constructor|].
  apply traverse_not_start. constructor.
Qed.

(** The loop ends within the rounds [get_related_concepts] allows. *)
Lemma visit_neighbors_queue_length g concept rt depth (visited : gset string)
    cur d path nbrs :
  forall acc,
  (length (fst (fold_left
                  (SemanticMemory.visit_neighbor g concept rt depth visited cur
                     d path)
                  nbrs acc))
   <= length (fst acc) + length nbrs)%nat.
Proof.
  induction nbrs as [|n nbrs IH]; intros acc; simpl fold_left; [simpl; lia|].
  etransitivity; [apply IH|].
  unfold SemanticMemory.visit_neighbor.
  destruct (bool_decide _); [simpl; lia|].
  destruct (SemanticMemory.filtered_out _ _); [simpl; lia|].
  cbv zeta. cbn [fst].
  destruct (_ <? _); rewrite ?length_app; simpl; lia.
Qed.

Lemma pending_mono (l : PyDict.t (PyDict.t DiGraph.edge_data))
    (v1 v2 : gset string) :
  v1 ⊆ v2 ->
  (sum_list (map (fun un => if bool_decide (fst un ∈ v2) then O
                            else length (snd un)) l)
   <= sum_list (map (fun un => if bool_decide (fst un ∈ v1) then O
                               else length (snd un)) l))%nat.
Proof.
  intros Hsub. induction l as [|[u nbrs] l IH]; simpl; [lia|].
  repeat case_bool_decide; try lia. exfalso. set_solver.
Qed.

Lemma pending_visit g cur (visited : gset string) :
  cur ∉ visited ->
  (SemanticMemory.pending g ({[cur]} ∪ visited)
   + length (DiGraph.neighbors g cur)
   <= SemanticMemory.pending g visited)%nat.
Proof.
  intros Hcur. unfold SemanticMemory.pending, DiGraph.neighbors, PyDict.keys.
  rewrite length_map.
  induction (DiGraph._succ g) as [|[u nbrs] l IH]; simpl; [lia|].
  destruct (String.eqb_spec u cur) as [->|Hne]; simpl.
  - pose proof (pending_mono l visited ({[cur]} ∪ visited)
                  ltac:(set_solver)) as Hmono.
    rewrite bool_decide_eq_true_2 by set_solver.
    rewrite bool_decide_eq_false_2 by done. lia.
  - repeat case_bool_decide; try lia; exfalso; set_solver.
Qed.

Lemma pending_empty g :
  SemanticMemory.pending g ∅ = DiGraph.number_of_edges g.
Proof.
  unfold SemanticMemory.pending, DiGraph.number_of_edges, DiGraph.edges.
  induction (DiGraph._succ g) as [|[u nbrs] l IH]; simpl; [done|].
  rewrite length_app, length_map, IH.
  by rewrite bool_decide_eq_false_2 by set_solver.
Qed.

Lemma traverse_terminates g concept rt depth fuel :
  forall visited queue related,
  (length queue + SemanticMemory.pending g visited <= fuel)%nat ->
  exists res,
    SemanticMemory.traverse fuel g concept rt depth visited queue related
    = Some res.
Proof.
  induction fuel as [|fuel IH]; intros visited queue related Hfuel.
  - destruct queue; [|simpl in Hfuel; lia]. by eexists.
  - destruct queue as [|[[cur d] path] q]; [by eexists|].
    rewrite traverse_cons. simpl in Hfuel.
    case_bool_decide as Hin; cbn [orb].
    + apply IH. lia.
    + destruct (depth <=? d); [apply IH; lia|].
      cbv zeta. apply IH.
      pose proof (visit_neighbors_queue_length g concept rt depth
                    ({[cur]} ∪ visited) cur d path (DiGraph.neighbors g cur)
                    (q, related)) as Hq.
      pose proof (pending_visit g cur visited Hin) as Hp.
      unfold SemanticMemory.visit_neighbors. simpl in Hq. lia.
Qed.

(** [get_related_concepts] always returns a list, and never the starting
    concept in it. *)
Lemma get_related_concepts_total (self : SemanticMemory.t) x rt depth :
  exists res,
    SemanticMemory.get_related_concepts self x rt depth = Some res /\
    Forall (fun r => SemanticMemory.concept r <> x) res.
Proof.
  assert (H : exists res,
             SemanticMemory.get_related_concepts self x rt depth = Some res).
  { unfold SemanticMemory.get_related_concepts.
    destruct (SemanticMemory.graph_in_use self) as [g|]; [|by eexists].
    destruct (negb _); [by eexists|].
    apply traverse_terminates. rewrite pending_empty. simpl. lia. }
  destruct H as [res Hres]. exists res. split; [exact Hres|].
  by eapply get_related_concepts_not_start.
Qed.

Section ChainFacts.
Variables a b c rel : string.
Hypothesis Hab : a <> b.
Hypothesis Hbc : b <> c.
Hypothesis Hac : a <> c.

Local Abbreviation edge := (DiGraph.EdgeData (Some rel) None None None None).
Local Abbreviation G :=
  (DiGraph.Graph [(a, []); (b, []); (c, [])]
     [(a, [(b, edge)]); (b, [(c, edge)]); (c, [])]).

Ltac eqbs :=
  repeat first
    [ rewrite String.eqb_refl
    | rewrite (proj2 (String.eqb_neq a b)) by congruence
    | rewrite (proj2 (String.eqb_neq b a)) by congruence
    | rewrite (proj2 (String.eqb_neq b c)) by congruence
    | rewrite (proj2 (String.eqb_neq c b)) by congruence
    | rewrite (proj2 (String.eqb_neq a c)) by congruence
    | rewrite (proj2 (String.eqb_neq c a)) by congruence ].

Ltac step :=
  cbn -[bool_decide SemanticMemory.filtered_out union singleton empty]; eqbs.

Lemma chain_graph :
  SemanticMemory.chain a b c rel = SemanticMemory.Make (Some G).
Proof.
  unfold SemanticMemory.chain, DiGraph.add_edge, DiGraph.has_node,
    DiGraph.add_node, PyDict.contains.
  do 6 step. reflexivity.
Qed.

Lemma visit_a rt visited acc :
  b ∉ visited ->
  SemanticMemory.visit_neighbors G a rt 2 visited a 0 [] acc =
  if SemanticMemory.filtered_out rt rel then acc
  else (fst acc ++ [(b, 1, [rel])],
        snd acc ++ [SemanticMemory.Related b [rel] 1 rel]).
Proof.
  intros Hb.
  unfold SemanticMemory.visit_neighbors, SemanticMemory.visit_neighbor,
    DiGraph.neighbors, PyDict.keys, DiGraph.get_edge_data.
  step. step. rewrite bool_decide_eq_false_2 by done. step.
  destruct (SemanticMemory.filtered_out rt rel); reflexivity.
Qed.

Lemma visit_b rt visited path acc :
  c ∉ visited ->
  SemanticMemory.visit_neighbors G a rt 2 visited b 1 path acc =
  if SemanticMemory.filtered_out rt rel then acc
  else (fst acc, snd acc ++ [SemanticMemory.Related c (path ++ [rel]) 2 rel]).
Proof.
  intros Hc.
  unfold SemanticMemory.visit_neighbors, SemanticMemory.visit_neighbor,
    DiGraph.neighbors, PyDict.keys, DiGraph.get_edge_data.
  step. step. rewrite bool_decide_eq_false_2 by done. step.
  destruct (SemanticMemory.filtered_out rt rel); reflexivity.
Qed.

Lemma related_concepts_chain rt :
  SemanticMemory.get_related_concepts (SemanticMemory.chain a b c rel) a rt 2 =
  Some (if SemanticMemory.filtered_out rt rel then []
        else [SemanticMemory.Related b [rel] 1 rel;
              SemanticMemory.Related c [rel; rel] 2 rel]).
Proof.
  assert (Hb : b ∉ ({[a]} ∪ ∅ : gset string)).
  { intros [?%elem_of_singleton|[]%elem_of_empty]%elem_of_union. congruence. }
  assert (Hc : c ∉ ({[b]} ∪ ({[a]} ∪ ∅) : gset string)).
  { intros [?%elem_of_singleton
           |[?%elem_of_singleton|[]%elem_of_empty]%elem_of_union]%elem_of_union;
      congruence. }
  assert (Ha0 : a ∉ (∅ : gset string)) by apply not_elem_of_empty.
  rewrite chain_graph.
  unfold SemanticMemory.get_related_concepts, SemanticMemory.graph_in_use,
    DiGraph.has_node, PyDict.contains.
  cbn [SemanticMemory.graph DiGraph.truthy DiGraph.number_of_nodes
       DiGraph._node length Nat.eqb negb PyDict.get].
  eqbs. cbn [negb].
  change (DiGraph.number_of_edges _) with 2%nat.
  rewrite traverse_cons, bool_decide_eq_false_2 by exact Ha0.
  change (2 <=? 0) with false. cbn [orb]. cbv zeta.
  rewrite visit_a by exact Hb.
  destruct (SemanticMemory.filtered_out rt rel) eqn:Hf.
  - cbn [fst snd]. by rewrite traverse_nil.
  - cbn [fst snd app]. rewrite traverse_cons, bool_decide_eq_false_2 by exact Hb.
    change (2 <=? 1) with false. cbn [orb]. cbv zeta.
    rewrite visit_b, Hf by exact Hc. cbn [fst snd app].
    by rewrite traverse_nil.
Qed.

(** The traversal on a graph that does hold the two edges (the in-process
    store never holds one, see [related_concepts_after_seeding]).  On the
    graph with exactly the edges
    [a -[rel]-> b] and [b -[rel]-> c], for distinct [a], [b], [c]:
    [get_related_concepts(a, depth=2)] returns [b] at distance 1 with the
    path [[rel]], then [c] at distance 2 with the path [[rel, rel]], and
    nothing else, so not [a]; with a list of relationship types that is
    not empty and does not hold [rel] it returns nothing; with the empty
    list it filters nothing and returns [b] and [c] as without a list.
    On any graph, for any arguments, the traversal ends with a list of
    results and the starting concept is not among them. *)
Theorem related_concepts_on_chain :
  let self := SemanticMemory.chain a b c rel in
  let found := [SemanticMemory.Related b [rel] 1 rel;
                SemanticMemory.Related c [rel; rel] 2 rel] in
  SemanticMemory.get_related_concepts self a None 2 = Some found /\
  (forall ty tys, ~ In rel (ty :: tys) ->
     SemanticMemory.get_related_concepts self a (Some (ty :: tys)) 2 = Some []) /\
  SemanticMemory.get_related_concepts self a (Some []) 2 = Some found /\
  (forall (any : SemanticMemory.t) x rt depth,
     exists res,
       SemanticMemory.get_related_concepts any x rt depth = Some res /\
       Forall (fun r => SemanticMemory.concept r <> x) res).
Proof.
  cbv zeta. split; [|split; [|split]].
  - by rewrite related_concepts_chain.
  - intros ty tys Hnot.
    by rewrite related_concepts_chain, filtered_out_unmatched.
  - by rewrite related_concepts_chain.
  - apply get_related_concepts_total.
Qed.

End ChainFacts.

(** C7 (the code at the failing input).  Seeding the store
    [initialize()] leaves with [a -[rel]-> b] and then [b -[rel]-> c]
    through [store_triple] reports success twice and stores nothing: the
    store is as it was, and [get_related_concepts], from [a] with depth 2
    as from any start with any filter and depth, returns the empty list,
    so neither [b] nor [c]. *)
Theorem related_concepts_after_seeding (a b c rel : string)
    (w1 w2 : option Q) (src1 src2 : option string) (now1 now2 : Z) :
  let self := SemanticMemory.initialize in
  let r1 :=
    SemanticMemory.store_triple self
      (SemanticMemory.Triple a rel b w1 src1) now1 in
  let r2 :=
    SemanticMemory.store_triple (snd r1)
      (SemanticMemory.Triple b rel c w2 src2) now2 in
  fst r1 = true /\ fst r2 = true /\ snd r2 = self /\
  SemanticMemory.get_related_concepts (snd r2) a None 2 = Some [] /\
  (forall x rt depth,
     SemanticMemory.get_related_concepts (snd r2) x rt depth = Some []) /\
  ~ SemanticMemory.returns
      (SemanticMemory.get_related_concepts (snd r2) a None 2) b /\
  ~ SemanticMemory.returns
      (SemanticMemory.get_related_concepts (snd r2) a None 2) c.
Proof.
  cbv zeta.
  assert (Hnone : forall x rt depth,
            SemanticMemory.get_related_concepts
              (snd (SemanticMemory.store_triple
                      (snd (SemanticMemory.store_triple
                              SemanticMemory.initialize
                              (SemanticMemory.Triple a rel b w1 src1) now1))
                      (SemanticMemory.Triple b rel c w2 src2) now2))
              x rt depth = Some []) by reflexivity.
  split; [reflexivity|]. split; [reflexivity|]. split; [reflexivity|].
  split; [apply Hnone|]. split; [exact Hnone|].
  rewrite Hnone.
  split; intros (l & [= <-] & Hin); destruct Hin.
Qed.

Lemma related_concepts_on_chain_witness :
  SemanticMemory.get_related_concepts
    (SemanticMemory.chain "A" "B" "C" "rel") "A" None 2 =
  Some [SemanticMemory.Related "B" ["rel"%string] 1 "rel";
        SemanticMemory.Related "C" ["rel"%string; "rel"%string] 2 "rel"].
Proof.
  refine (proj1 (related_concepts_on_chain "A" "B" "C" "rel" _ _ _));
    discriminate.
Defined.

(** ** Dictionaries *)

Section PyDictFacts.
Context {V : Type}.

Lemma pydict_get_set_eq (d : PyDict.t V) k v :
  PyDict.get (PyDict.set d k v) k = Some v.
Proof.
  induction d as [|[k' v'] d IH]; simpl.
  - by rewrite String.eqb_refl.
  - destruct (String.eqb k' k) eqn:E; simpl; rewrite E; [done|exact IH].
Qed.

Lemma pydict_get_set_ne (d : PyDict.t V) k k' v :
  k <> k' -> PyDict.get (PyDict.set d k v) k' = PyDict.get d k'.
Proof.
  intros Hne. induction d as [|[k0 v0] d IH]; simpl.
  - by rewrite (proj2 (String.eqb_neq k k')).
  - destruct (String.eqb_spec k0 k) as [->|Hk]; simpl.
    + by rewrite (proj2 (String.eqb_neq k k')).
    + by rewrite IH.
Qed.

Lemma pydict_get_set (d : PyDict.t V) k k' v :
  PyDict.get (PyDict.set d k v) k' =
  if String.eqb k k' then Some v else PyDict.get d k'.
Proof.
  destruct (String.eqb_spec k k') as [->|Hne].
  - apply pydict_get_set_eq.
  - by apply pydict_get_set_ne.
Qed.

Lemma pydict_get_None_keys (d : PyDict.t V) k :
  PyDict.get d k = None <-> ~ In k (PyDict.keys d).
Proof.
  induction d as [|[k' v'] d IH]; simpl; [tauto|].
  destruct (String.eqb_spec k' k) as [->|Hne].
  - split; [discriminate|]. intros H. exfalso. apply H. by left.
  - rewrite IH. split; [intros H [?|?]; [done|by apply H]|].
    intros H Hin. apply H. by right.
Qed.

Lemma pydict_keys_set (d : PyDict.t V) k v :
  PyDict.keys (PyDict.set d k v) =
  if PyDict.contains d k then PyDict.keys d else PyDict.keys d ++ [k].
Proof.
  unfold PyDict.contains. induction d as [|[k' v'] d IH]; simpl; [done|].
  destruct (String.eqb_spec k' k) as [->|Hne]; simpl; [done|].
  rewrite IH. by destruct (PyDict.get d k).
Qed.

Lemma pydict_set_NoDup (d : PyDict.t V) k v :
  NoDup (PyDict.keys d) -> NoDup (PyDict.keys (PyDict.set d k v)).
Proof.
  intros Hd. rewrite pydict_keys_set. unfold PyDict.contains.
  destruct (PyDict.get d k) eqn:E; [done|].
  apply pydict_get_None_keys in E.
  apply NoDup_app. split; [done|]. split.
  - intros x Hx Hk. apply list_elem_of_In in Hx.
    apply list_elem_of_singleton in Hk. by subst.
  - apply NoDup_singleton.
Qed.

(** [d.update(other)]: the last value [other] gives a key wins; a key it
    does not hold keeps the value [d] gives it. *)
Lemma pydict_get_update (other : PyDict.t V) : forall (d : PyDict.t V) k,
  PyDict.get (PyDict.update d other) k =
  match PyDict.get (rev other) k with
  | Some v => Some v
  | None => PyDict.get d k
  end.
Proof.
  assert (Happ : forall (l : PyDict.t V) k1 v1 k,
            PyDict.get (l ++ [(k1, v1)]) k =
            match PyDict.get l k with
            | Some v => Some v
            | None => if String.eqb k1 k then Some v1 else None
            end).
  { induction l as [|[k0 v0] l IHl]; intros k1 v1 k; simpl; [done|].
    destruct (String.eqb k0 k); [done|apply IHl]. }
  unfold PyDict.update.
  induction other as [|[k1 v1] other IH]; intros d k; simpl; [done|].
  rewrite IH, Happ, pydict_get_set. simpl.
  destruct (PyDict.get (rev other) k); [done|].
  by destruct (String.eqb k1 k).
Qed.

Lemma pydict_get_rev (d : PyDict.t V) k :
  NoDup (PyDict.keys d) -> PyDict.get (rev d) k = PyDict.get d k.
Proof.
  assert (Happ : forall (l : PyDict.t V) k1 v1,
            PyDict.get (l ++ [(k1, v1)]) k =
            match PyDict.get l k with
            | Some v => Some v
            | None => if String.eqb k1 k then Some v1 else None
            end).
  { induction l as [|[k0 v0] l IHl]; intros k1 v1; simpl; [done|].
    destruct (String.eqb k0 k); [done|apply IHl]. }
  induction d as [|[k1 v1] d IH]; intros Hnd; simpl; [done|].
  simpl in Hnd. apply NoDup_cons in Hnd as [Hk1 Hnd].
  rewrite Happ, IH by done.
  destruct (String.eqb_spec k1 k) as [->|Hne]; [|by destruct (PyDict.get d k)].
  assert (PyDict.get d k = None) as ->; [|done].
  apply pydict_get_None_keys. intros Hin. apply Hk1. by apply list_elem_of_In.
Qed.

End PyDictFacts.

(** ** Short-term store: deletion, sweeping and the two read paths *)

Section ShortTermMore.
Context {D S : Type}.
Variable json_dumps : D -> S.
Variable json_loads : S -> D.

Local Abbreviation get := (ShortTermMemory.get json_loads).
Local Abbreviation entry := (ShortTermMemory.entry S).

Lemma expired_later now t (e : entry) :
  now <= t -> ShortTermMemory.expired now e = true ->
  ShortTermMemory.expired t e = true.
Proof.
  unfold ShortTermMemory.expired. destruct (ShortTermMemory.expires_at e); [|done].
  intros Ht Hx. apply Z.ltb_lt in Hx. apply Z.ltb_lt. lia.
Qed.

(** X1.  [delete(key)] returns [True] exactly when the store holds a slot
    for the key, expired or not: a slot that [get] already reports absent
    still counts.  Afterwards [get(key)] is absent at every instant and
    leaves the store alone, and every other key reads as before. *)
Theorem delete_key_spec (self : gmap string entry) key :
  let r := ShortTermMemory.delete_key self key in
  (fst r = true <-> is_Some (self !! key)) /\
  (forall t, get (snd r) key t = (None, snd r)) /\
  (forall key' t, key' <> key -> fst (get (snd r) key' t) = fst (get self key' t)) /\
  (forall e now, self !! key = Some e -> ShortTermMemory.expired now e = true ->
     fst (get self key now) = None /\ fst r = true).
Proof.
  unfold ShortTermMemory.delete_key. cbv zeta.
  split; [split|split; [|split]].
  - destruct (self !! key); [by eexists|discriminate].
  - intros [e He]. by rewrite He.
  - intros t. apply get_absent. destruct (self !! key) eqn:E; simpl; [|done].
    apply lookup_delete_eq.
  - intros key' t Hne. unfold ShortTermMemory.get.
    destruct (self !! key) eqn:E; simpl; [|done].
    rewrite lookup_delete_ne by done.
    destruct (self !! key') as [e'|]; [|done].
    by destruct (ShortTermMemory.expired t e').
  - intros e now He Hx. unfold ShortTermMemory.get. rewrite He, Hx.
    by split.
Qed.

(** X2.  [cleanup_expired()] keeps exactly the slots that are not expired,
    is idempotent, does not change what [get_all_active] lists, and does
    not change what any [get] returns from then on: sweeping is invisible
    to readers. *)
Theorem cleanup_expired_spec (self : gmap string entry) now :
  let s' := ShortTermMemory.cleanup_expired self now in
  (forall key e, s' !! key = Some e <->
                 self !! key = Some e /\ ShortTermMemory.expired now e = false) /\
  ShortTermMemory.cleanup_expired s' now = s' /\
  ShortTermMemory.get_all_active json_loads s' now
  = ShortTermMemory.get_all_active json_loads self now /\
  (forall key t, now <= t -> fst (get s' key t) = fst (get self key t)).
Proof.
  cbv zeta.
  assert (Hlk : forall key e,
            ShortTermMemory.cleanup_expired self now !! key = Some e <->
            self !! key = Some e /\ ShortTermMemory.expired now e = false).
  { intros key e. rewrite cleanup_expired_lookup.
    destruct (self !! key) as [e'|]; [|by split; [|intros []]].
    destruct (ShortTermMemory.expired now e') eqn:Hx.
    - split; [done|]. intros [[= ->] Hx']. congruence.
    - split; [by intros [= ->]|]. by intros [[= ->] _]. }
  assert (Hidem : ShortTermMemory.cleanup_expired
                    (ShortTermMemory.cleanup_expired self now) now
                  = ShortTermMemory.cleanup_expired self now).
  { apply map_eq. intros key. rewrite (cleanup_expired_lookup _ now key).
    destruct (ShortTermMemory.cleanup_expired self now !! key) as [e|] eqn:E;
      [|done].
    apply Hlk in E as [_ ->]. done. }
  split; [exact Hlk|]. split; [exact Hidem|]. split.
  - unfold ShortTermMemory.get_all_active.
    fold (ShortTermMemory.cleanup_expired self now).
    fold (ShortTermMemory.cleanup_expired
            (ShortTermMemory.cleanup_expired self now) now).
    by rewrite Hidem.
  - intros key t Ht. unfold ShortTermMemory.get.
    rewrite cleanup_expired_lookup.
    destruct (self !! key) as [e|]; [|done].
    destruct (ShortTermMemory.expired now e) eqn:Hx; [|by destruct (ShortTermMemory.expired t e)].
    by rewrite (expired_later now t e Ht Hx).
Qed.

(** X3.  The two read paths agree: [get_all_active()] lists a key with a
    payload exactly when [get(key)] returns that payload at the same
    instant. *)
Theorem get_all_active_get (self : gmap string entry) now key :
  ShortTermMemory.get_all_active json_loads self now !! key
  = fst (get self key now).
Proof.
  unfold ShortTermMemory.get_all_active, ShortTermMemory.get.
  rewrite lookup_fmap.
  destruct (self !! key) as [e|] eqn:He.
  - destruct (ShortTermMemory.expired now e) eqn:Hx; simpl.
    + assert (filter (fun kv => ShortTermMemory.expired now (snd kv) = false) self
              !! key = None) as ->; [|done].
      apply map_lookup_filter_None. right. intros e' He' Hx'.
      simpl in Hx'. congruence.
    + assert (filter (fun kv => ShortTermMemory.expired now (snd kv) = false) self
              !! key = Some e) as ->; [|done].
      by apply map_lookup_filter_Some.
  - assert (filter (fun kv => ShortTermMemory.expired now (snd kv) = false) self
            !! key = None) as ->; [|done].
    apply map_lookup_filter_None. by left.
Qed.

End ShortTermMore.

(** ** The coordinator: updates and repeated consolidation *)

Section CoordinatorMore.
Context {S : Type}.
Variable json_dumps : Conversation.t -> S.
Variable json_loads : S -> Conversation.t.
Variable py_str : Value -> string.

#[local] Arguments MemoryManager.store_short_term : simpl never.
#[local] Arguments MemoryManager.store_short_term_all : simpl never.
#[local] Arguments MemoryManager._consolidate_to_long_term : simpl never.

Local Abbreviation state := (@MemoryManager.t S).
Local Abbreviation store_short_term :=
  (MemoryManager.store_short_term json_dumps json_loads py_str).
Local Abbreviation store_short_term_all :=
  (MemoryManager.store_short_term_all json_dumps json_loads py_str).
Local Abbreviation get_short_term := (MemoryManager.get_short_term json_loads).
Local Abbreviation update_short_term :=
  (MemoryManager.update_short_term json_dumps json_loads).
Local Abbreviation consolidate := (MemoryManager._consolidate_to_long_term py_str).
Local Abbreviation slot c ttl now :=
  (ShortTermMemory.Entry (json_dumps c)
     (Some (now + seconds (MemoryManager.ttl_or_default ttl)))).

Hypothesis json_roundtrip : forall d, json_loads (json_dumps d) = d.

(** X4.  [update_short_term] on a conversation with an active slot returns
    [True], merges the updates into the context, stamps the record with
    the instant of the update and adds one to the interaction count; it
    leaves the long-term, episodic and semantic tiers alone (no
    consolidation, whatever the count); and it stores the record without
    any expiry: [get_short_term] returns it at every later instant. *)
Theorem update_short_term_live (self : state) conv updates now c :
  fst (get_short_term self conv now) = Some c ->
  let r := update_short_term self conv updates now in
  let c' :=
    Conversation.Make (Conversation.conversation_id c) (Conversation.lead_id c)
      (PyDict.update (Conversation.context c) updates) now
      (Conversation.interaction_count c + 1) in
  fst r = true /\
  MemoryManager.long_term (snd r) = MemoryManager.long_term self /\
  MemoryManager.episodic (snd r) = MemoryManager.episodic self /\
  MemoryManager.semantic (snd r) = MemoryManager.semantic self /\
  forall t, fst (get_short_term (snd r) conv t) = Some c'.
Proof.
  intros Hget. unfold MemoryManager.update_short_term.
  rewrite Hget. cbv zeta. cbn [fst snd MemoryManager.long_term
    MemoryManager.episodic MemoryManager.semantic
    MemoryManager.get_short_term ShortTermMemory.store].
  repeat split.
  intros t. cbn [MemoryManager.short_term]. unfold ShortTermMemory.get.
  rewrite lookup_insert_eq. cbn. by rewrite json_roundtrip.
Qed.

(** After the calls of [calls] on a live slot: the count has grown by
    their number and one long-term write was made for each call that
    found the count at or above the threshold. *)
Lemma store_short_term_all_log calls : forall (self : state) conv lead c pttl pnow,
  lead <> "" ->
  MemoryManager.short_term self !! conv = Some (slot c pttl pnow) ->
  MemoryManager.in_time pttl pnow calls ->
  let self' := store_short_term_all self conv lead calls in
  (length (LongTermMemory.store_log (MemoryManager.long_term self'))
   + Z.to_nat (Conversation.interaction_count c - 4)
   = length (LongTermMemory.store_log (MemoryManager.long_term self))
     + Z.to_nat (Conversation.interaction_count c + Z.of_nat (length calls) - 4))%nat
  /\
  exists c' pttl' pnow',
    MemoryManager.short_term self' !! conv = Some (slot c' pttl' pnow') /\
    Conversation.interaction_count c'
    = Conversation.interaction_count c + Z.of_nat (length calls).
Proof.
  induction calls as [|[[ctx ttl] now] calls IH];
    intros self conv lead c pttl pnow Hlead Hs Ht; cbv zeta.
  - rewrite store_short_term_all_nil. simpl. rewrite Z.add_0_r.
    split; [done|]. by exists c, pttl, pnow.
  - simpl in Ht. destruct Ht as [Hnow Ht].
    rewrite store_short_term_all_cons.
    destruct (store_short_term_live json_dumps json_loads py_str json_roundtrip
                self conv lead ctx ttl now c pttl pnow Hs Hnow)
      as [Hshort Hlong].
    cbv zeta in Hshort, Hlong. cbn [Conversation.interaction_count] in Hlong.
    set (self1 := snd (store_short_term self conv lead ctx ttl now)) in *.
    set (c1 := Conversation.Make conv lead ctx now
                 (Conversation.interaction_count c + 1)) in *.
    destruct (IH self1 conv lead c1 ttl now Hlead) as [Hlen (c' & pttl' & pnow' & H1 & H2)].
    + rewrite Hshort. apply lookup_insert_eq.
    + exact Ht.
    + cbv zeta in Hlen. cbn [Conversation.interaction_count c1] in Hlen, H2.
      split.
      * assert (Hstep :
          (length (LongTermMemory.store_log (MemoryManager.long_term self1))
           + Z.to_nat (Conversation.interaction_count c - 4)
           = length (LongTermMemory.store_log (MemoryManager.long_term self))
             + Z.to_nat (Conversation.interaction_count c + 1 - 4))%nat).
        { rewrite Hlong. unfold MemoryManager.short_to_long_threshold.
          destruct (5 <=? Conversation.interaction_count c + 1) eqn:E.
          - rewrite consolidate_long by done. simpl. rewrite length_app. simpl.
            apply Z.leb_le in E. lia.
          - apply Z.leb_gt in E. lia. }
        rewrite length_cons. lia.
      * exists c', pttl', pnow'. split; [exact H1|].
        rewrite H2, length_cons. lia.
Qed.

(** X5.  Consolidation repeats: of a series of [store_short_term] calls
    for one conversation and a lead with a name, each with an expiry that
    is a date, the first finding no active slot and each later one
    arriving before the slot has expired,
    every call from the fifth on writes the long-term profile once more,
    so [n] calls cause [n - 4] writes (none for [n < 5]), and the slot
    then counts [n] interactions. *)
Theorem consolidation_repeats (self : state) conv lead ctx ttl now calls :
  lead <> "" ->
  fst (get_short_term self conv now) = None ->
  MemoryManager.spaced ((ctx, ttl, now) :: calls) ->
  MemoryManager.expiries_exist ((ctx, ttl, now) :: calls) ->
  let self' :=
    store_short_term_all self conv lead ((ctx, ttl, now) :: calls) in
  length (LongTermMemory.store_log (MemoryManager.long_term self'))
  = (length (LongTermMemory.store_log (MemoryManager.long_term self))
     + (length calls - 3))%nat /\
  exists e c,
    MemoryManager.short_term self' !! conv = Some e /\
    ShortTermMemory.data e = json_dumps c /\
    Conversation.interaction_count c = Z.of_nat (length calls) + 1.
Proof.
  intros Hlead Hfresh Hsp _. cbv zeta. simpl in Hsp.
  rewrite store_short_term_all_cons.
  destruct (store_short_term_frame json_dumps json_loads py_str
              self conv lead ctx ttl now)
    as (_ & Hshort & _ & _ & Hlong).
  cbv zeta in Hshort, Hlong.
  unfold MemoryManager.get_short_term in Hfresh. simpl in Hfresh.
  rewrite Hfresh in Hshort, Hlong. cbv beta iota in Hshort, Hlong.
  change (MemoryManager.short_to_long_threshold <=? 1) with false in Hlong.
  cbv iota in Hlong.
  set (self1 := snd (store_short_term self conv lead ctx ttl now)) in *.
  destruct (store_short_term_all_log calls self1 conv lead
              (Conversation.Make conv lead ctx now 1) ttl now Hlead)
    as [Hlen (c' & pttl' & pnow' & H1 & H2)].
  - rewrite Hshort. apply lookup_insert_eq.
  - exact Hsp.
  - cbv zeta in Hlen. cbn [Conversation.interaction_count] in Hlen, H2.
    rewrite Hlong in Hlen. split; [lia|].
    eexists _, c'. split; [exact H1|]. split; [done|]. lia.
Qed.

End CoordinatorMore.

Lemma update_short_term_live_witness :
  let self :=
    snd (MemoryManager.store_short_term (fun d => d) (fun s => s)
           (fun _ => ""%string) (MemoryManager.initial None) "c" "L"
           [("a"%string, VInt 1)] (Some 1) 0) in
  fst (MemoryManager.get_short_term (fun s => s)
         (snd (MemoryManager.update_short_term (fun d => d) (fun s => s)
                 self "c" [("b"%string, VInt 2)] 5))
         "c" (seconds 100000))
  = Some (Conversation.Make "c" "L" [("a"%string, VInt 1); ("b"%string, VInt 2)]
            5 2).
Proof.
  cbv zeta.
  refine (proj2 (proj2 (proj2 (proj2
            (update_short_term_live (fun d => d) (fun s => s) (fun d => eq_refl)
               (snd (MemoryManager.store_short_term (fun d => d) (fun s => s)
                       (fun _ => ""%string) (MemoryManager.initial None) "c" "L"
                       [("a"%string, VInt 1)] (Some 1) 0))
               "c"%string [("b"%string, VInt 2)] 5
               (Conversation.Make "c" "L" [("a"%string, VInt 1)] 0 1)
               eq_refl)))) (seconds 100000)).
Defined.

Lemma consolidation_repeats_witness :
  let calls := [([], None, 1); ([], None, 2); ([], None, 3); ([], None, 4);
                ([], None, 5); ([], None, 6)] in
  length (LongTermMemory.store_log
            (MemoryManager.long_term
               (MemoryManager.store_short_term_all (fun d => d) (fun s => s)
                  (fun _ => ""%string) (MemoryManager.initial None) "c" "L"
                  (([], None, 0) :: calls))))
  = 3%nat.
Proof.
  cbv zeta.
  refine (proj1 (consolidation_repeats (fun d => d) (fun s => s)
                   (fun _ => ""%string) (fun d => eq_refl)
                   (MemoryManager.initial None) "c"%string "L"%string [] None 0
                   [([], None, 1); ([], None, 2); ([], None, 3); ([], None, 4);
                    ([], None, 5); ([], None, 6)] _ eq_refl _ _)).
  - discriminate.
  - vm_compute. repeat split; discriminate.
  - repeat constructor; vm_compute; discriminate.
Defined.

(** ** The coordinator: profiles and preferences *)

Lemma extract_preferences_NoDup ctx :
  NoDup (PyDict.keys (MemoryManager._extract_preferences ctx)).
Proof.
  unfold MemoryManager._extract_preferences. cbv zeta.
  repeat match goal with
         | |- context [PyDict.get ctx ?k] => destruct (PyDict.get ctx k)
         end;
    repeat apply pydict_set_NoDup; apply NoDup_nil_2.
Qed.

(** X6.  [_extract_preferences] reads five keys of the context and no
    other: the result maps `communication_channel` to the value of
    `preferred_channel`, and each of `contact_time`, `interests`,
    `communication_style` and `product_interests` to its own value, for
    the keys the context holds; it holds nothing else. *)
Theorem extract_preferences_spec (ctx : PyDict.t Value) (k : string) (v : Value) :
  PyDict.get (MemoryManager._extract_preferences ctx) k = Some v <->
  (k = "communication_channel"%string
   /\ PyDict.get ctx "preferred_channel" = Some v)
  \/ (In k ["contact_time"; "interests"; "communication_style";
            "product_interests"]%string
      /\ PyDict.get ctx k = Some v).
Proof.
  unfold MemoryManager._extract_preferences. cbv zeta.
  destruct (PyDict.get ctx "preferred_channel") as [v1|] eqn:E1;
  destruct (PyDict.get ctx "contact_time") as [v2|] eqn:E2;
  destruct (PyDict.get ctx "interests") as [v3|] eqn:E3;
  destruct (PyDict.get ctx "communication_style") as [v4|] eqn:E4;
  destruct (PyDict.get ctx "product_interests") as [v5|] eqn:E5;
  rewrite ?pydict_get_set; cbn [PyDict.get In];
  repeat match goal with
         | |- context [String.eqb ?a k] =>
             destruct (String.eqb_spec a k) as [<-|?]
         end;
  rewrite ?E1, ?E2, ?E3, ?E4, ?E5;
  (split;
   [ intros H; try discriminate H;
     first [ left; split; [reflexivity|exact H]
           | right; split; [|exact H]; auto 6 ]
   | intros [[H1 H2]|[H1 H2]];
     try discriminate H1; try discriminate H2; try congruence;
     try (exfalso; intuition congruence) ]).
Qed.

Section ProfileFacts.
Context {S : Type}.
Variable py_str : Value -> string.

Local Abbreviation state := (@MemoryManager.t S).
Local Abbreviation consolidate :=
  (MemoryManager._consolidate_to_long_term (S:=S) py_str).

(** X7.  [store_long_term] replaces the profile of the lead: afterwards
    [get_long_term] returns exactly the preferences and history passed in
    (nothing of an earlier profile is merged), with the score computed
    from that history; the profiles of other leads and the other tiers
    are unchanged. *)
Theorem store_long_term_get (self : state) lead prefs hist now :
  let r := MemoryManager.store_long_term self lead prefs hist now in
  fst r = true /\
  MemoryManager.get_long_term (snd r) lead
  = Some (Profile.Make lead prefs hist now
            (MemoryManager._calculate_rfm_score lead hist now)) /\
  (forall lead', lead' <> lead ->
     MemoryManager.get_long_term (snd r) lead'
     = MemoryManager.get_long_term self lead') /\
  MemoryManager.short_term (snd r) = MemoryManager.short_term self /\
  MemoryManager.episodic (snd r) = MemoryManager.episodic self /\
  MemoryManager.semantic (snd r) = MemoryManager.semantic self.
Proof.
  cbv zeta. unfold MemoryManager.store_long_term, MemoryManager.get_long_term,
    LongTermMemory.get, LongTermMemory.store. simpl.
  repeat split.
  - apply lookup_insert_eq.
  - intros lead' Hne. by apply lookup_insert_ne.
Qed.

(** X8.  A consolidation for a lead with a name returns [True] and leaves
    a profile in which every preference key recognised in the context
    has the value the context gives it, every other key keeps the value
    of the profile the lead had, and the history is the one the lead had
    with exactly one record appended, bearing the conversation, its count
    and the instant of its last update; the other three tiers are
    untouched. *)
Theorem consolidate_merges (self : state) conv d now :
  Conversation.lead_id d <> "" ->
  let lead := Conversation.lead_id d in
  let r := consolidate self conv d now in
  let before := MemoryManager.get_long_term self lead in
  fst r = true /\
  (exists p,
     MemoryManager.get_long_term (snd r) lead = Some p /\
     (forall k,
        PyDict.get (Profile.preferences p) k =
        match PyDict.get (MemoryManager._extract_preferences
                            (Conversation.context d)) k with
        | Some v => Some v
        | None => before ≫= (fun e => PyDict.get (Profile.preferences e) k)
        end) /\
     Profile.interaction_history p =
       from_option Profile.interaction_history [] before
       ++ [Interaction.Make conv (Conversation.interaction_count d)
             (MemoryManager._summarize_context py_str (Conversation.context d))
             (Some (Conversation.last_updated d))]) /\
  MemoryManager.short_term (snd r) = MemoryManager.short_term self /\
  MemoryManager.episodic (snd r) = MemoryManager.episodic self /\
  MemoryManager.semantic (snd r) = MemoryManager.semantic self.
Proof.
  intros Hlead. cbv zeta.
  destruct (consolidate_frame py_str self conv d now) as (Hst & Hep & Hse).
  assert (Hfst : fst (consolidate self conv d now) = true).
  { unfold MemoryManager._consolidate_to_long_term.
    destruct (String.eqb_spec (Conversation.lead_id d) "") as [E|_]; [done|].
    by destruct (MemoryManager.get_long_term self (Conversation.lead_id d)). }
  split; [exact Hfst|].
  pose proof (consolidate_long py_str self conv d now Hlead) as Hlong.
  unfold MemoryManager.get_long_term, LongTermMemory.get in *.
  rewrite Hlong.
  cbn [LongTermMemory.store snd LongTermMemory.memory_store]. split.
  - eexists. split; [apply lookup_insert_eq|].
    unfold MemoryManager.consolidated_profile.
    cbn [Profile.preferences Profile.interaction_history].
    destruct (LongTermMemory.memory_store (MemoryManager.long_term self)
                !! Conversation.lead_id d) as [e|];
      simpl; (split; [|done]); intros k.
    + rewrite pydict_get_update,
        (pydict_get_rev _ _ (extract_preferences_NoDup _)). done.
    + by destruct (PyDict.get _ k).
  - done.
Qed.

Lemma consolidate_frequent_interactions_cons (self : state) conv d active now :
  MemoryManager._consolidate_frequent_interactions py_str self
    ((conv, d) :: active) now =
  MemoryManager._consolidate_frequent_interactions py_str
    (if MemoryManager.short_to_long_threshold
          <=? Conversation.interaction_count d
     then snd (consolidate self conv d now) else self)
    active now.
Proof. reflexivity. Qed.

(** X9.  A maintenance pass over the active conversations changes the
    long-term tier only, and writes it once for every listed conversation
    whose count is at or above the threshold and whose lead has a name,
    again at every pass: nothing records that a conversation was
    consolidated before. *)
Theorem consolidate_frequent_interactions_writes (active : list (string * Conversation.t)) :
  forall (self : state) now,
  let self' :=
    MemoryManager._consolidate_frequent_interactions py_str self active now in
  MemoryManager.short_term self' = MemoryManager.short_term self /\
  MemoryManager.episodic self' = MemoryManager.episodic self /\
  MemoryManager.semantic self' = MemoryManager.semantic self /\
  length (LongTermMemory.store_log (MemoryManager.long_term self'))
  = (length (LongTermMemory.store_log (MemoryManager.long_term self))
     + length (List.filter MemoryManager.due active))%nat /\
  (List.filter MemoryManager.due active = [] -> self' = self).
Proof.
  induction active as [|[conv d] active IH]; intros self now; cbv zeta.
  - simpl. repeat split; lia.
  - rewrite consolidate_frequent_interactions_cons. cbn [List.filter].
    assert (Hdue : MemoryManager.due (conv, d) =
                   (MemoryManager.short_to_long_threshold
                      <=? Conversation.interaction_count d)
                   && negb (String.eqb (Conversation.lead_id d) ""))
      by reflexivity.
    rewrite Hdue. clear Hdue.
    destruct (MemoryManager.short_to_long_threshold
                <=? Conversation.interaction_count d) eqn:E; cbn [andb];
      [|apply IH].
    destruct (consolidate_frame py_str self conv d now) as (H1 & H2 & H3).
    destruct (IH (snd (consolidate self conv d now)) now)
      as (I1 & I2 & I3 & I4 & I5).
    cbv zeta in I1, I2, I3, I4, I5.
    destruct (String.eqb_spec (Conversation.lead_id d) "") as [Hl|Hl];
      cbn [negb].
    + rewrite (consolidate_no_lead py_str self conv d now Hl) in I1, I2, I3, I4, I5.
      rewrite (consolidate_no_lead py_str self conv d now Hl).
      cbn [snd] in I1, I2, I3, I4, I5. cbn [snd]. done.
    + rewrite I1, I2, I3, I4, H1, H2, H3.
      rewrite consolidate_long by done.
      cbn [LongTermMemory.store snd LongTermMemory.store_log].
      rewrite length_app. cbn [length].
      repeat split; try lia. discriminate.
Qed.

End ProfileFacts.

Lemma consolidate_merges_witness :
  let d := Conversation.Make "c" "L" [("interests"%string, VStr "travel")] 7 5 in
  fst (MemoryManager._consolidate_to_long_term (S:=Conversation.t)
         (fun _ => ""%string) (MemoryManager.initial None) "c" d 8) = true.
Proof.
  cbv zeta.
  refine (proj1 (consolidate_merges (fun _ => ""%string)
                   (MemoryManager.initial None) "c"%string
                   (Conversation.Make "c" "L"
                      [("interests"%string, VStr "travel")] 7 5) 8 _)).
  discriminate.
Defined.

(** ** The RFM score: bounds *)

Lemma round_half_even_bounds x :
  Qfloor x <= round_half_even x <= Qfloor x + 1.
Proof.
  unfold round_half_even.
  destruct (x - inject_Z (Qfloor x) ?= 1 # 2)%Q; [|lia|lia].
  destruct (Z.even (Qfloor x)); lia.
Qed.

Lemma round_half_even_mono x y :
  (x <= y)%Q -> round_half_even x <= round_half_even y.
Proof.
  intros Hxy. pose proof (Qfloor_resp_le x y Hxy) as Hf.
  destruct (Z.eq_dec (Qfloor x) (Qfloor y)) as [E|E].
  - unfold round_half_even. rewrite <- E.
    destruct (x - inject_Z (Qfloor x) ?= 1 # 2)%Q eqn:Cx;
      destruct (y - inject_Z (Qfloor x) ?= 1 # 2)%Q eqn:Cy;
      try (destruct (Z.even (Qfloor x)); lia); try lia; exfalso;
      repeat match goal with
             | H : (_ ?= _)%Q = Eq |- _ => apply Qeq_alt in H
             | H : (_ ?= _)%Q = Lt |- _ => apply Qlt_alt in H
             | H : (_ ?= _)%Q = Gt |- _ => apply Qgt_alt in H
             end; lra.
  - pose proof (round_half_even_bounds x). pose proof (round_half_even_bounds y).
    lia.
Qed.

Lemma round3_mono x y : (x <= y)%Q -> (round3 x <= round3 y)%Q.
Proof.
  intros Hxy. unfold round3.
  assert (H : round_half_even (x * 1000) <= round_half_even (y * 1000)).
  { apply round_half_even_mono. lra. }
  unfold Qle. simpl. lia.
Qed.

Lemma max_by_In {A K : Type} (key : A -> K) (ltb : K -> K -> bool) l :
  forall x, In (max_by key ltb x l) (x :: l).
Proof.
  induction l as [|y l IH]; intros x; simpl; [by left|].
  destruct (IH (if ltb (key x) (key y) then y else x)) as [H|H].
  - destruct (ltb (key x) (key y)); rewrite <- H; auto.
  - by right; right.
Qed.

Lemma max0_bounds x : (0 <= max0 x)%Q /\ ((x <= 1)%Q -> (max0 x <= 1)%Q).
Proof.
  unfold max0. destruct (Qle_bool x 0) eqn:E.
  - split; [apply Qle_refl|]. intros _. lra.
  - split; [|done].
    destruct (Qlt_le_dec 0 x) as [H|H]; [lra|].
    apply Qle_bool_iff in H. congruence.
Qed.

Lemma min1_bounds x : (min1 x <= 1)%Q /\ ((1 # 10 <= x)%Q -> (1 # 10 <= min1 x)%Q).
Proof.
  unfold min1. destruct (Qle_bool 1 x) eqn:E.
  - split; [apply Qle_refl|]. intros _. lra.
  - split; [|done].
    destruct (Qlt_le_dec x 1) as [H|H]; [lra|].
    apply Qle_bool_iff in H. congruence.
Qed.

(** X10.  For a history that is not empty and holds no timestamp later
    than [now], the score lies between 0.2 and 0.833: recency is within
    [0, 1], frequency within [0.1, 1] and the monetary share is 0.5. *)
Theorem rfm_score_bounds (lead_id : string)
    (interaction_history : list Interaction.t) (now : Z) :
  interaction_history <> [] ->
  (forall i t, In i interaction_history -> Interaction.timestamp i = Some t ->
               t <= now) ->
  (2 # 10 <= MemoryManager._calculate_rfm_score lead_id interaction_history now)%Q
  /\ (MemoryManager._calculate_rfm_score lead_id interaction_history now
      <= 833 # 1000)%Q.
Proof.
  intros Hne Hpast. destruct interaction_history as [|x l]; [done|].
  unfold MemoryManager._calculate_rfm_score. cbv zeta.
  set (last := max_by Interaction.timestamp MemoryManager.timestamp_ltb x l).
  assert (Hdays : 0 <= MemoryManager.days_between now
                         (default now (Interaction.timestamp last))).
  { unfold MemoryManager.days_between, microseconds_per_day.
    apply Z.div_pos; [|lia].
    destruct (Interaction.timestamp last) as [t|] eqn:Ht; simpl; [|lia].
    pose proof (Hpast last t (max_by_In _ _ l x) Ht). lia. }
  set (days := MemoryManager.days_between now _) in *.
  set (n := length (x :: l)).
  assert (Hn : (1 <= inject_Z (Z.of_nat n))%Q).
  { unfold Qle, n. rewrite length_cons. cbn [inject_Z Qnum Qden]. lia. }
  assert (Hd : (0 <= inject_Z days)%Q).
  { unfold Qle. simpl. lia. }
  destruct (max0_bounds (1 - inject_Z days / 30)%Q) as [Hr0 Hr1].
  destruct (min1_bounds (inject_Z (Z.of_nat n) / 10)%Q) as [Hf1 Hf0].
  assert (Hr1' : (max0 (1 - inject_Z days / 30) <= 1)%Q).
  { apply Hr1. unfold Qdiv. change (/ 30)%Q with (1 # 30)%Q. lra. }
  assert (Hf0' : (1 # 10 <= min1 (inject_Z (Z.of_nat n) / 10))%Q).
  { apply Hf0. unfold Qdiv. change (/ 10)%Q with (1 # 10)%Q. lra. }
  fold n.
  set (r := max0 _) in *. set (f := min1 _) in *.
  split.
  - apply (Qle_trans _ (round3 (2 # 10))); [by vm_compute|].
    apply round3_mono. unfold Qdiv. change (/ 3)%Q with (1 # 3)%Q. lra.
  - apply (Qle_trans _ (round3 (25 # 30))); [|by vm_compute].
    apply round3_mono. unfold Qdiv. change (/ 3)%Q with (1 # 3)%Q. lra.
Qed.

Lemma rfm_score_bounds_witness :
  (2 # 10 <= MemoryManager._calculate_rfm_score "L"
               [Interaction.Make "c" 5 "General interaction" (Some 0%Z)]
               (seconds 4000))%Q
  /\ (MemoryManager._calculate_rfm_score "L"
        [Interaction.Make "c" 5 "General interaction" (Some 0%Z)]
        (seconds 4000) <= 833 # 1000)%Q.
Proof.
  apply (rfm_score_bounds "L"
           [Interaction.Make "c" 5 "General interaction" (Some 0%Z)]
           (seconds 4000)).
  - discriminate.
  - intros i t [<-|[]] [= <-]. unfold seconds. lia.
Defined.

(** ** The episodic store: similarity search *)

Lemma Sorted_app_l {A : Type} (R : A -> A -> Prop) (l1 l2 : list A) :
  Sorted R (l1 ++ l2) -> Sorted R l1.
Proof.
  induction l1 as [|x l1 IH]; intros H; [constructor|].
  simpl in H. apply Sorted_inv in H as [Hs Hhd].
  constructor; [by apply IH|].
  destruct l1; [constructor|]. inversion Hhd. by constructor.
Qed.

Lemma slice_to_all {A : Type} (l : list A) limit :
  Z.of_nat (length l) <= limit -> slice_to l limit = l.
Proof.
  intros H. unfold slice_to. destruct (0 <=? limit) eqn:E; [|lia].
  apply firstn_all2. lia.
Qed.

Lemma Qle_bool_total a b : Qle_bool a b = true \/ Qle_bool b a = true.
Proof.
  destruct (Qlt_le_dec a b) as [H|H].
  - left. apply Qle_bool_iff. by apply Qlt_le_weak.
  - right. by apply Qle_bool_iff.
Qed.

Lemma matches_no_filters m :
  EpisodicMemory.matches (EpisodicMemory.Filters None None) m = true.
Proof. reflexivity. Qed.

Lemma matches_spec f m :
  EpisodicMemory.matches f m = true <->
  (forall v, EpisodicMemory.f_scenario f = Some v ->
             EpisodicMemory.scenario m = None \/
             EpisodicMemory.scenario m = Some v) /\
  (forall v, EpisodicMemory.f_agent_type f = Some v ->
             EpisodicMemory.agent_type m = None \/
             EpisodicMemory.agent_type m = Some v).
Proof.
  assert (Hfield : forall wanted found,
    EpisodicMemory.field_matches wanted found = true <->
    forall v, wanted = Some v -> found = None \/ found = Some v).
  { intros [w|] [x|]; simpl; split; try done.
    - intros E v [= <-]. right. apply String.eqb_eq in E. by subst.
    - intros H. destruct (H w eq_refl) as [|[= ->]]; [done|].
      apply String.eqb_refl.
    - intros _ v [= <-]. by left. }
  unfold EpisodicMemory.matches. rewrite andb_true_iff, !Hfield. done.
Qed.

Section EpisodicMore.
Variable md5 : string -> Z.
Variable py_str : Value -> string.
Variable sqrt : Q -> Q.

Local Abbreviation _create_embedding := (EpisodicMemory._create_embedding md5).
Local Abbreviation search_similar := (EpisodicMemory.search_similar md5 sqrt).
Local Abbreviation hit self q s :=
  (EpisodicMemory.Result (EpisodicMemory.metadata s)
     (EpisodicMemory.cosine_similarity sqrt (_create_embedding self q)
        (EpisodicMemory.embedding s))).

Lemma filter_test f m :
  EpisodicMemory.filters_given f && negb (EpisodicMemory.matches f m)
  = negb (EpisodicMemory.matches f m).
Proof. by destruct f as [[?|] [?|]]. Qed.

Lemma search_similar_sound (self : EpisodicMemory.t) q f limit r :
  In r (search_similar self q f limit) ->
  exists s, In s (EpisodicMemory.memory_store self) /\
            EpisodicMemory.matches f (EpisodicMemory.metadata s) = true /\
            r = hit self q s.
Proof.
  unfold EpisodicMemory.search_similar. intros H.
  apply slice_to_In in H. apply sort_desc_In in H.
  apply list_elem_of_In in H. apply list_elem_of_omap in H as (s & Hs & Hr).
  exists s. split; [by apply list_elem_of_In|].
  rewrite filter_test in Hr.
  destruct (EpisodicMemory.matches f _); [|discriminate].
  split; [done|]. by injection Hr as <-.
Qed.

Lemma omap_length_le {A B : Type} (g : A -> option B) (l : list A) :
  (length (omap g l) <= length l)%nat.
Proof.
  induction l as [|x l IH]; csimpl; [lia|].
  destruct (g x); csimpl; lia.
Qed.

Lemma search_similar_complete (self : EpisodicMemory.t) q f limit s :
  Z.of_nat (length (EpisodicMemory.memory_store self)) <= limit ->
  In s (EpisodicMemory.memory_store self) ->
  EpisodicMemory.matches f (EpisodicMemory.metadata s) = true ->
  In (hit self q s) (search_similar self q f limit).
Proof.
  intros Hlimit Hs Hm. unfold EpisodicMemory.search_similar. cbv zeta.
  rewrite slice_to_all.
  - apply sort_desc_In, list_elem_of_In, list_elem_of_omap.
    exists s. split; [by apply list_elem_of_In|].
    by rewrite filter_test, Hm.
  - rewrite (Permutation_length (sort_desc_perm _ _ _)).
    pose proof (omap_length_le
      (fun s0 : EpisodicMemory.stored =>
         if EpisodicMemory.filters_given f
            && negb (EpisodicMemory.matches f (EpisodicMemory.metadata s0))
         then None else Some (hit self q s0))
      (EpisodicMemory.memory_store self)).
    lia.
Qed.

(** X11.  For a limit that is not negative, [search_similar] returns at
    most [limit] results, in descending order of [similarity_score]; each
    is a stored episode with its cosine similarity to the query, and it
    passes the filters, a key the episode lacks counting as a match; and
    when [limit] is at least the number of stored episodes, every stored
    episode that passes the filters is returned. *)
Theorem search_similar_spec (self : EpisodicMemory.t) q f limit :
  0 <= limit ->
  let res := search_similar self q f limit in
  Z.of_nat (length res) <= limit /\
  Sorted (descending Qle_bool EpisodicMemory.similarity_score) res /\
  (forall r, In r res ->
     exists s, In s (EpisodicMemory.memory_store self) /\
               EpisodicMemory.matches f (EpisodicMemory.metadata s) = true /\
               r = hit self q s) /\
  (Z.of_nat (length (EpisodicMemory.memory_store self)) <= limit ->
   forall s, In s (EpisodicMemory.memory_store self) ->
             EpisodicMemory.matches f (EpisodicMemory.metadata s) = true ->
             In (hit self q s) res).
Proof.
  intros Hlimit res.
  split; [|split; [|split]].
  - unfold res, EpisodicMemory.search_similar. cbv zeta.
    match goal with
    | |- context [slice_to ?l limit] =>
        destruct (slice_to_split l limit Hlimit) as [_ ->]
    end. lia.
  - unfold res, EpisodicMemory.search_similar. cbv zeta.
    match goal with
    | |- context [slice_to ?l limit] =>
        destruct (slice_to_split l limit Hlimit) as [Hsplit _];
        apply (Sorted_app_l _ _ (skipn (Z.to_nat limit) l))
    end.
    rewrite Hsplit. apply sort_desc_sorted. apply Qle_bool_total.
  - intros r. apply search_similar_sound.
  - intros Hall s. by apply search_similar_complete.
Qed.

(** X12.  The pseudo-embedding has every component between -0.5 and 0.5,
    and since an MD5 digest has 128 bits, every component from index 128
    on is (0/255 - 0.5): 256 of the 384 components are the same for every
    text. *)
Theorem mock_embedding_components (text : string) :
  0 <= md5 text < 2 ^ 128 ->
  (forall x, In x (EpisodicMemory.mock_embedding md5 text) ->
             (- (1 # 2) <= x)%Q /\ (x <= 1 # 2)%Q) /\
  (forall i, (128 <= i < 384)%nat ->
             EpisodicMemory.mock_embedding md5 text !! i
             = Some (inject_Z 0 / 255 - (1 # 2))%Q).
Proof.
  intros Hmd5. unfold EpisodicMemory.mock_embedding. cbv zeta. split.
  - intros x Hx. apply in_map_iff in Hx as (i & <- & _).
    pose proof (Z.mod_pos_bound (Z.shiftr (md5 text) (Z.of_nat i)) 256
                  ltac:(lia)) as Hb.
    set (b := Z.shiftr _ _ mod 256) in *.
    unfold Qdiv. change (/ 255)%Q with (1 # 255)%Q.
    assert (H0 : (0 <= inject_Z b)%Q) by (unfold Qle; simpl; lia).
    assert (H1 : (inject_Z b <= 255)%Q) by (unfold Qle; simpl; lia).
    split; lra.
  - intros i Hi. rewrite list_lookup_fmap, lookup_seq_lt by lia. simpl.
    assert (Hz : Z.shiftr (md5 text) (Z.of_nat i) = 0).
    { destruct (Z.eq_dec (md5 text) 0) as [->|Hne]; [apply Z.shiftr_0_l|].
      apply Z.shiftr_eq_0; [lia|].
      assert (Z.log2 (md5 text) < 128) by (apply Z.log2_lt_pow2; lia).
      lia. }
    by rewrite Hz.
Qed.

End EpisodicMore.

Lemma search_similar_spec_witness :
  let e := EpisodicMemory.MkEpisode (Some "demo"%string) None None
             (Some (9 # 10)) None None None None in
  let self :=
    snd (EpisodicMemory.store (fun _ => 0) (fun _ => ""%string)
           (EpisodicMemory.initial None) "e1" e) in
  Z.of_nat (length (EpisodicMemory.search_similar (fun _ => 0) (fun x => x)
                      self "q" (EpisodicMemory.Filters None None) 1)) <= 1
  /\ 0 <= 1.
Proof.
  cbv zeta. split; [|lia].
  exact (proj1
           (search_similar_spec (fun _ => 0) (fun x => x)
              (snd (EpisodicMemory.store (fun _ => 0) (fun _ => ""%string)
                      (EpisodicMemory.initial None) "e1"
                      (EpisodicMemory.MkEpisode (Some "demo"%string) None None
                         (Some (9 # 10)) None None None None)))
              "q"%string (EpisodicMemory.Filters None None) 1 ltac:(lia))).
Defined.

Lemma mock_embedding_components_witness :
  EpisodicMemory.mock_embedding (fun _ => 255) "text" !! 200%nat
  = Some (inject_Z 0 / 255 - (1 # 2))%Q
  /\ 0 <= 255 < 2 ^ 128.
Proof.
  split; [|lia].
  exact (proj2 (mock_embedding_components (fun _ => 255) "text"%string
                  ltac:(lia)) 200%nat ltac:(lia)).
Defined.

(** ** The coordinator: an accepted episode can be found again *)

Section AcceptedFacts.
Context {S : Type}.
Variable json_dumps_value : Value -> string.
Variable md5 : string -> Z.
Variable py_str : Value -> string.
Variable sqrt : Q -> Q.

Local Abbreviation state := (@MemoryManager.t S).
Local Abbreviation store_episodic_memory :=
  (MemoryManager.store_episodic_memory (S:=S) md5 py_str).
Local Abbreviation search_episodic_memory :=
  (MemoryManager.search_episodic_memory (S:=S) json_dumps_value md5 py_str sqrt).

Lemma store_episodic_memory_accepts (self : state) e uuid now :
  (MemoryManager.episodic_success_threshold <= EpisodicMemory.score e)%Q ->
  store_episodic_memory self e uuid now
  = (true,
     MemoryManager.Make (MemoryManager.short_term self)
       (MemoryManager.long_term self)
       (snd (EpisodicMemory.store md5 py_str (MemoryManager.episodic self)
               uuid (MemoryManager.stamp e uuid now)))
       (MemoryManager.semantic self)).
Proof.
  intros H. unfold MemoryManager.store_episodic_memory.
  fold (EpisodicMemory.score e).
  apply Qle_bool_iff in H. by rewrite H.
Qed.

(** X13.  An episode whose [outcome_score] is at least 0.8 is stored:
    [store_episodic_memory] returns [True], adds one entry to the episodic
    store and touches no other tier; and a [search_episodic_memory] whose
    limit covers the whole store, with no agent filter or with the
    episode's own [agent_type] (or for an episode without one), returns
    the episode with the identifier and the date the coordinator added. *)
Theorem accepted_episode_retrievable (self : state) e uuid now q agent limit :
  (MemoryManager.episodic_success_threshold <= EpisodicMemory.score e)%Q ->
  Z.of_nat (length (EpisodicMemory.memory_store (MemoryManager.episodic self)))
    < limit ->
  agent = None \/ agent = Some ""%string \/
    EpisodicMemory.agent_type e = None \/ EpisodicMemory.agent_type e = agent ->
  let self' := snd (store_episodic_memory self e uuid now) in
  fst (store_episodic_memory self e uuid now) = true /\
  MemoryManager.short_term self' = MemoryManager.short_term self /\
  MemoryManager.long_term self' = MemoryManager.long_term self /\
  MemoryManager.semantic self' = MemoryManager.semantic self /\
  length (EpisodicMemory.memory_store (MemoryManager.episodic self'))
  = (length (EpisodicMemory.memory_store (MemoryManager.episodic self)) + 1)%nat
  /\
  exists r, In r (search_episodic_memory self' q agent limit) /\
            EpisodicMemory.episode r = MemoryManager.stamp e uuid now.
Proof.
  intros Hscore Hlimit Hagent self'. unfold self'.
  rewrite store_episodic_memory_accepts by done. cbn [fst snd].
  cbn [MemoryManager.short_term MemoryManager.long_term MemoryManager.semantic
       MemoryManager.episodic].
  assert (Hstore : EpisodicMemory.memory_store
            (snd (EpisodicMemory.store md5 py_str (MemoryManager.episodic self)
                    uuid (MemoryManager.stamp e uuid now)))
          = EpisodicMemory.memory_store (MemoryManager.episodic self)
            ++ [EpisodicMemory.Stored uuid
                  (EpisodicMemory._create_embedding md5
                     (MemoryManager.episodic self)
                     (EpisodicMemory._episode_to_text py_str
                        (MemoryManager.stamp e uuid now)))
                  (EpisodicMemory._episode_to_text py_str
                     (MemoryManager.stamp e uuid now))
                  (MemoryManager.stamp e uuid now)]) by reflexivity.
  rewrite Hstore, length_app. cbn [length].
  do 4 (split; [done|]). split; [done|].
  unfold MemoryManager.search_episodic_memory.
  cbn [MemoryManager.episodic].
  match goal with
  | |- context [EpisodicMemory.search_similar _ _ ?ep ?qt ?f _] =>
      set (episodic' := ep); set (query_text := qt); set (filters := f)
  end.
  match type of Hstore with
  | _ = _ ++ [?s] => set (new := s) in *
  end.
  exists (EpisodicMemory.Result (EpisodicMemory.metadata new)
            (EpisodicMemory.cosine_similarity sqrt
               (EpisodicMemory._create_embedding md5 episodic' query_text)
               (EpisodicMemory.embedding new))).
  split; [|done].
  apply search_similar_complete.
  - fold episodic' in Hstore. rewrite Hstore, length_app. cbn [length]. lia.
  - fold episodic' in Hstore. rewrite Hstore. apply in_or_app. right. by left.
  - apply matches_spec. unfold filters, new.
    cbn [EpisodicMemory.metadata].
    split.
    + intros v Hv. by destruct agent as [a|]; [destruct (String.eqb a "")|].
    + intros v Hv. cbn [MemoryManager.stamp EpisodicMemory.agent_type].
      destruct agent as [a|]; [|done].
      destruct (String.eqb a "") eqn:Ea; [done|].
      injection Hv as <-.
      destruct Hagent as [Ha|[Ha|[Ha|Ha]]].
      * discriminate.
      * injection Ha as ->. discriminate.
      * by left.
      * by right.
Qed.

End AcceptedFacts.

Lemma accepted_episode_retrievable_witness :
  let e := EpisodicMemory.MkEpisode (Some "demo"%string) None None
             (Some (9 # 10)) None None None None in
  let self := MemoryManager.initial (S:=Conversation.t) None in
  fst (MemoryManager.store_episodic_memory (fun _ => 0) (fun _ => ""%string)
         self e "id" 0) = true.
Proof.
  cbv zeta.
  exact (proj1 (accepted_episode_retrievable (S:=Conversation.t)
                  (fun _ => ""%string) (fun _ => 0) (fun _ => ""%string)
                  (fun x => x) (MemoryManager.initial None)
                  (EpisodicMemory.MkEpisode (Some "demo"%string) None None
                     (Some (9 # 10)) None None None None)
                  "id"%string 0 [] None 5 ltac:(by vm_compute)
                  ltac:(simpl; lia) (or_introl eq_refl))).
Defined.

(** ** The semantic store: queries *)

Lemma rejects_false w found :
  SemanticMemory.rejects (Some w) found = false -> w <> ""%string ->
  found = Some w.
Proof.
  unfold SemanticMemory.rejects. intros H Hw.
  rewrite (proj2 (String.eqb_neq w "") Hw) in H.
  destruct found as [x|]; [|discriminate].
  apply negb_false_iff, String.eqb_eq in H. by subst.
Qed.

Lemma rejects_accepts w x :
  w = None \/ w = Some x -> SemanticMemory.rejects w (Some x) = false.
Proof.
  intros [->| ->]; [done|]. unfold SemanticMemory.rejects.
  rewrite String.eqb_refl. by destruct (String.eqb x "").
Qed.

(** X14.  Every row [query_triples] returns is a row of the unfiltered
    query and carries the subject, predicate and object asked for, a
    filter that is [None] or the empty text asking for nothing; and every
    edge with a type is returned by each query whose filters are absent
    or name its ends and its type. *)
Theorem query_triples_spec (self : SemanticMemory.t) (s p o : option string) :
  (forall row, In row (SemanticMemory.query_triples self s p o) ->
     In row (SemanticMemory.query_triples self None None None) /\
     (forall x, s = Some x -> x <> ""%string ->
                SemanticMemory.row_subject row = x) /\
     (forall x, p = Some x -> x <> ""%string ->
                SemanticMemory.row_predicate row = x) /\
     (forall x, o = Some x -> x <> ""%string ->
                SemanticMemory.row_object row = x)) /\
  (forall g u v d ty,
     SemanticMemory.graph_in_use self = Some g ->
     In (u, v, d) (DiGraph.edges g) -> DiGraph.type d = Some ty ->
     s = None \/ s = Some u -> p = None \/ p = Some ty ->
     o = None \/ o = Some v ->
     In (SemanticMemory.Row u ty v (default 1%Q (DiGraph.weight d))
           (default "system"%string (DiGraph.source d)))
        (SemanticMemory.query_triples self s p o)).
Proof.
  unfold SemanticMemory.query_triples. split.
  - intros row Hrow.
    destruct (SemanticMemory.graph_in_use self) as [g|]; [|destruct Hrow].
    apply list_elem_of_In, list_elem_of_omap in Hrow
      as ([[u v] d] & He & Hkeep).
    destruct (SemanticMemory.rejects s (Some u)) eqn:Es; [discriminate|].
    destruct (SemanticMemory.rejects o (Some v)) eqn:Eo; [discriminate|].
    destruct (SemanticMemory.rejects p (DiGraph.type d)) eqn:Ep;
      [discriminate|].
    injection Hkeep as <-. split; [|split; [|split]].
    + apply list_elem_of_In, list_elem_of_omap. by exists (u, v, d).
    + intros x -> Hx. apply rejects_false in Es; [|done].
      cbn [SemanticMemory.row_subject]. congruence.
    + intros x -> Hx. apply rejects_false in Ep; [|done].
      cbn [SemanticMemory.row_predicate]. by rewrite Ep.
    + intros x -> Hx. apply rejects_false in Eo; [|done].
      cbn [SemanticMemory.row_object]. congruence.
  - intros g u v d ty -> He Hty Hs Hp Ho.
    apply list_elem_of_In, list_elem_of_omap. exists (u, v, d).
    split; [by apply list_elem_of_In|].
    rewrite (rejects_accepts s u Hs), (rejects_accepts o v Ho), Hty.
    by rewrite (rejects_accepts p ty Hp).
Qed.

(** ** The semantic store: the traversal *)

Section TraversalFacts.
Variable g : DiGraph.t.
Variable concept : string.
Variable rt : option (list string).
Variable depth : Z.

Local Abbreviation allowed :=
  (fun ty : string => forall tys, rt = Some tys -> tys <> [] -> In ty tys).
Local Abbreviation queue_ok :=
  (fun item : string * Z * list string =>
     0 <= snd (fst item) /\
     Z.of_nat (length (snd item)) = snd (fst item) /\
     Forall allowed (snd item)).
Local Abbreviation related_ok :=
  (fun r : SemanticMemory.related_concept =>
     1 <= SemanticMemory.distance r <= depth /\
     Z.of_nat (length (SemanticMemory.path_types r)) = SemanticMemory.distance r /\
     last (SemanticMemory.path_types r) = Some (SemanticMemory.relationship r) /\
     Forall allowed (SemanticMemory.path_types r)).

Lemma filtered_out_allowed ty :
  SemanticMemory.filtered_out rt ty = false -> allowed ty.
Proof.
  unfold SemanticMemory.filtered_out. intros H tys -> Hne.
  destruct tys as [|ty0 tys]; [done|].
  apply negb_false_iff, existsb_exists in H as (x & Hx & Heq).
  apply String.eqb_eq in Heq. by subst.
Qed.

Lemma visit_neighbors_ok (visited : gset string) cur d path nbrs :
  0 <= d < depth -> Z.of_nat (length path) = d -> Forall allowed path ->
  forall acc,
  Forall queue_ok (fst acc) -> Forall related_ok (snd acc) ->
  let acc' :=
    fold_left
      (SemanticMemory.visit_neighbor g concept rt depth visited cur d path)
      nbrs acc in
  Forall queue_ok (fst acc') /\ Forall related_ok (snd acc').
Proof.
  intros Hd Hlen Hpath.
  induction nbrs as [|n nbrs IH]; intros acc Hq Hr; [by split|].
  simpl fold_left. apply IH; unfold SemanticMemory.visit_neighbor.
  - destruct (bool_decide _); [exact Hq|].
    destruct (SemanticMemory.filtered_out _ _) eqn:Ef; [exact Hq|].
    cbv zeta. cbn [fst].
    destruct (d + 1 <? depth); [|exact Hq].
    apply Forall_app. split; [exact Hq|].
    constructor; [|constructor]. cbn [fst snd].
    split; [lia|]. split; [rewrite length_app; simpl; lia|].
    apply Forall_app. split; [exact Hpath|].
    constructor; [|constructor]. by apply filtered_out_allowed.
  - destruct (bool_decide _); [exact Hr|].
    destruct (SemanticMemory.filtered_out _ _) eqn:Ef; [exact Hr|].
    cbv zeta. cbn [snd].
    destruct (String.eqb n concept); [exact Hr|].
    apply Forall_app. split; [exact Hr|].
    constructor; [|constructor].
    cbn [SemanticMemory.distance SemanticMemory.path_types
         SemanticMemory.relationship].
    split; [lia|]. split; [rewrite length_app; simpl; lia|].
    split; [apply last_snoc|].
    apply Forall_app. split; [exact Hpath|].
    constructor; [|constructor]. by apply filtered_out_allowed.
Qed.

Lemma traverse_ok fuel :
  forall (visited : gset string) queue related res,
  Forall queue_ok queue -> Forall related_ok related ->
  SemanticMemory.traverse fuel g concept rt depth visited queue related
  = Some res ->
  Forall related_ok res.
Proof.
  induction fuel as [|fuel IH]; intros visited queue related res Hq Hr Hres.
  - destruct queue as [|[[cur d] path] q]; simpl in Hres; [|discriminate].
    by injection Hres as <-.
  - destruct queue as [|[[cur d] path] q].
    + rewrite traverse_nil in Hres. by injection Hres as <-.
    + rewrite traverse_cons in Hres.
      apply Forall_cons in Hq as [(Hd & Hlen & Hpath) Hq].
      cbn [fst snd] in Hd, Hlen, Hpath.
      destruct (bool_decide (cur ∈ visited)); cbn [orb] in Hres;
        [by eapply IH|].
      destruct (depth <=? d) eqn:Ed; [by eapply IH|].
      apply Z.leb_gt in Ed. cbv zeta in Hres.
      unfold SemanticMemory.visit_neighbors in Hres.
      destruct (visit_neighbors_ok ({[cur]} ∪ visited) cur d path
                  (DiGraph.neighbors g cur) ltac:(lia) Hlen Hpath
                  (q, related) Hq Hr) as [Hq' Hr'].
      eapply IH; [exact Hq'|exact Hr'|exact Hres].
Qed.

End TraversalFacts.

(** X15.  [get_related_concepts] always returns a list, and in every
    result the distance is between 1 and [depth], [path_types] has as many
    entries as the distance and ends with [relationship], and with a
    filter that is not empty every type on the path is one of the
    filter's; so a depth of 0 or less returns nothing. *)
Theorem get_related_concepts_spec (self : SemanticMemory.t) (x : string)
    (rt : option (list string)) (depth : Z) :
  exists res,
    SemanticMemory.get_related_concepts self x rt depth = Some res /\
    Forall (fun r =>
              1 <= SemanticMemory.distance r <= depth /\
              Z.of_nat (length (SemanticMemory.path_types r))
              = SemanticMemory.distance r /\
              last (SemanticMemory.path_types r)
              = Some (SemanticMemory.relationship r) /\
              Forall (fun ty => forall tys, rt = Some tys -> tys <> [] ->
                                            In ty tys)
                     (SemanticMemory.path_types r))
           res /\
    (depth <= 0 -> res = []).
Proof.
  destruct (get_related_concepts_total self x rt depth) as (res & Hres & _).
  exists res. split; [exact Hres|].
  assert (Hok : Forall (fun r =>
              1 <= SemanticMemory.distance r <= depth /\
              Z.of_nat (length (SemanticMemory.path_types r))
              = SemanticMemory.distance r /\
              last (SemanticMemory.path_types r)
              = Some (SemanticMemory.relationship r) /\
              Forall (fun ty => forall tys, rt = Some tys -> tys <> [] ->
                                            In ty tys)
                     (SemanticMemory.path_types r)) res).
  { unfold SemanticMemory.get_related_concepts in Hres.
    destruct (SemanticMemory.graph_in_use self) as [g|];
      [|injection Hres as <-; constructor].
    destruct (negb _); [injection Hres as <-; constructor|].
    eapply traverse_ok; [| |exact Hres].
    - constructor; [|constructor]. cbn [fst snd length]. split; [lia|].
      split; [done|constructor].
    - constructor. }
  split; [exact Hok|].
  intros Hdepth. destruct res as [|r res]; [done|].
  apply Forall_cons in Hok as [(Hd & _) _]. lia.
Qed.

(** ** The in-process graph: what [add_node] and [add_edge] maintain *)

Lemma pydict_contains_set {V : Type} (d : PyDict.t V) k k' v :
  PyDict.contains (PyDict.set d k v) k' = String.eqb k k' || PyDict.contains d k'.
Proof.
  unfold PyDict.contains. rewrite pydict_get_set.
  by destruct (String.eqb k k').
Qed.

Lemma pydict_In_get {V : Type} (d : PyDict.t V) k v :
  NoDup (PyDict.keys d) -> In (k, v) d -> PyDict.get d k = Some v.
Proof.
  induction d as [|[k' v'] d IH]; intros Hd Hin; [destruct Hin|].
  simpl in Hd. apply NoDup_cons in Hd as [Hk' Hd]. simpl.
  destruct Hin as [[= -> ->]|Hin]; [by rewrite String.eqb_refl|].
  destruct (String.eqb_spec k' k) as [->|Hne]; [|by apply IH].
  exfalso. apply Hk'. apply list_elem_of_In.
  apply (in_map fst) in Hin. exact Hin.
Qed.

Local Abbreviation ensure g n attrs :=
  (if DiGraph.has_node g n then g else DiGraph.add_node g n attrs).

Lemma well_formed_empty : DiGraph.well_formed DiGraph.empty.
Proof.
  split; [constructor|]. split; [done|]. intros u nbrs. discriminate.
Qed.

Lemma add_node_well_formed g n attrs :
  DiGraph.well_formed g -> DiGraph.well_formed (DiGraph.add_node g n attrs).
Proof.
  intros (Hnd & Hsync & Hnbrs). unfold DiGraph.add_node.
  destruct (PyDict.get (DiGraph._node g) n) as [old|] eqn:E.
  - split; [exact Hnd|]. split; [|exact Hnbrs].
    intros n'. cbn [DiGraph._succ DiGraph._node].
    rewrite pydict_contains_set, Hsync.
    destruct (String.eqb_spec n n') as [<-|]; [|done].
    unfold PyDict.contains. by rewrite E.
  - split; [by apply pydict_set_NoDup|]. split.
    + intros n'. cbn [DiGraph._succ DiGraph._node].
      by rewrite !pydict_contains_set, Hsync.
    + intros u nbrs. cbn [DiGraph._succ]. rewrite pydict_get_set.
      destruct (String.eqb n u); [intros [= <-]; constructor|apply Hnbrs].
Qed.

Lemma has_node_add_node g n attrs n' :
  DiGraph.has_node (DiGraph.add_node g n attrs) n'
  = String.eqb n n' || DiGraph.has_node g n'.
Proof.
  unfold DiGraph.has_node, DiGraph.add_node.
  destruct (PyDict.get (DiGraph._node g) n);
    cbn [DiGraph._node]; apply pydict_contains_set.
Qed.

Lemma get_edge_data_add_node g n attrs u v :
  DiGraph.well_formed g -> DiGraph.has_node g n = false ->
  DiGraph.get_edge_data (DiGraph.add_node g n attrs) u v
  = DiGraph.get_edge_data g u v.
Proof.
  intros (_ & Hsync & _) Hn. unfold DiGraph.has_node in Hn.
  unfold DiGraph.get_edge_data, DiGraph.add_node.
  pose proof (Hsync n) as Hs. rewrite Hn in Hs.
  unfold PyDict.contains in Hn, Hs.
  destruct (PyDict.get (DiGraph._node g) n); [discriminate|].
  cbn [DiGraph._succ]. rewrite pydict_get_set.
  destruct (String.eqb_spec n u) as [<-|]; [|done].
  by destruct (PyDict.get (DiGraph._succ g) n).
Qed.

Lemma ensure_well_formed g n attrs :
  DiGraph.well_formed g -> DiGraph.well_formed (ensure g n attrs).
Proof.
  intros H. destruct (DiGraph.has_node g n); [done|].
  by apply add_node_well_formed.
Qed.

Lemma has_node_ensure g n attrs n' :
  DiGraph.has_node (ensure g n attrs) n'
  = String.eqb n n' || DiGraph.has_node g n'.
Proof.
  destruct (DiGraph.has_node g n) eqn:E; [|apply has_node_add_node].
  destruct (String.eqb_spec n n') as [<-|]; [by rewrite E|done].
Qed.

Lemma get_edge_data_ensure g n attrs u v :
  DiGraph.well_formed g ->
  DiGraph.get_edge_data (ensure g n attrs) u v = DiGraph.get_edge_data g u v.
Proof.
  intros H. destruct (DiGraph.has_node g n) eqn:E; [done|].
  by apply get_edge_data_add_node.
Qed.

Lemma add_edge_well_formed g u v attrs :
  DiGraph.well_formed g -> DiGraph.well_formed (DiGraph.add_edge g u v attrs).
Proof.
  intros Hg. unfold DiGraph.add_edge. cbv zeta.
  set (g2 := ensure (ensure g u []) v []).
  assert (Hg2 : DiGraph.well_formed g2)
    by (by apply ensure_well_formed, ensure_well_formed).
  assert (Hu : DiGraph.has_node g2 u = true).
  { unfold g2. rewrite !has_node_ensure, String.eqb_refl.
    by destruct (String.eqb v u). }
  destruct Hg2 as (Hnd & Hsync & Hnbrs).
  split; [by apply pydict_set_NoDup|]. split.
  - intros n. cbn [DiGraph._succ DiGraph._node].
    rewrite pydict_contains_set, Hsync.
    destruct (String.eqb_spec u n) as [<-|]; [|done].
    unfold DiGraph.has_node in Hu. by rewrite Hu.
  - intros w nbrs. cbn [DiGraph._succ]. rewrite pydict_get_set.
    destruct (String.eqb u w); [|apply Hnbrs].
    intros [= <-]. apply pydict_set_NoDup.
    destruct (PyDict.get (DiGraph._succ g2) u) as [l|] eqn:El;
      [by apply (Hnbrs u)|constructor].
Qed.

Lemma has_node_add_edge g u v attrs n :
  DiGraph.has_node (DiGraph.add_edge g u v attrs) n
  = String.eqb u n || String.eqb v n || DiGraph.has_node g n.
Proof.
  unfold DiGraph.add_edge. cbv zeta.
  change (DiGraph.has_node (DiGraph.Graph ?a ?b) n)
    with (PyDict.contains a n).
  change (PyDict.contains (DiGraph._node ?g') n) with (DiGraph.has_node g' n).
  rewrite !has_node_ensure.
  by destruct (String.eqb u n), (String.eqb v n).
Qed.

Lemma get_edge_data_add_edge g u v attrs u' v' :
  DiGraph.well_formed g ->
  DiGraph.get_edge_data (DiGraph.add_edge g u v attrs) u' v'
  = if String.eqb u u' && String.eqb v v'
    then Some (DiGraph.update_edge_data
                 (default DiGraph.no_data (DiGraph.get_edge_data g u v)) attrs)
    else DiGraph.get_edge_data g u' v'.
Proof.
  intros Hg. unfold DiGraph.add_edge. cbv zeta.
  set (g2 := ensure (ensure g u []) v []).
  assert (Hdata : forall a b,
            DiGraph.get_edge_data g2 a b = DiGraph.get_edge_data g a b).
  { intros a b. unfold g2.
    rewrite get_edge_data_ensure by (by apply ensure_well_formed).
    by apply get_edge_data_ensure. }
  rewrite <- !Hdata. unfold DiGraph.get_edge_data at 1.
  cbn [DiGraph._succ]. rewrite pydict_get_set.
  destruct (String.eqb_spec u u') as [<-|Hne]; [|done].
  cbn [andb]. change (default [] (Some ?l)) with l. rewrite pydict_get_set.
  by destruct (String.eqb v v').
Qed.

Lemma has_node_truthy g n :
  DiGraph.has_node g n = true -> DiGraph.truthy g = true.
Proof.
  unfold DiGraph.has_node, DiGraph.truthy, DiGraph.number_of_nodes,
    PyDict.contains.
  by destruct (DiGraph._node g).
Qed.

(** ** The semantic store: one edge for each pair of ends *)

Local Abbreviation keep s p o :=
  (fun e : string * string * DiGraph.edge_data =>
     match e with
     | (source_node, target_node, edge_data) =>
         if SemanticMemory.rejects s (Some source_node) then None
         else if SemanticMemory.rejects o (Some target_node) then None
         else if SemanticMemory.rejects p (DiGraph.type edge_data) then None
         else Some (SemanticMemory.Row source_node
                      (default "related_to"%string (DiGraph.type edge_data))
                      target_node
                      (default 1%Q (DiGraph.weight edge_data))
                      (default "system"%string (DiGraph.source edge_data)))
     end).

Local Abbreviation row_of s o d :=
  (SemanticMemory.Row s (default "related_to"%string (DiGraph.type d)) o
     (default 1%Q (DiGraph.weight d))
     (default "system"%string (DiGraph.source d))).

Lemma rejects_Some w x :
  w <> ""%string ->
  SemanticMemory.rejects (Some w) (Some x) = negb (String.eqb x w).
Proof.
  intros Hw. unfold SemanticMemory.rejects.
  by rewrite (proj2 (String.eqb_neq w "") Hw).
Qed.

Lemma omap_cons_eq {A B : Type} (f : A -> option B) x l :
  omap f (x :: l)
  = match f x with Some y => y :: omap f l | None => omap f l end.
Proof. reflexivity. Qed.

Lemma keep_neighbours s o u (nbrs : PyDict.t DiGraph.edge_data) :
  s <> ""%string -> o <> ""%string -> NoDup (PyDict.keys nbrs) ->
  omap (keep (Some s) None (Some o))
       (map (fun vd => (u, fst vd, snd vd)) nbrs)
  = if String.eqb u s
    then match PyDict.get nbrs o with
         | Some d => [row_of s o d]
         | None => []
         end
    else [].
Proof.
  intros Hs Ho. induction nbrs as [|[v d] nbrs IH]; intros Hnd.
  - by destruct (String.eqb u s).
  - simpl in Hnd. apply NoDup_cons in Hnd as [Hv Hnd].
    specialize (IH Hnd). cbn [map fst snd]. rewrite omap_cons_eq.
    cbv beta iota. rewrite !rejects_Some by done. cbn [PyDict.get].
    destruct (String.eqb_spec u s) as [->|Hus]; cbn [negb]; [|exact IH].
    destruct (String.eqb_spec v o) as [->|Hvo]; cbn [negb]; [|exact IH].
    rewrite IH.
    assert (Hnone : PyDict.get nbrs o = None).
    { apply pydict_get_None_keys. intros Hin. apply Hv.
      by apply list_elem_of_In. }
    by rewrite Hnone.
Qed.

Lemma keep_edges s o (l : PyDict.t (PyDict.t DiGraph.edge_data)) :
  s <> ""%string -> o <> ""%string -> NoDup (PyDict.keys l) ->
  (forall u nbrs, In (u, nbrs) l -> NoDup (PyDict.keys nbrs)) ->
  omap (keep (Some s) None (Some o))
       (flat_map (fun un => map (fun vd => (fst un, fst vd, snd vd)) (snd un)) l)
  = match PyDict.get (default [] (PyDict.get l s)) o with
    | Some d => [row_of s o d]
    | None => []
    end.
Proof.
  intros Hs Ho. induction l as [|[u nbrs] l IH]; intros Hnd Hnbrs; [done|].
  simpl in Hnd. apply NoDup_cons in Hnd as [Hu Hnd].
  cbn [flat_map fst snd]. rewrite omap_app.
  rewrite keep_neighbours by (try done; apply (Hnbrs u); by left).
  rewrite IH by (try done; intros u' nbrs' Hin; apply (Hnbrs u'); by right).
  cbn [PyDict.get].
  destruct (String.eqb_spec u s) as [->|Hus]; [|done].
  assert (Hnone : PyDict.get l s = None).
  { apply pydict_get_None_keys. intros Hin. apply Hu.
    by apply list_elem_of_In. }
  rewrite Hnone. cbn [default PyDict.get]. apply app_nil_r.
Qed.

Lemma query_pair g s o :
  DiGraph.well_formed g -> DiGraph.truthy g = true ->
  s <> ""%string -> o <> ""%string ->
  SemanticMemory.query_triples (SemanticMemory.Make (Some g))
    (Some s) None (Some o)
  = match DiGraph.get_edge_data g s o with
    | Some d => [row_of s o d]
    | None => []
    end.
Proof.
  intros (Hnd & _ & Hnbrs) Ht Hs Ho.
  unfold SemanticMemory.query_triples, SemanticMemory.graph_in_use.
  cbn [SemanticMemory.graph]. rewrite Ht.
  unfold DiGraph.edges, DiGraph.get_edge_data.
  apply keep_edges; try done.
  intros u nbrs Hin. apply (Hnbrs u). by apply pydict_In_get.
Qed.

(** X16.  On a graph in use, [store_triple] returns [True] and leaves a
    graph that is still in use and well formed, with subject and object
    among its nodes; the query for the pair (subject, object) then returns
    exactly one row, carrying the predicate, weight and source of this
    call whatever edge the pair had before; and the data of every other
    pair of ends is as it was. *)
Theorem store_triple_upserts (self : SemanticMemory.t) (g : DiGraph.t)
    (tr : SemanticMemory.triple) (now : Z) :
  SemanticMemory.graph_in_use self = Some g ->
  DiGraph.well_formed g ->
  SemanticMemory.subject tr <> ""%string ->
  SemanticMemory.object tr <> ""%string ->
  exists g',
    SemanticMemory.store_triple self tr now
    = (true, SemanticMemory.Make (Some g')) /\
    DiGraph.well_formed g' /\
    SemanticMemory.graph_in_use (SemanticMemory.Make (Some g')) = Some g' /\
    SemanticMemory.query_triples (SemanticMemory.Make (Some g'))
      (Some (SemanticMemory.subject tr)) None (Some (SemanticMemory.object tr))
    = [SemanticMemory.Row (SemanticMemory.subject tr)
         (SemanticMemory.predicate tr) (SemanticMemory.object tr)
         (default 1%Q (SemanticMemory.weight tr))
         (default "system"%string (SemanticMemory.source tr))] /\
    (forall u v,
       (u, v) <> (SemanticMemory.subject tr, SemanticMemory.object tr) ->
       DiGraph.get_edge_data g' u v = DiGraph.get_edge_data g u v) /\
    (forall n,
       DiGraph.has_node g' n
       = String.eqb (SemanticMemory.subject tr) n
         || String.eqb (SemanticMemory.object tr) n
         || DiGraph.has_node g n).
Proof.
  intros Hin Hg Hs Ho. unfold SemanticMemory.store_triple. cbv zeta.
  rewrite Hin.
  set (s := SemanticMemory.subject tr) in *.
  set (o := SemanticMemory.object tr) in *.
  set (attrs := [("type", "concept")]%string).
  set (g2 := ensure (ensure g s attrs) o attrs).
  set (data := DiGraph.EdgeData _ _ _ _ _).
  assert (Hg2 : DiGraph.well_formed g2)
    by (by apply ensure_well_formed, ensure_well_formed).
  assert (Hdata : forall a b,
            DiGraph.get_edge_data g2 a b = DiGraph.get_edge_data g a b).
  { intros a b. unfold g2.
    rewrite get_edge_data_ensure by (by apply ensure_well_formed).
    by apply get_edge_data_ensure. }
  assert (Hnodes : forall n,
            DiGraph.has_node (DiGraph.add_edge g2 s o data) n
            = String.eqb s n || String.eqb o n || DiGraph.has_node g n).
  { intros n. rewrite has_node_add_edge. unfold g2.
    rewrite !has_node_ensure.
    by destruct (String.eqb s n), (String.eqb o n). }
  assert (Htruthy : DiGraph.truthy (DiGraph.add_edge g2 s o data) = true).
  { apply (has_node_truthy _ s). by rewrite Hnodes, String.eqb_refl. }
  exists (DiGraph.add_edge g2 s o data).
  split; [done|]. split; [by apply add_edge_well_formed|].
  split; [unfold SemanticMemory.graph_in_use; cbn [SemanticMemory.graph];
          by rewrite Htruthy|].
  split; [|split; [|exact Hnodes]].
  - rewrite query_pair by (try done; by apply add_edge_well_formed).
    rewrite get_edge_data_add_edge by done.
    by rewrite !String.eqb_refl.
  - intros u v Hne. rewrite get_edge_data_add_edge by done.
    rewrite !Hdata.
    destruct (String.eqb s u) eqn:Eu; [|done].
    destruct (String.eqb o v) eqn:Ev; [|done].
    apply String.eqb_eq in Eu, Ev. by subst u v.
Qed.

Lemma store_triple_upserts_witness :
  fst (SemanticMemory.store_triple
         (SemanticMemory.Make (Some (DiGraph.add_node DiGraph.empty "seed" [])))
         (SemanticMemory.Triple "A" "rel" "B" (Some (1 # 2)) None) 0) = true.
Proof.
  destruct (store_triple_upserts
              (SemanticMemory.Make
                 (Some (DiGraph.add_node DiGraph.empty "seed" [])))
              (DiGraph.add_node DiGraph.empty "seed" [])
              (SemanticMemory.Triple "A" "rel" "B" (Some (1 # 2)) None) 0
              eq_refl
              (add_node_well_formed DiGraph.empty "seed" [] well_formed_empty)
              ltac:(discriminate) ltac:(discriminate))
    as (g' & Hstore & _).
  by rewrite Hstore.
Defined.

(** ** The coordinator: the semantic tier in the in-process mode *)

Section SemanticTierFacts.
Context {S : Type}.
Variable json_dumps : Conversation.t -> S.
Variable json_loads : S -> Conversation.t.
Variable md5 : string -> Z.
Variable py_str : Value -> string.

Local Abbreviation state := (@MemoryManager.t S).
Local Abbreviation handle :=
  (MemoryManager.handle json_dumps json_loads md5 py_str).
Local Abbreviation run := (MemoryManager.run json_dumps json_loads md5 py_str).

Lemma handle_semantic_unused (self : state) r now :
  SemanticMemory.graph_in_use (MemoryManager.semantic self) = None ->
  MemoryManager.semantic (handle self r now) = MemoryManager.semantic self.
Proof.
  intros Hunused.
  destruct r as [c l ctx ttl|c|c u|l p h|e u|s p o w src];
    unfold MemoryManager.handle.
  - by destruct (store_short_term_frame json_dumps json_loads py_str
                   self c l ctx ttl now) as (_ & _ & _ & -> & _).
  - reflexivity.
  - unfold MemoryManager.update_short_term. by destruct (fst _).
  - reflexivity.
  - unfold MemoryManager.store_episodic_memory. by destruct (negb _).
  - unfold MemoryManager.store_knowledge_triple, SemanticMemory.store_triple.
    cbv zeta. by rewrite Hunused.
Qed.

Lemma run_semantic_unused rs : forall self : state,
  SemanticMemory.graph_in_use (MemoryManager.semantic self) = None ->
  MemoryManager.semantic (run self rs) = MemoryManager.semantic self.
Proof.
  induction rs as [|[r now] rs IH]; intros self H; [done|].
  unfold MemoryManager.run. cbn [fold_left fst snd].
  fold (run (handle self r now) rs).
  rewrite IH; rewrite handle_semantic_unused; done.
Qed.

(** X17.  In the in-process mode the semantic tier never holds anything:
    after any run of coordinator calls from the state [initialize()]
    leaves, the graph is still the empty one, every
    [store_knowledge_triple] reports success and changes nothing, every
    [query_semantic_memory] returns no row and every
    [get_related_concepts] returns no concept. *)
Theorem semantic_tier_stays_empty (model : option (string -> list Q))
    (rs : list (MemoryManager.request * Z)) :
  let self := run (MemoryManager.initial model) rs in
  MemoryManager.semantic self = SemanticMemory.Make (Some DiGraph.empty) /\
  (forall s p o w src now,
     MemoryManager.store_knowledge_triple self s p o w src now = (true, self)) /\
  (forall s p o, MemoryManager.query_semantic_memory self s p o = []) /\
  (forall c rt depth,
     MemoryManager.get_related_concepts self c rt depth = Some []).
Proof.
  intros self.
  assert (Hsem : MemoryManager.semantic self
                 = SemanticMemory.Make (Some DiGraph.empty)).
  { unfold self. by rewrite run_semantic_unused. }
  clearbody self.
  split; [exact Hsem|]. split; [|split].
  - intros s p o w src now.
    unfold MemoryManager.store_knowledge_triple. rewrite Hsem.
    destruct self as [st lt ep sem]. cbn in Hsem. by subst sem.
  - intros s p o. unfold MemoryManager.query_semantic_memory.
    by rewrite Hsem.
  - intros c rt depth. unfold MemoryManager.get_related_concepts.
    by rewrite Hsem.
Qed.

End SemanticTierFacts.

(** ** The RFM score: the empty history *)

(** C4 (as stated) fails on the empty history: the code answers 0 by its
    guard, while the formula, whatever number of days the empty history
    is given, is at least (0 + 0 + 0.5) / 3, which rounds to 0.167; with
    no day elapsed it is 0.5. *)
Lemma rfm_formula_every_history_fails :
  (MemoryManager._calculate_rfm_score "L" [] 0 = 0%Q /\
   (round3 ((MemoryManager.recency 0 + MemoryManager.frequency 0
             + MemoryManager.monetary) / 3) == 1 # 2)%Q) /\
  ~ MemoryManager.rfm_formula_every_history.
Proof.
  split; [split; reflexivity|].
  intros H. destruct (H "L"%string [] 0) as [days Hd].
  cbn [MemoryManager._calculate_rfm_score length] in Hd.
  assert (Hlow :
    (round3 ((0 + MemoryManager.frequency 0 + MemoryManager.monetary) / 3)
     <= round3 ((MemoryManager.recency days + MemoryManager.frequency 0
                 + MemoryManager.monetary) / 3))%Q).
  { apply round3_mono.
    pose proof (Q.le_max_l 0 (1 - inject_Z days / 30)) as Hr.
    fold (MemoryManager.recency days) in Hr.
    set (r := MemoryManager.recency days) in *.
    set (f := MemoryManager.frequency 0).
    set (m := MemoryManager.monetary).
    unfold Qdiv. change (/ 3)%Q with (1 # 3)%Q. lra. }
  rewrite <- Hd in Hlow. vm_compute in Hlow. by apply Hlow.
Qed.

(** ** The coordinator: episodes as the callers' dictionaries *)

Section WorldFacts.
Context {S : Type}.
Variable json_dumps : Conversation.t -> S.
Variable json_loads : S -> Conversation.t.
Variable json_dumps_value : Value -> string.
Variable md5 : string -> Z.
Variable py_str : Value -> string.
Variable sqrt : Q -> Q.

Local Abbreviation world := (@MemoryManager.world S).
Local Abbreviation store_episodic_memory :=
  (MemoryManager.store_episodic_memory (S:=S) md5 py_str).
Local Abbreviation store_episodic_memory_at :=
  (MemoryManager.store_episodic_memory_at (S:=S) md5 py_str).
Local Abbreviation search_episodic_memory :=
  (MemoryManager.search_episodic_memory (S:=S) json_dumps_value md5 py_str sqrt).
Local Abbreviation handle :=
  (MemoryManager.handle json_dumps json_loads md5 py_str).
Local Abbreviation act := (MemoryManager.act json_dumps json_loads md5 py_str).
Local Abbreviation play := (MemoryManager.play json_dumps json_loads md5 py_str).
Local Abbreviation scores_kept :=
  (MemoryManager.scores_kept json_dumps json_loads md5 py_str).
Local Abbreviation entries w :=
  (EpisodicMemory.memory_store (MemoryManager.episodic (MemoryManager.manager w))).
Local Abbreviation successful w :=
  (MemoryManager.all_successful (MemoryManager.manager w)).

Lemma store_episodic_memory_true (self : @MemoryManager.t S) e uuid now :
  fst (store_episodic_memory self e uuid now) = true ->
  (MemoryManager.episodic_success_threshold <= EpisodicMemory.score e)%Q.
Proof.
  intros H.
  destruct (Qlt_le_dec (EpisodicMemory.score e)
              MemoryManager.episodic_success_threshold) as [Hlow|Hok];
    [|exact Hok].
  by rewrite (store_episodic_memory_rejects md5 py_str self e uuid now Hlow)
    in H.
Qed.

Lemma store_episodic_memory_entries (self : @MemoryManager.t S) e uuid now :
  fst (store_episodic_memory self e uuid now) = true ->
  length (EpisodicMemory.memory_store
            (MemoryManager.episodic (snd (store_episodic_memory self e uuid now))))
  = Datatypes.S (length (EpisodicMemory.memory_store (MemoryManager.episodic self))).
Proof.
  unfold MemoryManager.store_episodic_memory.
  destruct (negb _); [discriminate|]. intros _.
  cbn [snd MemoryManager.episodic EpisodicMemory.store
       EpisodicMemory.memory_store].
  rewrite length_app. simpl. lia.
Qed.

(** An entry whose dictionary is written shows the new content and keeps
    its identifier, its embedding and its text. *)
Lemma write_successful (w : world) a e :
  successful w ->
  (In a (MemoryManager.refs w) ->
   (MemoryManager.episodic_success_threshold <= EpisodicMemory.score e)%Q) ->
  successful (MemoryManager.write w a e).
Proof.
  unfold MemoryManager.write, MemoryManager.all_successful. cbv zeta.
  cbn [MemoryManager.manager MemoryManager.episodic
       EpisodicMemory.memory_store].
  generalize (entries w). induction (MemoryManager.refs w) as [|r refs IH];
    intros [|s l] Hl He; simpl; try constructor.
  - destruct (Nat.eqb_spec r a) as [->|Hne].
    + cbn [EpisodicMemory.metadata]. apply He. by left.
    + by apply Forall_inv in Hl.
  - apply IH; [by apply Forall_inv_tail in Hl|].
    intros Hin. apply He. by right.
Qed.

Lemma write_entries (w : world) a e :
  length (MemoryManager.refs w) = length (entries w) ->
  MemoryManager.refs (MemoryManager.write w a e) = MemoryManager.refs w /\
  length (entries (MemoryManager.write w a e)) = length (entries w).
Proof.
  intros H. split; [reflexivity|].
  unfold MemoryManager.write. cbv zeta.
  cbn [MemoryManager.manager MemoryManager.episodic
       EpisodicMemory.memory_store].
  rewrite length_zip_with. lia.
Qed.

Lemma store_episodic_memory_at_rejects (w : world) a e uuid now :
  MemoryManager.objects w !! a = Some e ->
  (EpisodicMemory.score e < MemoryManager.episodic_success_threshold)%Q ->
  store_episodic_memory_at w a uuid now = (false, w).
Proof.
  intros Ha Hlow. unfold MemoryManager.store_episodic_memory_at.
  rewrite Ha. cbv zeta.
  by rewrite (store_episodic_memory_rejects md5 py_str _ e uuid now Hlow).
Qed.

Lemma store_episodic_memory_at_successful (w : world) a uuid now :
  successful w -> successful (snd (store_episodic_memory_at w a uuid now)).
Proof.
  intros Hw. unfold MemoryManager.store_episodic_memory_at.
  destruct (MemoryManager.objects w !! a) as [e|]; [|exact Hw]. cbv zeta.
  destruct (fst (store_episodic_memory _ e uuid now)) eqn:E; [|exact Hw].
  cbn [snd]. apply write_successful.
  - cbn [MemoryManager.manager].
    by apply store_episodic_memory_successful.
  - intros _. by apply store_episodic_memory_true in E.
Qed.

Lemma store_episodic_memory_at_entries (w : world) a uuid now :
  length (MemoryManager.refs w) = length (entries w) ->
  length (MemoryManager.refs (snd (store_episodic_memory_at w a uuid now)))
  = length (entries (snd (store_episodic_memory_at w a uuid now))).
Proof.
  intros Hw. unfold MemoryManager.store_episodic_memory_at.
  destruct (MemoryManager.objects w !! a) as [e|]; [|exact Hw]. cbv zeta.
  destruct (fst (store_episodic_memory _ e uuid now)) eqn:E; [|exact Hw].
  cbn [snd].
  assert (Hlen : length (MemoryManager.refs
                           (MemoryManager.World
                              (snd (store_episodic_memory
                                      (MemoryManager.manager w) e uuid now))
                              (MemoryManager.objects w)
                              (MemoryManager.refs w ++ [a])))
                 = length (entries
                             (MemoryManager.World
                                (snd (store_episodic_memory
                                        (MemoryManager.manager w) e uuid now))
                                (MemoryManager.objects w)
                                (MemoryManager.refs w ++ [a])))).
  { cbn [MemoryManager.refs MemoryManager.manager].
    rewrite length_app, store_episodic_memory_entries by done. simpl. lia. }
  destruct (write_entries _ a (MemoryManager.stamp e uuid now) Hlen)
    as [-> ->]. exact Hlen.
Qed.

(** A coordinator call other than [store_episodic_memory] leaves the
    episodic tier as it is. *)
Lemma handle_episodic (self : @MemoryManager.t S) r now :
  (forall e u, r <> MemoryManager.StoreEpisodicMemory e u) ->
  MemoryManager.episodic (handle self r now) = MemoryManager.episodic self.
Proof.
  intros Hr.
  destruct r as [c l ctx ttl|c|c u|l p h|e u|s p o w src];
    unfold MemoryManager.handle.
  - by destruct (store_short_term_frame json_dumps json_loads py_str
                   self c l ctx ttl now) as (_ & _ & -> & _).
  - reflexivity.
  - unfold MemoryManager.update_short_term. by destruct (fst _).
  - reflexivity.
  - by destruct (Hr e u).
  - reflexivity.
Qed.

Lemma act_successful (w : world) x now :
  successful w ->
  match x with
  | MemoryManager.Assign a e =>
      In a (MemoryManager.refs w) ->
      (MemoryManager.episodic_success_threshold <= EpisodicMemory.score e)%Q
  | _ => True
  end ->
  successful (act w x now).
Proof.
  intros Hw Hx. destruct x as [e|a e|a uuid|r]; cbn [MemoryManager.act].
  - exact Hw.
  - destruct (MemoryManager.objects w !! a); [|exact Hw].
    by apply write_successful.
  - by apply store_episodic_memory_at_successful.
  - destruct r; try (by apply handle_successful).
    by apply store_episodic_memory_at_successful.
Qed.

Lemma act_entries (w : world) x now :
  length (MemoryManager.refs w) = length (entries w) ->
  length (MemoryManager.refs (act w x now)) = length (entries (act w x now)).
Proof.
  intros Hw. destruct x as [e|a e|a uuid|r]; cbn [MemoryManager.act].
  - exact Hw.
  - destruct (MemoryManager.objects w !! a); [|exact Hw].
    by destruct (write_entries w a e Hw) as [-> ->].
  - by apply store_episodic_memory_at_entries.
  - destruct r;
      try (cbn [MemoryManager.refs MemoryManager.manager];
           rewrite handle_episodic by discriminate; exact Hw).
    by apply store_episodic_memory_at_entries.
Qed.

Lemma play_app (w : world) xs ys : play w (xs ++ ys) = play (play w xs) ys.
Proof. apply fold_left_app. Qed.

Lemma scores_kept_app xs : forall (w : world) ys,
  scores_kept w (xs ++ ys) -> scores_kept w xs /\ scores_kept (play w xs) ys.
Proof.
  induction xs as [|[x now] xs IH]; intros w ys H; [by split|].
  cbn [app MemoryManager.scores_kept] in H. destruct H as [Hx H].
  destruct (IH _ _ H) as [H1 H2]. by split.
Qed.

Lemma play_successful xs : forall w : world,
  successful w -> scores_kept w xs -> successful (play w xs).
Proof.
  induction xs as [|[x now] xs IH]; intros w Hw Hk; [exact Hw|].
  cbn [MemoryManager.scores_kept] in Hk. destruct Hk as [Hx Hk].
  apply (IH (act w x now)); [|exact Hk].
  apply act_successful; [exact Hw|]. by destruct x.
Qed.

Lemma play_entries xs : forall w : world,
  length (MemoryManager.refs w) = length (entries w) ->
  length (MemoryManager.refs (play w xs)) = length (entries (play w xs)).
Proof.
  induction xs as [|[x now] xs IH]; intros w Hw; [exact Hw|].
  apply (IH (act w x now)). by apply act_entries.
Qed.


End WorldFacts.


